(** * Karakeep -> SiYuan one-way synchronisation: a shallow embedding

    The development follows the plugin's modules: [utils.ts],
    [siyuan_api.ts], [formatting.ts], [karakeep_api.ts] and
    [sync_logic.ts].  JavaScript strings are sequences of code units; they
    are modelled by [string], a character standing for the code unit
    with the same number (0..255).  Values produced by the JavaScript
    runtime whose computation is not part of the plugin (date parsing,
    URL parsing, percent-decoding, case mapping, the text of built-in
    functions, the HTML converter), and the answers of the SQL engine of
    the kernel to statements other than the lookup of a Karakeep id,
    are the fields of the class [Runtime]; the SiYuan kernel, the
    Karakeep server and the web are the [World] the plugin runs in. *)

From Stdlib Require Import ZArith Ascii String List Bool Lia DecimalString.
From Stdlib Require DecimalNat.
From stdpp Require Import base option list gmap strings.

Local Open Scope string_scope.
Local Open Scope Z_scope.

(** ** JavaScript values and string primitives *)

Module Js.

(** The result of evaluating an expression that may throw; the payload
    of [Throw] is the [message] of the thrown value (the empty string
    when it has none). *)
Inductive Res (A : Type) : Type :=
| Ok (a : A)
| Throw (message : string).
Arguments Ok {A} a.
Arguments Throw {A} message.

(** A time value: the result of [getTime()]. *)
Inductive TimeValue : Type :=
| NaN
| Time (ms : Z).

(** [!t] on a number. *)
Definition falsy_num (t : TimeValue) : bool :=
  match t with
  | NaN => true
  | Time ms => ms =? 0
  end.

(** [a > b] on numbers: false as soon as one side is NaN. *)
Definition gt_num (a b : TimeValue) : bool :=
  match a, b with
  | Time x, Time y => y <? x
  | _, _ => false
  end.

(** Truthiness of strings and of optional strings. *)
Definition nonempty (s : string) : bool :=
  match s with
  | EmptyString => false
  | String _ _ => true
  end.

Definition truthy (o : option string) : bool :=
  match o with
  | Some s => nonempty s
  | None => false
  end.

(** [a || b] when [a] is a possibly missing string. *)
Definition or_else (o : option string) (d : string) : string :=
  match o with
  | Some (String c s) => String c s
  | _ => d
  end.

Definition code_unit (c : ascii) : nat := nat_of_ascii c.

(** [\s], and the characters removed by [trim()], among the code units
    below 256: TAB, LF, VT, FF, CR, SPACE and NBSP. *)
Definition is_space (c : ascii) : bool :=
  let n := code_unit c in
  ((9 <=? n) && (n <=? 13) || (n =? 32) || (n =? 160))%nat.

Definition is_char (a c : ascii) : bool := Ascii.eqb a c.

(** [s.replace(/[class]/g, r)] for a one-character replacement. *)
Fixpoint replace_class (p : ascii -> bool) (r : ascii) (s : string) : string :=
  match s with
  | EmptyString => EmptyString
  | String c s' => String (if p c then r else c) (replace_class p r s')
  end.

(** [s.replace(/[class]+/g, r)]: every maximal run of characters of the
    class becomes one [r]; [inside] tells that the previous character
    belonged to a run already replaced. *)
Fixpoint replace_runs_from (p : ascii -> bool) (r : ascii) (inside : bool) (s : string) : string :=
  match s with
  | EmptyString => EmptyString
  | String c s' =>
      if p c then
        if inside then replace_runs_from p r true s'
        else String r (replace_runs_from p r true s')
      else String c (replace_runs_from p r false s')
  end.

Definition replace_runs (p : ascii -> bool) (r : ascii) (s : string) : string :=
  replace_runs_from p r false s.

(** [s.replace(/^[class]+/, "")]. *)
Fixpoint strip_leading (p : ascii -> bool) (s : string) : string :=
  match s with
  | EmptyString => EmptyString
  | String c s' => if p c then strip_leading p s' else s
  end.

(** [s.replace(/[class]+$/, "")]. *)
Fixpoint strip_trailing (p : ascii -> bool) (s : string) : string :=
  match s with
  | EmptyString => EmptyString
  | String c s' =>
      match strip_trailing p s' with
      | EmptyString => if p c then EmptyString else String c EmptyString
      | t => String c t
      end
  end.

(** [s.replace(/^[class]+|[class]+$/g, "")]: the run at the start and the
    run at the end are both removed. *)
Definition strip_both (p : ascii -> bool) (s : string) : string :=
  strip_trailing p (strip_leading p s).

Definition trim (s : string) : string := strip_both is_space s.

(** [s.substring(0, n)]. *)
Fixpoint prefix (n : nat) (s : string) : string :=
  match n, s with
  | S n', String c s' => String c (prefix n' s')
  | _, _ => EmptyString
  end.

(** [s.startsWith(p)]. *)
Definition startsWith (p s : string) : bool := String.prefix p s.

(** [s.includes(c)] for a one-character needle. *)
Fixpoint includes (a : ascii) (s : string) : bool :=
  match s with
  | EmptyString => false
  | String c s' => Ascii.eqb a c || includes a s'
  end.

(** [s.split(a)] for a one-character separator: never an empty array. *)
Fixpoint split (a : ascii) (s : string) : list string :=
  match s with
  | EmptyString => [EmptyString]
  | String c s' =>
      if Ascii.eqb a c then EmptyString :: split a s'
      else match split a s' with
           | h :: t => String c h :: t
           | [] => [String c EmptyString]
           end
  end.

(** [s.split(a)[0]]. *)
Definition before (a : ascii) (s : string) : string :=
  match split a s with
  | h :: _ => h
  | [] => EmptyString
  end.

(** [s.split(a).pop()]. *)
Definition after_last (a : ascii) (s : string) : string :=
  List.last (split a s) EmptyString.

(** Every character of [s] satisfies [p]. *)
Fixpoint all_chars (p : ascii -> bool) (s : string) : bool :=
  match s with
  | EmptyString => true
  | String c s' => p c && all_chars p s'
  end.



(** [String(n)] for a natural number. *)
Definition of_nat (n : nat) : string := NilZero.string_of_uint (Nat.to_uint n).

(** The low [w] decimal digits of [n], most significant first. *)
Fixpoint pad (w : nat) (n : Z) : string :=
  match w with
  | O => EmptyString
  | S w' => pad w' (n / 10) +:+ String (ascii_of_nat (48 + Z.to_nat (n mod 10))) EmptyString
  end.

(** *** Dates *)

Definition msPerDay : Z := 86400000.
Definition maxTime : Z := 8640000000000000.

(** [TimeClip]: a Date holds a time value of magnitude at most 8.64e15,
    or NaN. *)
Definition TimeClip (t : TimeValue) : TimeValue :=
  match t with
  | NaN => NaN
  | Time ms => if Z.abs ms <=? maxTime then Time ms else NaN
  end.

(** Year, month and day of the day number [z] (days since 1970-01-01) in
    the proleptic Gregorian calendar. *)
Definition civil_from_days (z : Z) : Z * Z * Z :=
  let z := z + 719468 in
  let era := z / 146097 in
  let doe := z - era * 146097 in
  let yoe := (doe - doe / 1460 + doe / 36524 - doe / 146096) / 365 in
  let doy := doe - (365 * yoe + yoe / 4 - yoe / 100) in
  let mp := (5 * doy + 2) / 153 in
  let d := doy - (153 * mp + 2) / 5 + 1 in
  let m := if mp <? 10 then mp + 3 else mp - 9 in
  let y := yoe + era * 400 + (if m <=? 2 then 1 else 0) in
  (y, m, d).

(** The day number of a calendar date; the inverse of [civil_from_days]. *)
Definition days_from_civil (y m d : Z) : Z :=
  let y := if m <=? 2 then y - 1 else y in
  let era := y / 400 in
  let yoe := y - era * 400 in
  let doy := (153 * (if 2 <? m then m - 3 else m + 9) + 2) / 5 + d - 1 in
  let doe := yoe * 365 + yoe / 4 - yoe / 100 + doy in
  era * 146097 + doe - 719468.

Definition year_string (y : Z) : string :=
  if (0 <=? y) && (y <=? 9999) then pad 4 y
  else (if y <? 0 then "-" else "+") +:+ pad 6 (Z.abs y).

(** [YYYY-MM-DDTHH:mm:ss.sssZ] for a finite time value. *)
Definition iso_of_time (t : Z) : string :=
  let '(y, m, d) := civil_from_days (t / msPerDay) in
  let r := t mod msPerDay in
  year_string y +:+ "-" +:+ pad 2 m +:+ "-" +:+ pad 2 d +:+ "T"
  +:+ pad 2 (r / 3600000) +:+ ":" +:+ pad 2 (r / 60000 mod 60) +:+ ":"
  +:+ pad 2 (r / 1000 mod 60) +:+ "." +:+ pad 3 (r mod 1000) +:+ "Z".

(** [date.toISOString()]: a RangeError on an invalid date. *)
Definition toISOString (t : TimeValue) : Res string :=
  match t with
  | NaN => Throw "Invalid time value"
  | Time ms => Ok (iso_of_time ms)
  end.

(** *** URLs *)

(** The components of a parsed URL that the plugin reads. *)
Record URL : Type := mkURL {
  origin : string;
  pathname : string;
  hostname : string
}.

End Js.

Export Js.

(** ** The documents of the SiYuan kernel *)

(** A document of the SiYuan kernel: its block id, its notebook, its
    path, its body and its attributes. *)
Record Doc : Type := {
  doc_id : string;
  box : string;
  hpath : string;
  markdown : string;
  attrs : gmap string string
}.

(** A kernel response [{code, msg, data}]. *)
Record Resp (D : Type) : Type := {
  code : Z;
  msg : string;
  data : option D
}.
Arguments code {D} _.
Arguments msg {D} _.
Arguments data {D} _.

(** ** The runtime *)

(** What the plugin asks of the JavaScript runtime, of the Turndown
    library and of the SQL engine of the kernel.  Every theorem below
    holds for any runtime. *)
Class Runtime : Type := {
  (** [Date.parse(s)] *)
  Date_parse : string -> TimeValue;
  (** [new URL(s)], [None] when it throws *)
  URL_parse : string -> option URL;
  (** [decodeURIComponent(s)], which throws a URIError on a malformed escape *)
  decodeURIComponent : string -> Res string;
  (** [s.toLowerCase()] *)
  toLowerCase : string -> string;
  (** [turndownService.turndown(html)] *)
  turndown : string -> Res string;
  (** [String(f)] for the built-in function [f] of the given name *)
  Function_toString : string -> string;
  (** What the SQL engine of the kernel answers to a statement, over the
      documents the kernel holds: the ids of the rows, or an error *)
  SQL_exec : string -> list Doc -> Resp (list string)
}.

(** [new Date(s).getTime()] *)
Definition getTime `{RT : Runtime} (s : string) : TimeValue := TimeClip (Date_parse s).

(** [new Date(s).toISOString()] *)
Definition isoString `{RT : Runtime} (s : string) : Res string := toISOString (getTime s).

(** [new Date(s).toISOString().split("T")[0]] *)
Definition isoDate `{RT : Runtime} (s : string) : Res string :=
  match isoString s with
  | Ok iso => Ok (before "T" iso)
  | Throw e => Throw e
  end.

(** ** utils.ts *)

(** The character class of the first replacement in [sanitizeSiYuanPath],
    by code unit: backslash, slash, colon, star, question mark, double
    quote, the angle brackets, bar, hash, percent, caret, ampersand, the
    braces, the square brackets, LF, CR and TAB. *)
Definition unsafe_char (c : ascii) : bool :=
  existsb (Nat.eqb (code_unit c))
    [92; 47; 58; 42; 63; 34; 60; 62; 124; 35; 37; 94; 38; 123; 125; 91; 93; 10; 13; 9]%nat.

Definition maxTitleLength : nat := 60.

(** The chain of five replacements on the title. *)
Definition sanitizeTitle (title : string) : string :=
  strip_both (is_char ".")
    (strip_both (is_char "-")
       (replace_runs (is_char "-") "-"
          (replace_runs is_space "-"
             (replace_class unsafe_char "-" title)))).

(** The 60 character cap, with the hyphens the cut leaves at the end
    removed. *)
Definition capTitle (s : string) : string :=
  if (maxTitleLength <? String.length s)%nat
  then strip_trailing (is_char "-") (prefix maxTitleLength s)
  else s.

Definition sanitizeSiYuanPath `{RT : Runtime} (title createdAt : string) : Res string :=
  match isoDate createdAt with
  | Throw e => Throw e
  | Ok dateStr =>
      let sanitizedTitle := capTitle (sanitizeTitle title) in
      let sanitizedTitle :=
        if nonempty sanitizedTitle then sanitizedTitle else "bookmark-" +:+ dateStr in
      Ok (dateStr +:+ "-" +:+ sanitizedTitle)
  end.

(** The table [mimeMap]. *)
Definition mimeMap : gmap string string :=
  list_to_map
    [("image/jpeg", "jpg"); ("image/png", "png"); ("image/gif", "gif");
     ("image/webp", "webp"); ("image/svg+xml", "svg"); ("application/pdf", "pdf")].

(** What an object literal inherits from [Object.prototype]: the
    functions, each property with the name of its function. *)
Definition Object_prototype : gmap string string :=
  list_to_map
    [("constructor", "Object"); ("hasOwnProperty", "hasOwnProperty");
     ("isPrototypeOf", "isPrototypeOf"); ("propertyIsEnumerable", "propertyIsEnumerable");
     ("toLocaleString", "toLocaleString"); ("toString", "toString"); ("valueOf", "valueOf");
     ("__defineGetter__", "__defineGetter__"); ("__defineSetter__", "__defineSetter__");
     ("__lookupGetter__", "__lookupGetter__"); ("__lookupSetter__", "__lookupSetter__")].

(** [mimeMap[key]] when it is truthy, as the text it gives once
    interpolated: the extension of a content type of the table, the text
    of an inherited function, and the text of the prototype itself for
    the accessor [__proto__]. *)
Definition mimeMap_at `{RT : Runtime} (key : string) : option string :=
  match mimeMap !! key with
  | Some ext => Some ext
  | None =>
      if String.eqb key "__proto__" then Some "[object Object]"
      else Function_toString <$> Object_prototype !! key
  end.

(** The value returned is only ever interpolated into the file name: it
    is given as its text. *)
Definition getExtensionFromContentType `{RT : Runtime}
    (contentType : string) (fallbackFileName : option string) : string :=
  let mainType := toLowerCase (trim (before ";" contentType)) in
  match mimeMap_at mainType with
  | Some ext => ext
  | None =>
      match fallbackFileName with
      | Some f =>
          if nonempty f && includes "." f then
            let ext := after_last "." f in
            if nonempty ext && (String.length ext <? 5)%nat then toLowerCase ext
            else "asset"
          else "asset"
      | None => "asset"
      end
  end.

(** ** types.ts *)

Inductive ContentType : Type := link | text | asset | unknown.
Inductive AssetType : Type := image | pdf.
Inductive AttachedBy : Type := ai | human.

Record KarakeepTag : Type := {
  tag_id : string;
  name : string;
  attachedBy : AttachedBy
}.

Module Content.
Record t : Type := {
  type : ContentType;
  url : option string;
  title : option string;
  description : option string;
  imageUrl : option string;
  imageAssetId : option string;
  screenshotAssetId : option string;
  htmlContent : option string;
  text : option string;
  sourceUrl : option string;
  assetType : option AssetType;
  assetId : option string;
  fileName : option string
}.
End Content.

Record KarakeepBookmark : Type := {
  id : string;
  createdAt : string;
  modifiedAt : option string;
  title : option string;
  archived : bool;
  favourited : bool;
  note : option string;
  summary : option string;
  tags : list KarakeepTag;
  content : Content.t
}.

Record KarakeepResponse : Type := {
  bookmarks : option (list KarakeepBookmark);
  total : nat;
  nextCursor : option string
}.

Record KarakeepSyncSettings : Type := {
  apiKey : string;
  apiEndpoint : string;
  syncNotebookId : option string;
  syncIntervalMinutes : Z;
  lastSyncTimestamp : Z;
  updateExistingFiles : bool;
  excludeArchived : bool;
  onlyFavorites : bool;
  excludedTags : list string;
  downloadAssets : bool
}.

Inductive Status : Type := created | updated | skipped | skipped_filtered | error.

Record ProcessResult : Type := {
  status : Status;
  message : option string
}.

#[global] Instance Status_eq_dec : EqDecision Status.
Proof. solve_decision. Defined.

#[global] Instance ContentType_eq_dec : EqDecision ContentType.
Proof. solve_decision. Defined.

(** ** constants.ts *)

Definition ATTR_PREFIX : string := "custom-Karakeep-".
Definition ATTR_KARAKEEP_ID : string := ATTR_PREFIX +:+ "id".
Definition ATTR_MODIFIED : string := ATTR_PREFIX +:+ "modified".
Definition BOOKMARK_FETCH_LIMIT : nat := 50.

(** ** The world the plugin runs in *)

(** What a kernel request meets: a kernel that serves it, a kernel that
    answers with an error code and does nothing, or a request that never
    gets its answer ([fetchSyncPost] rejects). *)
Inductive Fault : Type :=
| Healthy
| Refuse (errcode : Z) (errmsg : string)
| Disconnect (errmsg : string).

(** An HTTP answer to [fetch]: the status, the Content-Type header and
    the body as [arrayBuffer()], [text()] or [json()] deliver it. *)
Record HttpResponse (B : Type) : Type := {
  http_status : nat;
  content_type : option string;
  body : Res B
}.
Arguments http_status {B} _.
Arguments content_type {B} _.
Arguments body {B} _.

(** [response.ok] *)
Definition http_ok {B} (r : HttpResponse B) : bool :=
  ((200 <=? http_status r) && (http_status r <=? 299))%nat.

(** An HTTP answer of the Karakeep API: the status and the body as
    [text()] and as [json()] deliver it. *)
Record PageResponse : Type := {
  page_status : nat;
  page_text : Res string;
  page_json : Res KarakeepResponse
}.

Definition page_ok (r : PageResponse) : bool :=
  ((200 <=? page_status r) && (page_status r <=? 299))%nat.

(** The answer of the kernel's asset upload. *)
Record UploadData : Type := {
  succMap : gmap string string;
  errFiles : list string
}.

(** The requests the plugin sends, as they are recorded in the trace. *)
Inductive Call : Type :=
| SqlQuery (stmt : string)
| GetBlockAttrs (block : string)
| SetBlockAttrs (block : string) (new_attrs : gmap string string)
| RemoveDocByID (doc : string)
| CreateDocWithMd (notebook path md : string)
| UploadAsset (notebook : option string) (file : string)
| FetchAsset (url : string) (authorized : bool)
| FetchBookmarks (cursor : option string).

Inductive Level : Type := Info | Warn | Error.

(** The state a run reads and writes: the plugin object ([settings],
    [i18n]), the kernel's documents and the next block id it hands out,
    the answers the environment is going to give (kernel faults, asset
    downloads, uploads, pages of the Karakeep API, each consumed in
    order), the clock, and what a run leaves behind: the trace of
    requests and the console, of which only the level of each line is
    kept. *)
Record World : Type := {
  settings : KarakeepSyncSettings;
  i18n : gmap string string;
  docs : list Doc;
  next_id : nat;
  faults : list Fault;
  web : list (Res (HttpResponse string));
  uploads : list (Res (Resp UploadData));
  source : list (Res PageResponse);
  now : Z;
  calls : list Call;
  console : list Level
}.

Definition set_settings (s : KarakeepSyncSettings) (w : World) : World :=
  {| settings := s; i18n := i18n w; docs := docs w; next_id := next_id w;
     faults := faults w; web := web w; uploads := uploads w; source := source w;
     now := now w; calls := calls w; console := console w |}.

Definition set_docs (d : list Doc) (n : nat) (w : World) : World :=
  {| settings := settings w; i18n := i18n w; docs := d; next_id := n;
     faults := faults w; web := web w; uploads := uploads w; source := source w;
     now := now w; calls := calls w; console := console w |}.

Definition set_faults (f : list Fault) (w : World) : World :=
  {| settings := settings w; i18n := i18n w; docs := docs w; next_id := next_id w;
     faults := f; web := web w; uploads := uploads w; source := source w;
     now := now w; calls := calls w; console := console w |}.

Definition set_web (l : list (Res (HttpResponse string))) (w : World) : World :=
  {| settings := settings w; i18n := i18n w; docs := docs w; next_id := next_id w;
     faults := faults w; web := l; uploads := uploads w; source := source w;
     now := now w; calls := calls w; console := console w |}.

Definition set_uploads (l : list (Res (Resp UploadData))) (w : World) : World :=
  {| settings := settings w; i18n := i18n w; docs := docs w; next_id := next_id w;
     faults := faults w; web := web w; uploads := l; source := source w;
     now := now w; calls := calls w; console := console w |}.

Definition set_source (l : list (Res PageResponse)) (w : World) : World :=
  {| settings := settings w; i18n := i18n w; docs := docs w; next_id := next_id w;
     faults := faults w; web := web w; uploads := uploads w; source := l;
     now := now w; calls := calls w; console := console w |}.

Definition record_call (c : Call) (w : World) : World :=
  {| settings := settings w; i18n := i18n w; docs := docs w; next_id := next_id w;
     faults := faults w; web := web w; uploads := uploads w; source := source w;
     now := now w; calls := calls w ++ [c]; console := console w |}.

Definition record_line (l : Level) (w : World) : World :=
  {| settings := settings w; i18n := i18n w; docs := docs w; next_id := next_id w;
     faults := faults w; web := web w; uploads := uploads w; source := source w;
     now := now w; calls := calls w; console := console w ++ [l] |}.

(** *** Asynchronous code: state and exceptions *)

Definition M (A : Type) : Type := World -> Res A * World.

#[global] Instance M_ret : MRet M := fun A a w => (Ok a, w).

#[global] Instance M_bind : MBind M := fun A B k m w =>
  match m w with
  | (Ok a, w') => k a w'
  | (Throw e, w') => (Throw e, w')
  end.

Definition throw {A} (e : string) : M A := fun w => (Throw e, w).

(** [try { m } catch (error) { h error.message }] *)
Definition try_catch {A} (m : M A) (h : string -> M A) : M A := fun w =>
  match m w with
  | (Ok a, w') => (Ok a, w')
  | (Throw e, w') => h e w'
  end.

Definition lift {A} (r : Res A) : M A := fun w => (r, w).

Definition get {A} (f : World -> A) : M A := fun w => (Ok (f w), w).

Definition modify (f : World -> World) : M unit := fun w => (Ok tt, f w).

Definition logInfo : M unit := modify (record_line Info).
Definition logWarn : M unit := modify (record_line Warn).
Definition logError : M unit := modify (record_line Error).

(** [plugin.i18n.key || fallback] *)
Definition tr (key fallback : string) : M string :=
  get (fun w => or_else (i18n w !! key) fallback).

(** *** The SiYuan kernel *)

Module Kernel.

Definition failed {D} (c : Z) (m : string) : Resp D :=
  {| code := if c =? 0 then -1 else c; msg := m; data := None |}.

Definition done {D} (d : option D) : Resp D :=
  {| code := 0; msg := EmptyString; data := d |}.

(** A request: it is recorded, meets the next fault, and is served by
    [serve] when the kernel is healthy. *)
Definition request {D} (c : Call) (serve : World -> Resp D * World) : M (Resp D) := fun w =>
  let w := record_call c w in
  match faults w with
  | [] => let (r, w') := serve w in (Ok r, w')
  | Healthy :: fs => let (r, w') := serve (set_faults fs w) in (Ok r, w')
  | Refuse c m :: fs => (Ok (failed c m), set_faults fs w)
  | Disconnect m :: fs => (Throw m, set_faults fs w)
  end.

Definition carries (notebook karakeepId : string) (d : Doc) : bool :=
  String.eqb (box d) notebook
  && bool_decide (attrs d !! ATTR_KARAKEEP_ID = Some karakeepId).

(** The rows of the lookup of a Karakeep id in a notebook: the ids of
    the documents of the notebook whose Karakeep-id attribute has the
    given value, at most one of them. *)
Definition select (notebook karakeepId : string) (l : list Doc) : list string :=
  take 1 (doc_id <$> filter (fun d => carries notebook karakeepId d = true) l).

(** [s] without [p], when it starts with [p]. *)
Fixpoint strip_prefix (p s : string) : option string :=
  match p, s with
  | EmptyString, _ => Some s
  | String a p', String c s' => if Ascii.eqb a c then strip_prefix p' s' else None
  | String _ _, EmptyString => None
  end.

(** A character that stands for itself in a string literal of a
    statement: any but the quote, which ends the literal, and NUL, which
    ends the statement. *)
Definition plain_char (c : ascii) : bool :=
  negb (Ascii.eqb "'" c) && negb (Ascii.eqb (ascii_of_nat 0) c).

(** A string literal after its opening quote: its characters, plain
    ones, up to the closing quote, and what follows the quote. *)
Fixpoint literal (s : string) : option (string * string) :=
  match s with
  | EmptyString => None
  | String c s' =>
      if Ascii.eqb "'" c then Some (EmptyString, s')
      else if plain_char c then
        match literal s' with
        | Some (l, rest) => Some (String c l, rest)
        | None => None
        end
      else None
  end.

(** The text of the lookup around its two literals. *)
Definition lookup_head : string :=
  "
        SELECT b.id
        FROM blocks AS b
        JOIN attributes AS a ON b.id = a.block_id
        WHERE
            b.box = '".

Definition lookup_middle : string :=
  " AND
            b.type = 'd' AND
            a.name = 'custom-Karakeep-id' AND
            a.value = '".

Definition lookup_tail : string :=
  "
        LIMIT 1
    ".

(** The notebook and the Karakeep id a statement looks up, when the
    statement is the lookup of a Karakeep id in a notebook. *)
Definition lookupOf (stmt : string) : option (string * string) :=
  match strip_prefix lookup_head stmt with
  | Some rest =>
      match literal rest with
      | Some (notebook, rest) =>
          match strip_prefix lookup_middle rest with
          | Some rest =>
              match literal rest with
              | Some (karakeepId, rest) =>
                  if String.eqb rest lookup_tail then Some (notebook, karakeepId) else None
              | None => None
              end
          | None => None
          end
      | None => None
      end
  | None => None
  end.

(** The answer to a statement over the documents [l]: the lookup of a
    Karakeep id in a notebook is answered with its rows, any other
    statement as the engine answers it. *)
Definition rows `{RT : Runtime} (stmt : string) (l : list Doc) : Resp (list string) :=
  match lookupOf stmt with
  | Some (notebook, karakeepId) => done (Some (select notebook karakeepId l))
  | None => SQL_exec stmt l
  end.

(** The SQL query: it changes nothing. *)
Definition sql `{RT : Runtime} (stmt : string) (w : World) : Resp (list string) * World :=
  (rows stmt (docs w), w).

Definition find_doc (i : string) (w : World) : option Doc :=
  List.find (fun d => String.eqb (doc_id d) i) (docs w).

Definition getBlockAttrs (i : string) (w : World) : Resp (gmap string string) * World :=
  match find_doc i w with
  | Some d => (done (Some (attrs d)), w)
  | None => (failed (-1) "block not found", w)
  end.

Definition with_attrs (a : gmap string string) (d : Doc) : Doc :=
  {| doc_id := doc_id d; box := box d; hpath := hpath d; markdown := markdown d;
     attrs := a ∪ attrs d |}.

Definition setBlockAttrs (i : string) (a : gmap string string) (w : World) : Resp unit * World :=
  match find_doc i w with
  | Some _ =>
      (done None,
       set_docs ((fun d => if String.eqb (doc_id d) i then with_attrs a d else d) <$> docs w)
                (next_id w) w)
  | None => (failed (-1) "block not found", w)
  end.

Definition removeDocByID (i : string) (w : World) : Resp unit * World :=
  match find_doc i w with
  | Some _ =>
      (done None,
       set_docs (filter (fun d => String.eqb (doc_id d) i = false) (docs w)) (next_id w) w)
  | None => (failed (-1) "document not found", w)
  end.

Definition fresh_id (n : nat) : string := "doc-" +:+ of_nat n.

Definition createDocWithMd (notebook path md : string) (w : World) : Resp string * World :=
  let i := fresh_id (next_id w) in
  (done (Some i),
   set_docs (docs w ++ [{| doc_id := i; box := notebook; hpath := path; markdown := md;
                           attrs := ∅ |}])
            (S (next_id w)) w).

(** The answer to an upload: the next scripted answer; once they are
    used up the kernel stores the file under the asset directory. *)
Definition uploadAnswer (file : string) (w : World) : Res (Resp UploadData) :=
  match uploads w with
  | [] => Ok (done (Some {| succMap := {[ file := "assets/Karakeep-sync/" +:+ file ]};
                            errFiles := [] |}))
  | r :: _ => r
  end.

Definition upload (notebook : option string) (file : string) : M (Resp UploadData) := fun w =>
  let w := record_call (UploadAsset notebook file) w in
  (uploadAnswer file w, set_uploads (tail (uploads w)) w).

End Kernel.

(** The answer to the download of an asset: the next scripted answer, a
    network error once they are used up. *)
Definition downloadAnswer (w : World) : Res (HttpResponse string) :=
  match web w with
  | [] => Throw "Failed to fetch"
  | r :: _ => r
  end.

(** [fetch(assetUrl, { headers })] *)
Definition fetchAsset (url : string) (authorized : bool) : M (HttpResponse string) := fun w =>
  let w := record_call (FetchAsset url authorized) w in
  (downloadAnswer w, set_web (tail (web w)) w).

(** The answer of the Karakeep API to the next request. *)
Definition pageAnswer (w : World) : Res PageResponse :=
  match source w with
  | [] => Throw "Failed to fetch"
  | r :: _ => r
  end.

(** [fetch(apiUrl + query, ...)] on the Karakeep API. *)
Definition fetchPage (cursor : option string) : M PageResponse := fun w =>
  let w := record_call (FetchBookmarks cursor) w in
  (pageAnswer w, set_source (tail (source w)) w).

(** [getKarakeepAssetUrl] of utils.ts, which writes a warning. *)
Definition getKarakeepAssetUrl `{RT : Runtime} (apiEndpoint assetId : string) : M (option string) :=
  match URL_parse apiEndpoint with
  | Some baseUrl => mret (Some (origin baseUrl +:+ "/assets/" +:+ assetId))
  | None => _ ← logWarn; mret None
  end.

(** ** siyuan_api.ts *)

(** The statement of [findExistingDocIdByKarakeepId]: the two
    identifiers are interpolated as they are. *)
Definition sqlQuery (notebookId karakeepBookmarkId : string) : string :=
  "
        SELECT b.id
        FROM blocks AS b
        JOIN attributes AS a ON b.id = a.block_id
        WHERE
            b.box = '" +:+ notebookId +:+ "' AND
            b.type = 'd' AND
            a.name = '" +:+ ATTR_KARAKEEP_ID +:+ "' AND
            a.value = '" +:+ karakeepBookmarkId +:+ "'
        LIMIT 1
    ".

Definition findExistingDocIdByKarakeepId `{RT : Runtime} (notebookId karakeepBookmarkId : string)
    : M (option string) :=
  let sqlQuery := sqlQuery notebookId karakeepBookmarkId in
  _ ← logInfo;
  try_catch
    (result ← Kernel.request (SqlQuery sqlQuery) (Kernel.sql sqlQuery);
     match code result =? 0, data result with
     | true, Some (foundId :: _) => _ ← logInfo; mret (Some foundId)
     | true, _ => _ ← logInfo; mret None
     | false, _ => _ ← logError; mret None
     end)
    (fun e => _ ← logError; throw e).

Definition getSiYuanBlockAttrs (blockId : string) : M (option (gmap string string)) :=
  try_catch
    (attrsResult ← Kernel.request (GetBlockAttrs blockId) (Kernel.getBlockAttrs blockId);
     match code attrsResult =? 0, data attrsResult with
     | true, Some a => mret (Some a)
     | _, _ => _ ← logWarn; mret None
     end)
    (fun _ => _ ← logError; mret None).

(** [cond ? content.url : content.sourceUrl || ''], a value that may be
    undefined and is then left out of the attributes sent. *)
Definition url_attr (b : KarakeepBookmark) : option string :=
  match Content.type (content b) with
  | link => Content.url (content b)
  | _ => Some (or_else (Content.sourceUrl (content b)) EmptyString)
  end.

(** [bookmark.modifiedAt ? bookmark.modifiedAt : bookmark.createdAt], the
    string both [setSiYuanDocAttributes] and [shouldUpdateDocument] hand
    to [new Date]. *)
Definition effectiveModified (bookmark : KarakeepBookmark) : string :=
  or_else (modifiedAt bookmark) (createdAt bookmark).

Definition string_of_bool (b : bool) : string := if b then "true" else "false".

Definition insert_opt (k : string) (v : option string) (m : gmap string string)
    : gmap string string :=
  match v with
  | Some x => <[k := x]> m
  | None => m
  end.

(** The attribute object of [setSiYuanDocAttributes]; building it throws
    when a date of the bookmark is invalid. *)
Definition docAttributes `{RT : Runtime} (bookmark : KarakeepBookmark) (title : string)
    : Res (gmap string string) :=
  match isoString (effectiveModified bookmark) with
  | Throw e => Throw e
  | Ok modifiedIso =>
      match isoString (createdAt bookmark) with
      | Throw e => Throw e
      | Ok createdIso =>
          let tagNames := String.concat ", " (name <$> tags bookmark) in
          let summaryText := or_else (summary bookmark) EmptyString in
          Ok (<[ATTR_KARAKEEP_ID := id bookmark]>
              (<[ATTR_MODIFIED := modifiedIso]>
              (<["title" := title]>
              (insert_opt "url" (url_attr bookmark)
              (insert_opt (ATTR_PREFIX +:+ "url") (url_attr bookmark)
              (<[ATTR_PREFIX +:+ "created" := createdIso]>
              (<[ATTR_PREFIX +:+ "tags" := tagNames]>
              (<[ATTR_PREFIX +:+ "summary" := summaryText]>
              (<[ATTR_PREFIX +:+ "favourited" := string_of_bool (favourited bookmark)]>
              (<[ATTR_PREFIX +:+ "archived" := string_of_bool (archived bookmark)]>
              (<["created" := createdIso]>
              (<["tags" := tagNames]>
              (<["summary" := summaryText]>
              (<["favourited" := string_of_bool (favourited bookmark)]>
              (<["archived" := string_of_bool (archived bookmark)]> ∅)))))))))))))))
      end
  end.

Definition setSiYuanDocAttributes `{RT : Runtime}
    (docRootId : string) (bookmark : KarakeepBookmark) (title : string) : M unit :=
  a ← lift (docAttributes bookmark title);
  try_catch
    (_ ← logInfo;
     setResult ← Kernel.request (SetBlockAttrs docRootId a) (Kernel.setBlockAttrs docRootId a);
     if code setResult =? 0 then logInfo else logError)
    (fun _ => logError).

Definition createSiYuanDocWithMd (notebookId path md karakeepIdForLog : string)
    : M (option string) :=
  try_catch
    (_ ← logInfo;
     createResult ← Kernel.request (CreateDocWithMd notebookId path md)
                      (Kernel.createDocWithMd notebookId path md);
     if (code createResult =? 0) && truthy (data createResult)
     then _ ← logInfo; mret (data createResult)
     else _ ← logError; mret None)
    (fun _ => _ ← logError; mret None).

Definition removeSiYuanDocById (docId : string) : M bool :=
  try_catch
    (_ ← logInfo;
     deleteResult ← Kernel.request (RemoveDocByID docId) (Kernel.removeDocByID docId);
     if code deleteResult =? 0 then _ ← logInfo; mret true
     else _ ← logError; mret false)
    (fun _ => _ ← logError; mret false).

(** [s.split(/[?#]/)[0]] *)
Fixpoint before_query (s : string) : string :=
  match s with
  | EmptyString => EmptyString
  | String c s' =>
      if is_char "?" c || is_char "#" c then EmptyString else String c (before_query s')
  end.

(** The class [[^a-zA-Z0-9_-]]. *)
Definition not_word_char (c : ascii) : bool :=
  let n := code_unit c in
  negb ((97 <=? n) && (n <=? 122) || (65 <=? n) && (n <=? 90)
        || (48 <=? n) && (n <=? 57) || (n =? 95) || (n =? 45))%nat.

(** The class of the file-name replacement: backslash, slash, colon,
    star, question mark, double quote, the angle brackets and bar. *)
Definition unsafe_file_char (c : ascii) : bool :=
  existsb (Nat.eqb (code_unit c)) [92; 47; 58; 42; 63; 34; 60; 62; 124]%nat.

(** Step 2 of [downloadAndUploadAsset]: the name under which the asset
    is stored. *)
Definition assetFileName `{RT : Runtime} (assetUrl assetIdHint titleHint contentType : string)
    : string :=
  let fileName :=
    match URL_parse assetUrl with
    | Some u => before_query (after_last "/" (pathname u))
    | None => EmptyString
    end in
  let fileName :=
    if negb (nonempty fileName) || (50 <? String.length fileName)%nat
       || negb (includes "." fileName)
    then
      let extension := getExtensionFromContentType contentType (Some fileName) in
      let safeTitlePart := prefix 20 (replace_class not_word_char "-" titleHint) in
      let idPart := if (8 <? String.length assetIdHint)%nat
                    then prefix 8 assetIdHint else assetIdHint in
      idPart +:+ "-" +:+ (if nonempty safeTitlePart then safeTitlePart else "asset")
             +:+ "." +:+ extension
    else fileName in
  replace_class is_space "_" (replace_class unsafe_file_char "-" fileName).

Definition downloadAndUploadAsset `{RT : Runtime}
    (settings : KarakeepSyncSettings) (assetUrl assetIdHint titleHint : string)
    : M (option string) :=
  _ ← logInfo;
  try_catch
    (needsAuth ←
       match URL_parse (apiEndpoint settings) with
       | Some u => mret (startsWith (origin u) assetUrl)
       | None => _ ← logWarn; mret false
       end;
     response ← fetchAsset assetUrl needsAuth;
     if negb (http_ok response) then
       _ ← (if (http_status response =? 404)%nat then logWarn
            else if ((http_status response =? 401) || (http_status response =? 403))%nat
                 then logWarn
                 else logError);
       mret None
     else
       buffer ← lift (body response);
       let contentType := or_else (content_type response) "application/octet-stream" in
       let fileName := assetFileName assetUrl assetIdHint titleHint contentType in
       _ ← (if truthy (syncNotebookId settings) then mret tt else logWarn);
       _ ← logInfo;
       uploadResult ← Kernel.upload
                        (if truthy (syncNotebookId settings) then syncNotebookId settings
                         else None) fileName;
       match code uploadResult =? 0, data uploadResult with
       | true, Some d =>
           if truthy (succMap d !! fileName)
           then _ ← logInfo; mret (succMap d !! fileName)
           else _ ← logError; mret None
       | _, _ => _ ← logError; mret None
       end)
    (fun _ => _ ← logError; mret None).

(** ** formatting.ts *)

Definition nl : string := String (ascii_of_nat 10) EmptyString.

(** [o?.trim()] when it is truthy. *)
Definition trimmed (o : option string) : option string :=
  match o with
  | Some s => if nonempty (trim s) then Some (trim s) else None
  | None => None
  end.

(** The characters of an extension: neither a slash nor a dot. *)
Fixpoint plain_tail (s : string) : bool :=
  match s with
  | EmptyString => true
  | String c s' => negb (is_char "/" c) && negb (is_char "." c) && plain_tail s'
  end.

(** [s.replace(/\.[^/.]+$/, "")] *)
Fixpoint strip_extension (s : string) : string :=
  match s with
  | EmptyString => EmptyString
  | String c s' =>
      if is_char "." c && nonempty s' && plain_tail s' then EmptyString
      else String c (strip_extension s')
  end.

(** [segments.pop() || segments.pop()] *)
Definition popOrPop (segments : list string) : option string :=
  match rev segments with
  | [] => None
  | l :: rest =>
      if nonempty l then Some l
      else match rest with
           | [] => None
           | p :: _ => Some p
           end
  end.

(** [hostname.replace(/^www\./, "")] *)
Definition strip_www (h : string) : string :=
  if startsWith "www." h then String.substring 4 (String.length h - 4) h else h.

Definition dash_or_underscore (c : ascii) : bool := is_char "-" c || is_char "_" c.

(** The title made of a decoded path segment: extension stripped,
    hyphens and underscores turned to spaces, trimmed. *)
Definition pathTitleOf (decodedSegment : string) : string :=
  trim (replace_class dash_or_underscore " " (strip_extension decodedSegment)).

(** The last statements of [getBookmarkTitle]. *)
Definition fallbackTitle `{RT : Runtime} (bookmark : KarakeepBookmark) : Res string :=
  match isoDate (createdAt bookmark) with
  | Throw e => Throw e
  | Ok dateStr => Ok ("Bookmark-" +:+ prefix 8 (id bookmark) +:+ "-" +:+ dateStr)
  end.

Definition getBookmarkTitle `{RT : Runtime} (bookmark : KarakeepBookmark) : Res string :=
  match trimmed (title bookmark) with
  | Some t => Ok t
  | None =>
      let content := content bookmark in
      match Content.type content with
      | link =>
          match trimmed (Content.title content) with
          | Some t => Ok t
          | None =>
              if truthy (Content.url content) then
                let u := or_else (Content.url content) EmptyString in
                match URL_parse u with
                | None => Ok (prefix 100 u)
                | Some url =>
                    match popOrPop (split "/" (pathname url)) with
                    | Some (String c s as lastSegment) =>
                        match decodeURIComponent lastSegment with
                        | Throw _ => Ok (prefix 100 u)
                        | Ok decodedSegment =>
                            let pathTitle := pathTitleOf decodedSegment in
                            if nonempty pathTitle then Ok pathTitle
                            else Ok (strip_www (hostname url))
                        end
                    | _ => Ok (strip_www (hostname url))
                    end
                end
              else fallbackTitle bookmark
          end
      | text =>
          if truthy (Content.text content) then
            let firstLine :=
              trim (before (ascii_of_nat 10) (or_else (Content.text content) EmptyString)) in
            if (String.length firstLine <=? 100)%nat then Ok firstLine
            else Ok (prefix 97 firstLine +:+ "...")
          else fallbackTitle bookmark
      | asset =>
          if truthy (Content.fileName content) then
            Ok (trim (strip_extension (or_else (Content.fileName content) EmptyString)))
          else if truthy (Content.sourceUrl content) then
            let u := or_else (Content.sourceUrl content) EmptyString in
            match URL_parse u with
            | None => Ok (prefix 100 u)
            | Some url =>
                match popOrPop (split "/" (pathname url)) with
                | Some (String c s as lastSegment) =>
                    match decodeURIComponent lastSegment with
                    | Throw _ => Ok (prefix 100 u)
                    | Ok decoded => Ok decoded
                    end
                | _ => Ok (hostname url)
                end
            end
          else fallbackTitle bookmark
      | unknown => fallbackTitle bookmark
      end
  end.

(** The asset chosen for the document: its URL, the id used as a hint
    for the file name, and its description. *)
Definition chooseAsset `{RT : Runtime}
    (settings : KarakeepSyncSettings) (bookmark : KarakeepBookmark) (title : string)
    : M (option string * string * string) :=
  let c := content bookmark in
  let assetDescription := if nonempty title then title else "asset" in
  match Content.type c, Content.assetType c, truthy (Content.assetId c) with
  | asset, Some image, true =>
      let assetId := or_else (Content.assetId c) EmptyString in
      u ← getKarakeepAssetUrl (apiEndpoint settings) assetId;
      mret (u, assetId, assetDescription)
  | link, _, _ =>
      if truthy (Content.imageAssetId c) then
        let assetId := or_else (Content.imageAssetId c) EmptyString in
        u ← getKarakeepAssetUrl (apiEndpoint settings) assetId;
        mret (u, assetId, assetDescription)
      else if truthy (Content.screenshotAssetId c) then
        let assetId := or_else (Content.screenshotAssetId c) EmptyString in
        u ← getKarakeepAssetUrl (apiEndpoint settings) assetId;
        mret (u, assetId, assetDescription)
      else mret (None, id bookmark, assetDescription)
  | _, _, _ =>
      if truthy (Content.imageUrl c)
      then mret (Content.imageUrl c, id bookmark, if nonempty title then title else "image")
      else mret (None, id bookmark, assetDescription)
  end.

Definition formatBookmarkAsMarkdown `{RT : Runtime}
    (bookmark : KarakeepBookmark) (title : string) : M string :=
  settings ← get settings;
  let c := content bookmark in
  let url := match Content.type c with link => Content.url c | _ => Content.sourceUrl c end in
  let description :=
    match Content.type c with link => Content.description c | _ => Content.text c end in
  let markdown := "# " +:+ title +:+ nl +:+ nl in
  (* 1. Handle Assets *)
  '(assetUrlToProcess, assetIdForHint, assetDescription) ← chooseAsset settings bookmark title;
  assetMarkdown ←
    (if truthy assetUrlToProcess then
       let assetUrl := or_else assetUrlToProcess EmptyString in
       if downloadAssets settings then
         siyuanAssetPath ← downloadAndUploadAsset settings assetUrl assetIdForHint assetDescription;
         if truthy siyuanAssetPath then
           mret ("![" +:+ assetDescription +:+ "](" +:+ or_else siyuanAssetPath EmptyString
                 +:+ ")" +:+ nl +:+ nl)
         else
           viewText ← tr "viewOnKarakeep" "View on Karakeep";
           failText ← tr "assetDownloadFailed" "Failed to download asset";
           mret ("[" +:+ failText +:+ ": " +:+ viewText +:+ "](" +:+ assetUrl +:+ ")" +:+ nl +:+ nl)
       else mret ("![" +:+ assetDescription +:+ "](" +:+ assetUrl +:+ ")" +:+ nl +:+ nl)
     else mret EmptyString);
  let markdown := markdown +:+ assetMarkdown in
  (* 2. Core Content Fields *)
  let markdown :=
    if truthy url && negb (bool_decide (Content.type c = asset))
    then markdown +:+ "**URL:** [" +:+ or_else url EmptyString +:+ "]("
         +:+ or_else url EmptyString +:+ ")" +:+ nl +:+ nl
    else markdown in
  summaryLabel ← tr "summary" "Summary";
  let markdown :=
    if truthy (summary bookmark)
    then markdown +:+ "## " +:+ summaryLabel +:+ nl +:+ nl
         +:+ trim (or_else (summary bookmark) EmptyString) +:+ nl +:+ nl
    else markdown in
  descriptionLabel ←
    (if bool_decide (Content.type c = text) then tr "textContent" "Text Content"
     else tr "description" "Description");
  let markdown :=
    if truthy description
    then markdown +:+ "## " +:+ descriptionLabel +:+ nl +:+ nl
         +:+ trim (or_else description EmptyString) +:+ nl +:+ nl
    else markdown in
  tagsLabel ← tr "tags" "Tags";
  let markdown :=
    match tags bookmark with
    | [] => markdown
    | ts => markdown +:+ "**" +:+ tagsLabel +:+ ":** "
            +:+ String.concat " " ((fun t => "#" +:+ replace_runs is_space "-" (name t)) <$> ts)
            +:+ nl +:+ nl
    end in
  notesLabel ← tr "notes" "Notes";
  let markdown :=
    markdown +:+ "## " +:+ notesLabel +:+ nl +:+ nl
    +:+ or_else (note bookmark) EmptyString +:+ nl +:+ nl in
  (* 3. HTML Content Snapshot *)
  markdown ←
    (match trimmed (Content.htmlContent c) with
     | Some _ =>
         _ ← logInfo;
         match turndown (or_else (Content.htmlContent c) EmptyString) with
         | Ok convertedMarkdown =>
             if nonempty (trim convertedMarkdown) then
               snapshotLabel ← tr "contentSnapshot" "Content Snapshot";
               mret (markdown +:+ "## " +:+ snapshotLabel +:+ nl +:+ nl
                     +:+ trim convertedMarkdown +:+ nl +:+ nl)
             else _ ← logInfo; mret markdown
         | Throw _ => _ ← logError; mret markdown
         end
     | None => mret markdown
     end);
  (* 4. Link back to Karakeep *)
  match URL_parse (apiEndpoint settings) with
  | Some u =>
      viewText ← tr "viewOnKarakeep" "View in Karakeep";
      mret (markdown +:+ "----" +:+ nl +:+ "[" +:+ viewText +:+ "](" +:+ origin u
            +:+ "/dashboard/preview/" +:+ id bookmark +:+ ")")
  | None =>
      _ ← logWarn;
      mret (markdown +:+ "----" +:+ nl +:+ "Karakeep ID: " +:+ id bookmark)
  end.

(** ** karakeep_api.ts *)

Definition fetchKarakeepBookmarks (cursor : option string) : M KarakeepResponse :=
  _ ← logInfo;
  response ←
    try_catch
      (response ← fetchPage (if truthy cursor then cursor else None);
       if negb (page_ok response) then
         errorText ← lift (page_text response);
         _ ← logError;
         throw ("Karakeep API request failed: " +:+ of_nat (page_status response)
                +:+ " " +:+ errorText)
       else mret response)
      (fun e => _ ← logError; throw e);
  (* [return response.json()]: a rejection of this promise is the
     rejection of the call, the handler above is not run for it *)
  lift (page_json response).

(** ** sync_logic.ts *)

Definition result (s : Status) (m : string) : ProcessResult :=
  {| status := s; message := Some m |}.

Definition shouldUpdateDocument `{RT : Runtime} (docId : string) (bookmark : KarakeepBookmark)
    : M bool :=
  enabled ← get (fun w => updateExistingFiles (settings w));
  if negb enabled then mret false
  else
    attrs ← getSiYuanBlockAttrs docId;
    match attrs with
    | Some attrs =>
        let storedModifiedTime :=
          if truthy (attrs !! ATTR_MODIFIED)
          then getTime (or_else (attrs !! ATTR_MODIFIED) EmptyString)
          else Time 0 in
        let bookmarkModifiedTime := getTime (effectiveModified bookmark) in
        if falsy_num storedModifiedTime || gt_num bookmarkModifiedTime storedModifiedTime
        then _ ← logInfo; mret true
        else mret false
    | None => _ ← logWarn; mret true
    end.

Definition createNewSiYuanDocument `{RT : Runtime}
    (bookmark : KarakeepBookmark) (notebookId title path : string) : M ProcessResult :=
  try_catch
    (markdownContent ← formatBookmarkAsMarkdown bookmark title;
     newDocId ← createSiYuanDocWithMd notebookId path markdownContent (id bookmark);
     match newDocId with
     | Some newDocId =>
         _ ← setSiYuanDocAttributes newDocId bookmark title;
         mret {| status := created; message := None |}
     | None => mret (result error "Failed to create document via API.")
     end)
    (fun e =>
       _ ← logError;
       mret (result error (if nonempty e then e else "Document creation failed"))).

Definition updateSiYuanDocument `{RT : Runtime}
    (existingDocId : string) (bookmark : KarakeepBookmark) (notebookId title path : string)
    : M ProcessResult :=
  (* 1. Delete the existing document *)
  deleted ← removeSiYuanDocById existingDocId;
  if negb deleted then
    mret (result error ("Failed to delete old doc " +:+ existingDocId))
  else
    _ ← logInfo;
    (* 2. Recreate the document *)
    createResult ← createNewSiYuanDocument bookmark notebookId title path;
    if bool_decide (status createResult = created)
    then mret {| status := updated; message := None |}
    else _ ← logError; mret createResult.

(** The tag filter of [processBookmark]: some excluded tag, lowercased
    and trimmed, is the lowercased name of a tag of the bookmark. *)
Definition hasExcludedTag `{RT : Runtime} (excludedTags : list string) (bookmark : KarakeepBookmark)
    : bool :=
  let bookmarkTagsLower := (fun tag => toLowerCase (name tag)) <$> tags bookmark in
  let excludedTagsLower :=
    List.filter nonempty ((fun t => trim (toLowerCase t)) <$> excludedTags) in
  existsb (fun excludedTag => bool_decide (excludedTag ∈ bookmarkTagsLower)) excludedTagsLower.

(** [s.replace(/^\/+/, "/")] *)
Definition singleLeadingSlash (s : string) : string :=
  match s with
  | String c _ => if is_char "/" c then "/" +:+ strip_leading (is_char "/") s else s
  | EmptyString => s
  end.

Definition processBookmark `{RT : Runtime} (bookmark : KarakeepBookmark) (notebookId : string)
    : M ProcessResult :=
  settings ← get settings;
  (* 1. Apply Filters *)
  if excludeArchived settings && archived bookmark then
    mret (result skipped_filtered "Archived")
  else if onlyFavorites settings && negb (favourited bookmark) then
    mret (result skipped_filtered "Not favorite")
  else if negb (favourited bookmark)
          && (0 <? length (excludedTags settings))%nat
          && hasExcludedTag (excludedTags settings) bookmark then
    mret (result skipped_filtered "Excluded tag")
  else
    (* 2. Prepare Document Info *)
    title ← lift (getBookmarkTitle bookmark);
    sanitized ← lift (sanitizeSiYuanPath title (createdAt bookmark));
    let safeDocPath := singleLeadingSlash ("/" +:+ sanitized) in
    try_catch
      ((* 3. Check if Document Exists *)
       existingDocId ← findExistingDocIdByKarakeepId notebookId (id bookmark);
       if truthy existingDocId then
         let existingDocId := or_else existingDocId EmptyString in
         (* 4. Document Exists: Decide whether to update *)
         shouldUpdate ← shouldUpdateDocument existingDocId bookmark;
         if (shouldUpdate : bool) then
           _ ← logInfo;
           updateSiYuanDocument existingDocId bookmark notebookId title safeDocPath
         else
           _ ← logInfo;
           mret (result skipped "Exists, no update needed")
       else
         (* 5. Document Does Not Exist: Create new one *)
         _ ← logInfo;
         createNewSiYuanDocument bookmark notebookId title safeDocPath)
      (fun e =>
         _ ← logError;
         mret (result error (if nonempty e then e else "Unknown processing error"))).

(** The five counters of [runSyncCycle]. *)
Record Stats : Type := {
  createdCount : nat;
  updatedCount : nat;
  skippedCount : nat;
  skippedFilteredCount : nat;
  errorCount : nat
}.

Definition noStats : Stats :=
  {| createdCount := 0; updatedCount := 0; skippedCount := 0;
     skippedFilteredCount := 0; errorCount := 0 |}.

(** The [switch] on [result.status]. *)
Definition count (s : Status) (st : Stats) : Stats :=
  match s with
  | created =>
      {| createdCount := S (createdCount st); updatedCount := updatedCount st;
         skippedCount := skippedCount st; skippedFilteredCount := skippedFilteredCount st;
         errorCount := errorCount st |}
  | updated =>
      {| createdCount := createdCount st; updatedCount := S (updatedCount st);
         skippedCount := skippedCount st; skippedFilteredCount := skippedFilteredCount st;
         errorCount := errorCount st |}
  | skipped =>
      {| createdCount := createdCount st; updatedCount := updatedCount st;
         skippedCount := S (skippedCount st); skippedFilteredCount := skippedFilteredCount st;
         errorCount := errorCount st |}
  | skipped_filtered =>
      {| createdCount := createdCount st; updatedCount := updatedCount st;
         skippedCount := skippedCount st; skippedFilteredCount := S (skippedFilteredCount st);
         errorCount := errorCount st |}
  | error =>
      {| createdCount := createdCount st; updatedCount := updatedCount st;
         skippedCount := skippedCount st; skippedFilteredCount := skippedFilteredCount st;
         errorCount := S (errorCount st) |}
  end.

(** The number of outcomes counted. *)
Definition tally (st : Stats) : nat :=
  (createdCount st + updatedCount st + skippedCount st + skippedFilteredCount st
   + errorCount st)%nat.

(** The [for] loop over the bookmarks of a page.  [criticalErrorOccurred]
    is never set inside the loop (the assignment is commented out), so
    its two [break]s are not reached. *)
Fixpoint processPage `{RT : Runtime} (bookmarks : list KarakeepBookmark) (notebookId : string)
    (processedBookmarkIds : gset string) (stats : Stats) : M (gset string * Stats) :=
  match bookmarks with
  | [] => mret (processedBookmarkIds, stats)
  | bookmark :: rest =>
      if bool_decide (id bookmark ∈ processedBookmarkIds) then
        _ ← logWarn;
        processPage rest notebookId processedBookmarkIds stats
      else
        let processedBookmarkIds := {[id bookmark]} ∪ processedBookmarkIds in
        result ← processBookmark bookmark notebookId;
        _ ← (if bool_decide (status result = error) then logError else mret tt);
        processPage rest notebookId processedBookmarkIds (count (status result) stats)
  end.

(** The [do ... while (cursor)] loop; [None] when [fuel] iterations did
    not reach a page without a cursor. *)
Fixpoint syncPages `{RT : Runtime} (fuel : nat) (notebookId : string) (cursor : option string)
    (processedBookmarkIds : gset string) (stats : Stats) : M (option Stats) :=
  match fuel with
  | O => mret None
  | S fuel' =>
      _ ← logInfo;
      response ← fetchKarakeepBookmarks cursor;
      let bookmarks := default [] (bookmarks response) in
      let cursor := nextCursor response in
      _ ← logInfo;
      '(processedBookmarkIds, stats) ← processPage bookmarks notebookId processedBookmarkIds stats;
      _ ← logInfo;
      if truthy cursor then syncPages fuel' notebookId cursor processedBookmarkIds stats
      else mret (Some stats)
  end.

Module Summary.
Record t : Type := {
  success : bool;
  message : string
}.
End Summary.

(** How the [try] block of [runSyncCycle] ends.  The counters reached
    when a critical error is caught are not carried along: the summary
    of a critical failure does not show them. *)
Inductive Outcome : Type :=
| Completed (stats : Stats)
| CriticalError (finalMessage : string)
| Unfinished.

Definition stamp (t : Z) (s : KarakeepSyncSettings) : KarakeepSyncSettings :=
  {| apiKey := apiKey s; apiEndpoint := apiEndpoint s; syncNotebookId := syncNotebookId s;
     syncIntervalMinutes := syncIntervalMinutes s; lastSyncTimestamp := t;
     updateExistingFiles := updateExistingFiles s; excludeArchived := excludeArchived s;
     onlyFavorites := onlyFavorites s; excludedTags := excludedTags s;
     downloadAssets := downloadAssets s |}.

(** [plugin.settings.lastSyncTimestamp = Date.now()] *)
Definition stampLastSync (w : World) : World :=
  set_settings (stamp (now w) (settings w)) w.

(** The tally message of a run without critical error. *)
Definition completeMessage (st : Stats) : M string :=
  syncComplete ← tr "syncComplete" "Sync complete";
  createdWord ← tr "created" "created";
  updatedWord ← tr "updated" "updated";
  skippedWord ← tr "skipped" "skipped";
  filteredWord ← tr "filtered" "filtered";
  errorsWord ← tr "errors" "errors";
  checkLogs ← tr "checkLogs" "check logs";
  let finalMessage :=
    syncComplete +:+ ": " +:+ of_nat (createdCount st) +:+ " " +:+ createdWord +:+ ", "
    +:+ of_nat (updatedCount st) +:+ " " +:+ updatedWord +:+ ", "
    +:+ of_nat (skippedCount st + skippedFilteredCount st) +:+ " " +:+ skippedWord in
  let finalMessage :=
    if (0 <? skippedFilteredCount st)%nat
    then finalMessage +:+ " (" +:+ of_nat (skippedFilteredCount st) +:+ " " +:+ filteredWord +:+ ")"
    else finalMessage in
  let finalMessage :=
    if (0 <? errorCount st)%nat
    then finalMessage +:+ ", " +:+ of_nat (errorCount st) +:+ " " +:+ errorsWord
         +:+ " (" +:+ checkLogs +:+ ")"
    else finalMessage in
  mret finalMessage.

(** The [try] block of [runSyncCycle] with its [catch]. *)
Definition syncAttempt `{RT : Runtime} (fuel : nat) : M Outcome :=
  try_catch
    (_ ← logInfo;
     settings ← get settings;
     (* Config checks *)
     if negb (nonempty (apiKey settings)) then
       m ← tr "apiKeyMissing" "Karakeep API key not configured."; throw m
     else if negb (truthy (syncNotebookId settings)) then
       m ← tr "notebookMissing" "Target SiYuan notebook not configured."; throw m
     else
       let notebookId := or_else (syncNotebookId settings) EmptyString in
       _ ← logInfo;
       (* Sync Loop *)
       stats ← syncPages fuel notebookId None ∅ noStats;
       match stats with
       | None => mret Unfinished
       | Some stats =>
           _ ← logInfo;
           _ ← logInfo;
           _ ← modify stampLastSync;
           _ ← logInfo;
           mret (Completed stats)
       end)
    (fun e =>
       _ ← logError;
       syncFailed ← tr "syncFailed" "Sync failed critically";
       mret (CriticalError
               (syncFailed +:+ ": " +:+ (if nonempty e then e else "Unknown error")))).

(** [runSyncCycle]; [None] when [fuel] is too small for the run. *)
Definition runSyncCycle `{RT : Runtime} (fuel : nat) : M (option Summary.t) :=
  outcome ← syncAttempt fuel;
  match outcome with
  | Unfinished => mret None
  | Completed stats =>
      finalMessage ← completeMessage stats;
      _ ← logInfo;
      mret (Some {| Summary.success := (errorCount stats =? 0)%nat;
                    Summary.message := finalMessage |})
  | CriticalError finalMessage =>
      finalMessage ←
        (if nonempty finalMessage then mret finalMessage
         else tr "syncFailed" "Sync failed critically");
      _ ← logInfo;
      mret (Some {| Summary.success := false; Summary.message := finalMessage |})
  end.

(** ** A reference runtime

    A runtime to evaluate the plugin on concrete inputs.  Each field
    agrees with the JavaScript runtime on the inputs named in its
    comment and refuses the others. *)

Module Reference.

Definition digit (c : ascii) : option Z :=
  let n := code_unit c in
  if ((48 <=? n) && (n <=? 57))%nat then Some (Z.of_nat n - 48) else None.

(** The number written by a string of decimal digits. *)
Fixpoint number_from (acc : Z) (s : string) : option Z :=
  match s with
  | EmptyString => Some acc
  | String c s' =>
      match digit c with
      | Some d => number_from (10 * acc + d) s'
      | None => None
      end
  end.

(** The [n] digits of [s] from position [a]. *)
Definition field (a n : nat) (s : string) : option Z :=
  let f := String.substring a n s in
  if (String.length f =? n)%nat then number_from 0 f else None.

Definition char_at (a : nat) (c : ascii) (s : string) : bool :=
  bool_decide (String.get a s = Some c).

Definition daysInMonth (y m : Z) : Z :=
  days_from_civil (if m =? 12 then y + 1 else y) (if m =? 12 then 1 else m + 1) 1
  - days_from_civil y m 1.

(** [Date.parse] on the UTC date-time forms [YYYY-MM-DDTHH:mm:ssZ] and
    [YYYY-MM-DDTHH:mm:ss.sssZ] of a day of the calendar. *)
Definition parseDate (s : string) : TimeValue :=
  let fraction :=
    if (String.length s =? 20)%nat && char_at 19 "Z" s then Some 0
    else if (String.length s =? 24)%nat && char_at 19 "." s && char_at 23 "Z" s
         then field 20 3 s
         else None in
  match field 0 4 s, field 5 2 s, field 8 2 s, field 11 2 s, field 14 2 s, field 17 2 s,
        fraction with
  | Some y, Some mo, Some d, Some h, Some mi, Some se, Some ms =>
      if char_at 4 "-" s && char_at 7 "-" s && char_at 10 "T" s
         && char_at 13 ":" s && char_at 16 ":" s
         && (1 <=? mo) && (mo <=? 12) && (1 <=? d) && (d <=? daysInMonth y mo)
         && (h <=? 23) && (mi <=? 59) && (se <=? 59)
      then Time (days_from_civil y mo d * msPerDay + h * 3600000 + mi * 60000
                 + se * 1000 + ms)
      else NaN
  | _, _, _, _, _, _, _ => NaN
  end.

Definition host_char (c : ascii) : bool :=
  let n := code_unit c in
  ((97 <=? n) && (n <=? 122) || (48 <=? n) && (n <=? 57) || (n =? 45) || (n =? 46))%nat.

Definition path_char (c : ascii) : bool :=
  let n := code_unit c in
  (host_char c || (65 <=? n) && (n <=? 90) || (n =? 95) || (n =? 126) || (n =? 47))%nat.

(** The part of [s] from its first slash on. *)
Fixpoint from_slash (s : string) : string :=
  match s with
  | EmptyString => EmptyString
  | String c s' => if is_char "/" c then s else from_slash s'
  end.

Definition dot_segment (s : string) : bool := String.eqb s "." || String.eqb s "..".

(** [new URL(s)] on [http://host/path] and [https://host/path] where the
    host is made of lowercase letters, digits, hyphens and dots and
    starts with a letter or a digit, and the path of letters, digits,
    [-], [.], [_], [~] and slashes without [.] or [..] segments. *)
Definition parseURL (s : string) : option URL :=
  let parse (scheme rest : string) :=
    let host := before "/" rest in
    let path := from_slash rest in
    match host with
    | String c _ =>
        if all_chars host_char host && negb (is_char "-" c) && negb (is_char "." c)
           && all_chars path_char path && negb (existsb dot_segment (split "/" path))
        then Some {| origin := scheme +:+ host;
                     pathname := if nonempty path then path else "/";
                     hostname := host |}
        else None
    | EmptyString => None
    end in
  if startsWith "https://" s then parse "https://" (String.substring 8 (String.length s - 8) s)
  else if startsWith "http://" s then parse "http://" (String.substring 7 (String.length s - 7) s)
  else None.

(** [decodeURIComponent] on strings without a percent sign. *)
Definition decode (s : string) : Res string :=
  if includes "%" s then Throw "URI malformed" else Ok s.

(** [toLowerCase] on the code units below 256. *)
Definition lowerChar (c : ascii) : ascii :=
  let n := code_unit c in
  if ((65 <=? n) && (n <=? 90) || (192 <=? n) && (n <=? 222) && negb (n =? 215))%nat
  then ascii_of_nat (n + 32) else c.

Fixpoint lower (s : string) : string :=
  match s with
  | EmptyString => EmptyString
  | String c s' => String (lowerChar c) (lower s')
  end.

(** No HTML converter: the call fails, which the formatter tolerates. *)
Definition noTurndown (html : string) : Res string := Throw "turndown is not available".

(** The text of a built-in function. *)
Definition nativeCode (name : string) : string :=
  "function " +:+ name +:+ "() { [native code] }".

(** An engine that takes no statement but the lookup. *)
Definition noEngine (stmt : string) (l : list Doc) : Resp (list string) :=
  {| code := -1; msg := "sql: statement not supported"; data := None |}.

Definition runtime : Runtime :=
  {| Date_parse := parseDate;
     URL_parse := parseURL;
     decodeURIComponent := decode;
     toLowerCase := lower;
     turndown := noTurndown;
     Function_toString := nativeCode;
     SQL_exec := noEngine |}.

End Reference.

(** ** Vocabulary of the statements *)

(** The calendar day of a time value, as [toISOString().split("T")[0]]
    prints it. *)
Definition isoDay (t : Z) : string := before "T" (iso_of_time t).

(** A character that is neither in the unsafe class nor white space. *)
Definition clean_char (c : ascii) : bool := negb (unsafe_char c) && negb (is_space c).

(** A computation that returns: it does not throw, whatever the world. *)
Definition Returns {A} (m : M A) : Prop :=
  ∀ w, ∃ a w', m w = (Ok a, w').

(** *** Specifications of computations *)

(** [wp m w Q]: running [m] in the world [w] ends, with a value or an
    exception, in a world that satisfy [Q]. *)
Definition wp {A} (m : M A) (w : World) (Q : Res A -> World -> Prop) : Prop :=
  Q (m w).1 (m w).2.

(** [m] takes every world to a world related to it by [R]. *)
Definition Keeps (R : relation World) {A} (m : M A) : Prop := ∀ w, R w (m w).2.

(** The state changes a relation may be closed under. *)
Class KeepsCalls (R : relation World) : Prop := keeps_calls : ∀ c w, R w (record_call c w).
Class KeepsLines (R : relation World) : Prop := keeps_lines : ∀ l w, R w (record_line l w).
Class KeepsFaults (R : relation World) : Prop := keeps_faults : ∀ fs w, R w (set_faults fs w).
Class KeepsWeb (R : relation World) : Prop := keeps_web : ∀ l w, R w (set_web l w).
Class KeepsUploads (R : relation World) : Prop := keeps_uploads : ∀ l w, R w (set_uploads l w).
Class KeepsDocs (R : relation World) : Prop := keeps_docs : ∀ d n w, R w (set_docs d n w).

(** *** Changing the excluded tags *)

Definition retag (excluded : list string) (s : KarakeepSyncSettings) : KarakeepSyncSettings :=
  {| apiKey := apiKey s; apiEndpoint := apiEndpoint s; syncNotebookId := syncNotebookId s;
     syncIntervalMinutes := syncIntervalMinutes s; lastSyncTimestamp := lastSyncTimestamp s;
     updateExistingFiles := updateExistingFiles s; excludeArchived := excludeArchived s;
     onlyFavorites := onlyFavorites s; excludedTags := excluded;
     downloadAssets := downloadAssets s |}.

(** The world [w] with other excluded tags configured. *)
Definition withExcludedTags (excluded : list string) (w : World) : World :=
  set_settings (retag excluded (settings w)) w.

(** [m] does not look at the excluded tags: with other excluded tags it
    gives the same result and leaves the same world. *)
Definition IgnoresTags (excluded : list string) {A} (m : M A) : Prop :=
  ∀ w, m (withExcludedTags excluded w)
       = ((m w).1, withExcludedTags excluded (m w).2).

(** *** The update decision, in the words of the specification *)

(** The stored modified-time [T]: the time the modified attribute
    denotes, [None] when the document has no such attribute. *)
Definition storedTime `{RT : Runtime} (attrs : gmap string string) : option TimeValue :=
  getTime <$> attrs !! ATTR_MODIFIED.

(** The record's effective modified time [T']. *)
Definition recordTime `{RT : Runtime} (bookmark : KarakeepBookmark) : TimeValue :=
  getTime (effectiveModified bookmark).

(** What the retrieval of the attributes of [docId] gives in [w]. *)
Definition retrievedAttrs (docId : string) (w : World) : option (gmap string string) :=
  match (getSiYuanBlockAttrs docId w).1 with
  | Ok o => o
  | Throw _ => None
  end.

(** The decision as the specification words it: updating is enabled and
    the retrieval failed, or [T] is absent, or [T' > T]. *)
Definition claimedUpdate `{RT : Runtime}
    (enabled : bool) (retrieved : option (gmap string string)) (bookmark : KarakeepBookmark)
    : bool :=
  enabled
  && match retrieved with
     | None => true
     | Some attrs =>
         match storedTime attrs with
         | None => true
         | Some T => gt_num (recordTime bookmark) T
         end
     end.

(** *** Sample data *)

Definition noContent (t : ContentType) : Content.t :=
  {| Content.type := t; Content.url := None; Content.title := None;
     Content.description := None; Content.imageUrl := None; Content.imageAssetId := None;
     Content.screenshotAssetId := None; Content.htmlContent := None; Content.text := None;
     Content.sourceUrl := None; Content.assetType := None; Content.assetId := None;
     Content.fileName := None |}.

(** A link bookmark with the given URL and nothing else. *)
Definition linkTo (u : option string) : Content.t :=
  {| Content.type := link; Content.url := u; Content.title := None;
     Content.description := None; Content.imageUrl := None; Content.imageAssetId := None;
     Content.screenshotAssetId := None; Content.htmlContent := None; Content.text := None;
     Content.sourceUrl := None; Content.assetType := None; Content.assetId := None;
     Content.fileName := None |}.

Definition bookmarkOf (i created : string) (t : option string) (c : Content.t)
    : KarakeepBookmark :=
  {| id := i; createdAt := created; modifiedAt := None; title := t;
     archived := false; favourited := false; note := None; summary := None;
     tags := []; content := c |}.

Definition flagged (isArchived isFavourite : bool) (ts : list string) (b : KarakeepBookmark)
    : KarakeepBookmark :=
  {| id := id b; createdAt := createdAt b; modifiedAt := modifiedAt b; title := title b;
     archived := isArchived; favourited := isFavourite; note := note b; summary := summary b;
     tags := (fun n => {| tag_id := n; name := n; attachedBy := human |}) <$> ts;
     content := content b |}.

(** The default settings of the plugin with a key and a notebook. *)
Definition sampleSettings (update : bool) (excluded : list string) : KarakeepSyncSettings :=
  {| apiKey := "secret"; apiEndpoint := "https://karakeep.example.org/api/v1";
     syncNotebookId := Some "notebook-1"; syncIntervalMinutes := 60; lastSyncTimestamp := 0;
     updateExistingFiles := update; excludeArchived := true; onlyFavorites := false;
     excludedTags := excluded; downloadAssets := true |}.

(** A world with the given settings, documents and pages to come, a
    healthy kernel and nothing on the web. *)
Definition worldOf (s : KarakeepSyncSettings) (d : list Doc) (pages : list (Res PageResponse))
    : World :=
  {| settings := s; i18n := ∅; docs := d; next_id := 0; faults := [];
     web := []; uploads := []; source := pages; now := 1709300000000;
     calls := []; console := [] |}.

(** A document synchronised from the bookmark [i], last modified at [m]. *)
Definition syncedDoc (d i m : string) : Doc :=
  {| doc_id := d; box := "notebook-1"; hpath := "/" +:+ d; markdown := "";
     attrs := {[ ATTR_KARAKEEP_ID := i; ATTR_MODIFIED := m ]} |}.

Definition epoch : string := "1970-01-01T00:00:00.000Z".

(** A bookmark created at the epoch, and the world after its first
    synchronisation, updates enabled. *)
Definition epochBookmark : KarakeepBookmark := bookmarkOf "bk-epoch" epoch None (linkTo None).

Definition epochWorld : World :=
  worldOf (sampleSettings true []) [syncedDoc "20240301-doc" "bk-epoch" epoch] [].

(** A bookmark modified on the second of March 2024, and a world that
    holds the document made of it the day before. *)
Definition marchBookmark : KarakeepBookmark :=
  {| id := "bk-march"; createdAt := "2024-03-01T00:00:00Z";
     modifiedAt := Some "2024-03-02T08:30:00Z"; title := Some "March";
     archived := false; favourited := false; note := None; summary := None;
     tags := []; content := linkTo (Some "https://example.com/") |}.

Definition marchWorld : World :=
  worldOf (sampleSettings true [])
    [syncedDoc "20240301-doc" "bk-march" "2024-03-01T00:00:00.000Z"] [].

(** A world that holds the document of March with a modified attribute
    that is not a date. *)
Definition undatedDocWorld : World :=
  worldOf (sampleSettings true []) [syncedDoc "20240301-doc" "bk-march" "n/a"] [].

(** A favourited record tagged [temp] and [Reading], an archived and
    favourited one, and a world that excludes the tags [Temp] (with a
    trailing blank) and [reading] and holds no document yet. *)
Definition favouriteBookmark : KarakeepBookmark :=
  flagged false true ["temp"; "Reading"] marchBookmark.

Definition archivedBookmark : KarakeepBookmark :=
  flagged true true ["temp"] marchBookmark.

Definition taggedWorld : World :=
  worldOf (sampleSettings false ["Temp "; "reading"]) [] [].

(** The documents of a notebook that carry a Karakeep id. *)
Definition carrying (notebookId karakeepId : string) (w : World) : list Doc :=
  filter (fun d => Kernel.carries notebookId karakeepId d = true) (docs w).

(** The last line of the console is an error. *)
Definition errorLogged (w : World) : Prop := last (console w) = Some Error.

(** A world in which the kernel cannot be reached. *)
Definition offlineWorld : World :=
  set_faults [Disconnect "Failed to fetch"] marchWorld.

(** Settings whose endpoint lacks its scheme, which [new URL] refuses. *)
Definition brokenSettings : KarakeepSyncSettings :=
  {| apiKey := "secret"; apiEndpoint := "karakeep.example.org/api/v1";
     syncNotebookId := Some "notebook-1"; syncIntervalMinutes := 60; lastSyncTimestamp := 0;
     updateExistingFiles := false; excludeArchived := true; onlyFavorites := false;
     excludedTags := []; downloadAssets := true |}.

(** A world in which the next download is answered by the given status,
    with a PNG image as body. *)
Definition downloadWorld (s : KarakeepSyncSettings) (statusCode : nat) : World :=
  set_web [Ok {| http_status := statusCode; content_type := Some "image/png";
                 body := Ok "PNG" |}]
    (worldOf s [] []).

(** *** Identifiers in a statement *)

(** An identifier that is interpolated into the lookup as the literal
    that denotes it: it holds no quote (and no NUL). *)
Definition plain (s : string) : Prop := all_chars Kernel.plain_char s = true.

(** *** The path derivation, in the words of the specification *)






(** *** The title fallback, in the words of the specification *)




(** *** Observations of the world *)

(** What identifies and places a document: its id, notebook and path. *)
Definition shape (d : Doc) : string * string * string := (doc_id d, box d, hpath d).

Definition shapes (w : World) : list (string * string * string) := shape <$> docs w.

(** The ids the kernel hands out from now on are not in use. *)
Definition ids_fresh (w : World) : Prop :=
  ∀ d n, d ∈ docs w -> (next_id w <= n)%nat -> doc_id d ≠ Kernel.fresh_id n.

(** [sameDocs w w']: from [w] to [w'] the documents are the same up to
    their body and attributes, the next id is the same, and requests
    were only added to the trace. *)
Definition sameDocs : relation World := fun w w' =>
  shapes w' = shapes w ∧ next_id w' = next_id w ∧ calls w `prefix_of` calls w'.

(** [sameEnv w w']: the settings, the translations, the clock and the
    pages still to come are the same. *)
Definition sameEnv : relation World := fun w w' =>
  settings w' = settings w ∧ i18n w' = i18n w ∧ now w' = now w ∧ source w' = source w.

(** A world in which the kernel serves the deletion of the document of
    March and refuses the creation that follows. *)
Definition refusingWorld : World :=
  set_faults [Healthy; Refuse (-1) "failed to create"] marchWorld.

(** *** Pages *)

(** The ids of the records of a page the Karakeep API delivers. *)
Definition pageIds (r : Res PageResponse) : gset string :=
  match r with
  | Ok p =>
      match page_json p with
      | Ok response => list_to_set (id <$> default [] (bookmarks response))
      | Throw _ => ∅
      end
  | Throw _ => ∅
  end.

(** The ids of the records of a list of pages: each id once. *)
Definition idsOf (pages : list (Res PageResponse)) : gset string :=
  ⋃ (pageIds <$> pages).

(** A page of the API with the given records and cursor. *)
Definition pageOf (bs : list KarakeepBookmark) (cursor : option string) : Res PageResponse :=
  Ok {| page_status := 200; page_text := Ok "";
        page_json := Ok {| bookmarks := Some bs; total := length bs; nextCursor := cursor |} |}.

(** The source delivers two pages of one record each, and the record of
    the second page has the id of the first. *)
Definition twoPagesWorld : World :=
  worldOf (sampleSettings false [])
    [] [pageOf [marchBookmark] (Some "cursor-1"); pageOf [favouriteBookmark] None].

(** The source delivers one page of two records, and the kernel refuses
    the creation of the first document. *)
Definition oneFailureWorld : World :=
  set_faults [Healthy; Refuse (-1) "failed to create"]
    (worldOf (sampleSettings false [])
       [] [pageOf [marchBookmark; epochBookmark] None]).

(** *** The records a run processes *)

(** The world after the [switch] on the result of a record: an error is
    logged. *)
Definition afterRecord (r : ProcessResult) (w : World) : World :=
  if bool_decide (status r = error) then record_line Error w else w.

Section Yields.

Context `{RT : Runtime}.

(** [PageYields notebookId bookmarks processed w b r]: the loop over
    [bookmarks], started in the world [w] with the ids [processed],
    processes the record [b], with the result [r]. *)
Inductive PageYields (notebookId : string)
    : list KarakeepBookmark -> gset string -> World -> KarakeepBookmark -> ProcessResult -> Prop :=
| yields_after_duplicate bookmark rest processed w b r :
    id bookmark ∈ processed ->
    PageYields notebookId rest processed (record_line Warn w) b r ->
    PageYields notebookId (bookmark :: rest) processed w b r
| yields_here bookmark rest processed w r w1 :
    id bookmark ∉ processed ->
    processBookmark bookmark notebookId w = (Ok r, w1) ->
    PageYields notebookId (bookmark :: rest) processed w bookmark r
| yields_later bookmark rest processed w r0 w1 b r :
    id bookmark ∉ processed ->
    processBookmark bookmark notebookId w = (Ok r0, w1) ->
    PageYields notebookId rest ({[id bookmark]} ∪ processed) (afterRecord r0 w1) b r ->
    PageYields notebookId (bookmark :: rest) processed w b r.

(** [RunYields notebookId fuel cursor processed stats w b r]: the loop
    over the pages processes the record [b], with the result [r], on
    the page it fetches first or on a later one. *)
Inductive RunYields (notebookId : string)
    : nat -> option string -> gset string -> Stats -> World
      -> KarakeepBookmark -> ProcessResult -> Prop :=
| yields_on_page fuel cursor processed stats w response w1 b r :
    fetchKarakeepBookmarks cursor (record_line Info w) = (Ok response, w1) ->
    PageYields notebookId (default [] (bookmarks response)) processed (record_line Info w1) b r ->
    RunYields notebookId (S fuel) cursor processed stats w b r
| yields_on_later_page fuel cursor processed stats w response w1 processed' stats' w2 b r :
    fetchKarakeepBookmarks cursor (record_line Info w) = (Ok response, w1) ->
    processPage (default [] (bookmarks response)) notebookId processed stats (record_line Info w1)
    = (Ok (processed', stats'), w2) ->
    truthy (nextCursor response) = true ->
    RunYields notebookId fuel (nextCursor response) processed' stats' (record_line Info w2) b r ->
    RunYields notebookId (S fuel) cursor processed stats w b r.

(** The cycle started in [w] processes the record [b], with the result
    [r]. *)
Definition CycleYields (fuel : nat) (w : World) (b : KarakeepBookmark) (r : ProcessResult)
    : Prop :=
  RunYields (or_else (syncNotebookId (settings w)) "") fuel None ∅ noStats
    (record_line Info (record_line Info w)) b r.

End Yields.

(** *** The filters of a record *)

(** None of the three filters of [processBookmark] drops the record. *)
Definition passesFilters `{RT : Runtime} (s : KarakeepSyncSettings) (b : KarakeepBookmark) : bool :=
  negb (excludeArchived s && archived b)
  && negb (onlyFavorites s && negb (favourited b))
  && negb (negb (favourited b) && (0 <? length (excludedTags s))%nat
           && hasExcludedTag (excludedTags s) b).

(** *** The documents of the kernel *)

(** [sameStore w w']: the kernel holds the same documents, bodies and
    attributes included, and hands out the same id next. *)
Definition sameStore : relation World := fun w w' =>
  docs w' = docs w ∧ next_id w' = next_id w.

(** [sameKernel w w']: the same documents, and the same answers to the
    requests to come. *)
Definition sameKernel : relation World := fun w w' =>
  docs w' = docs w ∧ next_id w' = next_id w ∧ faults w' = faults w.

(** A record whose creation date does not parse. *)
Definition undatedBookmark : KarakeepBookmark :=
  bookmarkOf "bk-undated" "yesterday" (Some "Undated") (linkTo None).

(** The source delivers one page that starts with the undated record. *)
Definition undatedWorld : World :=
  worldOf (sampleSettings false []) [] [pageOf [undatedBookmark; marchBookmark] None].

(** *** settings.ts: the defaults *)

Definition DEFAULT_KARAKEEP_API_ENDPOINT : string := "https://api.Karakeep.app/api/v1".

Definition DEFAULT_SETTINGS : KarakeepSyncSettings :=
  {| apiKey := ""; apiEndpoint := DEFAULT_KARAKEEP_API_ENDPOINT; syncNotebookId := None;
     syncIntervalMinutes := 60; lastSyncTimestamp := 0; updateExistingFiles := false;
     excludeArchived := true; onlyFavorites := false; excludedTags := [];
     downloadAssets := true |}.

(** *** Documents the plugin creates *)

(** The document the kernel makes of a creation request, with the
    attributes [a]. *)
Definition createdDoc (w : World) (notebookId path md : string) (a : gmap string string) : Doc :=
  {| doc_id := Kernel.fresh_id (next_id w); box := notebookId; hpath := path;
     markdown := md; attrs := a |}.

(** The kernel serves the next [n] requests. *)
Definition serves (n : nat) (w : World) : Prop :=
  Forall (fun f => f = Healthy) (take n (faults w)).

(** A world that holds no document yet, with a kernel that serves every
    request. *)
Definition freshWorld : World := worldOf (sampleSettings false []) [] [].

(** The same, with a kernel that serves one request and refuses the
    next. *)
Definition halfServingWorld : World :=
  set_faults [Healthy; Refuse (-1) "attributes are read-only"] freshWorld.

(** The record of March with a modified date that is not a date. *)
Definition misdatedBookmark : KarakeepBookmark :=
  {| id := "bk-march"; createdAt := "2024-03-01T00:00:00Z"; modifiedAt := Some "soon";
     title := Some "March"; archived := false; favourited := false; note := None;
     summary := None; tags := []; content := linkTo (Some "https://example.com/") |}.

(** [grows w w']: when updating is disabled in [w] and the ids to come
    are not in use, the same holds in [w'] and the documents of [w] are
    all there, unchanged and in the same order, followed by those added
    since. *)
Definition grows : relation World := fun w w' =>
  updateExistingFiles (settings w) = false -> ids_fresh w ->
  updateExistingFiles (settings w') = false ∧ ids_fresh w'
  ∧ (next_id w <= next_id w')%nat ∧ docs w `prefix_of` docs w'.

(** A world that holds the document of March, with updating disabled,
    and whose source delivers a page of two records. *)
Definition quietWorld : World :=
  worldOf (sampleSettings false [])
    [syncedDoc "20240301-doc" "bk-march" "2024-03-01T00:00:00.000Z"]
    [pageOf [marchBookmark; epochBookmark] None].

(** A world whose source answers the next request with the status 401. *)
Definition unauthorizedWorld : World :=
  worldOf (sampleSettings false []) []
    [Ok {| page_status := 401; page_text := Ok "Unauthorized";
           page_json := Throw "Unexpected token" |}].

(** *** The requests of the asset pipeline *)

(** [needsAuth] of [downloadAndUploadAsset]: the download carries the
    API key. *)
Definition needsAuth `{RT : Runtime} (settings : KarakeepSyncSettings) (assetUrl : string) : bool :=
  match URL_parse (apiEndpoint settings) with
  | Some u => startsWith (origin u) assetUrl
  | None => false
  end.

(** The uploads the pipeline sends after the download of [assetUrl] was
    answered by [answer]. *)
Definition uploadsAfter `{RT : Runtime} (settings : KarakeepSyncSettings)
    (assetUrl assetIdHint titleHint : string) (answer : Res (HttpResponse string)) : list Call :=
  match answer with
  | Ok response =>
      match http_ok response, body response with
      | true, Ok _ =>
          [UploadAsset (if truthy (syncNotebookId settings) then syncNotebookId settings else None)
             (assetFileName assetUrl assetIdHint titleHint
                (or_else (content_type response) "application/octet-stream"))]
      | _, _ => []
      end
  | Throw _ => []
  end.

(** A character a file name may hold after the last two replacements of
    [downloadAndUploadAsset]. *)
Definition file_char (c : ascii) : bool := negb (unsafe_file_char c) && negb (is_space c).

(** Settings whose endpoint is on the host [karakeep.example.org], and an
    asset on a host whose name starts with these characters. *)
Definition lookalikeUrl : string := "https://karakeep.example.org.evil.example/a.png".

(** A text record whose text starts with an empty line. *)
Definition blankLineBookmark : KarakeepBookmark :=
  bookmarkOf "bk-text" "2024-03-01T00:00:00Z" None
    {| Content.type := text; Content.url := None; Content.title := None;
       Content.description := None; Content.imageUrl := None; Content.imageAssetId := None;
       Content.screenshotAssetId := None; Content.htmlContent := None;
       Content.text := Some (nl +:+ "Shopping list"); Content.sourceUrl := None;
       Content.assetType := None; Content.assetId := None; Content.fileName := None |}.

(** A record that is not favourited, tagged [Reading]. *)
Definition readingBookmark : KarakeepBookmark :=
  flagged false false ["Reading"] marchBookmark.

(** *** Characters of a path *)

(** A character of a calendar day as [toISOString] prints it: a digit,
    a hyphen, or the sign of a year outside 0..9999. *)
Definition day_char (c : ascii) : bool :=
  let n := code_unit c in
  ((48 <=? n) && (n <=? 57) || (n =? 45) || (n =? 43))%nat.

(** Any character but the slash. *)
Definition not_slash (c : ascii) : bool := negb (is_char "/" c).

(** *** The document made of a record *)

(** [extends h s]: the string [s] starts with [h]. *)
Definition extends (h s : string) : Prop := ∃ r, s = h +:+ r.

(** The last line of the document: the link back to Karakeep, or the id
    of the record when the endpoint is not a URL. *)
Definition linkBack `{RT : Runtime} (w : World) (bookmark : KarakeepBookmark) : string :=
  match URL_parse (apiEndpoint (settings w)) with
  | Some u =>
      "[" +:+ or_else (i18n w !! "viewOnKarakeep") "View in Karakeep" +:+ "](" +:+ origin u
      +:+ "/dashboard/preview/" +:+ id bookmark +:+ ")"
  | None => "Karakeep ID: " +:+ id bookmark
  end.

(** [quiet w w']: nothing but the console differs between [w] and [w']:
    no request was sent. *)
Definition quiet : relation World := fun w w' =>
  settings w' = settings w ∧ i18n w' = i18n w ∧ docs w' = docs w ∧ next_id w' = next_id w
  ∧ faults w' = faults w ∧ web w' = web w ∧ uploads w' = uploads w ∧ source w' = source w
  ∧ now w' = now w ∧ calls w' = calls w.

(** [aside w w']: the settings and the translations are the same, and so
    is the kernel. *)
Definition aside : relation World := fun w w' =>
  settings w' = settings w ∧ i18n w' = i18n w ∧ docs w' = docs w ∧ next_id w' = next_id w
  ∧ faults w' = faults w.

(** The record of March with a picture, and settings that link assets
    instead of downloading them. *)
Definition pictureBookmark : KarakeepBookmark :=
  {| id := "bk-march"; createdAt := "2024-03-01T00:00:00Z";
     modifiedAt := None; title := Some "March"; archived := false; favourited := false;
     note := None; summary := None; tags := [];
     content :=
       {| Content.type := link; Content.url := Some "https://example.com/";
          Content.title := None; Content.description := None; Content.imageUrl := None;
          Content.imageAssetId := Some "asset-1"; Content.screenshotAssetId := None;
          Content.htmlContent := None; Content.text := None; Content.sourceUrl := None;
          Content.assetType := None; Content.assetId := None; Content.fileName := None |} |}.

Definition linkingSettings : KarakeepSyncSettings :=
  {| apiKey := "secret"; apiEndpoint := "https://karakeep.example.org/api/v1";
     syncNotebookId := Some "notebook-1"; syncIntervalMinutes := 60; lastSyncTimestamp := 0;
     updateExistingFiles := false; excludeArchived := true; onlyFavorites := false;
     excludedTags := []; downloadAssets := false |}.

(** *** settings.ts: loading and saving *)

(** A JSON value, as [loadData] delivers it and [saveData] stores it:
    null, a boolean, a number (an integer, as the numbers of the
    settings are), a string, an array of strings, or any other value,
    given by its JSON text. *)
Inductive Json : Type :=
| JNull
| JBool (b : bool)
| JNum (n : Z)
| JStr (s : string)
| JArr (items : list string)
| JOther (text : string).

(** The settings as the object they are at run time: its own properties
    and their values. *)
Definition settingFields (s : KarakeepSyncSettings) : list (string * Json) :=
  [("apiKey", JStr (apiKey s));
   ("apiEndpoint", JStr (apiEndpoint s));
   ("syncNotebookId", match syncNotebookId s with Some n => JStr n | None => JNull end);
   ("syncIntervalMinutes", JNum (syncIntervalMinutes s));
   ("lastSyncTimestamp", JNum (lastSyncTimestamp s));
   ("updateExistingFiles", JBool (updateExistingFiles s));
   ("excludeArchived", JBool (excludeArchived s));
   ("onlyFavorites", JBool (onlyFavorites s));
   ("excludedTags", JArr (excludedTags s));
   ("downloadAssets", JBool (downloadAssets s))].

Definition toObject (s : KarakeepSyncSettings) : gmap string Json :=
  list_to_map (settingFields s).

(** The keys [for (const key in DEFAULT_SETTINGS)] goes through. *)
Definition settingKeys : list string := (settingFields DEFAULT_SETTINGS).*1.

(** [object.hasOwnProperty(key)], [object] being written [expr] in the
    source.  The method is the one of [Object.prototype] unless the
    object has a property of this name of its own: a JSON value is not
    a function, and calling it throws a TypeError. *)
Definition hasOwnProperty (expr : string) (object : gmap string Json) (key : string) : Res bool :=
  match object !! "hasOwnProperty" with
  | Some _ => Throw (expr +:+ ".hasOwnProperty is not a function")
  | None => Ok (bool_decide (is_Some (object !! key)))
  end.

(** The loop of [loadSettings] and of [saveSettings] over [keys]: the
    properties of [source] are copied to [target] one by one. *)
Fixpoint copyKnown (expr : string) (source : gmap string Json) (keys : list string)
    (target : gmap string Json) : Res (gmap string Json) :=
  match keys with
  | [] => Ok target
  | key :: keys =>
      match hasOwnProperty expr source key with
      | Throw e => Throw e
      | Ok false => copyKnown expr source keys target
      | Ok true =>
          copyKnown expr source keys
            match source !! key with
            | Some v => <[key := v]> target
            | None => target
            end
      end
  end.

(** [loadSettings]: the settings made of the stored data, given by its
    own properties; [None] when [loadData] delivers a falsy value.  When
    the loop throws, the settings of the plugin stay unset. *)
Definition loadSettings (loadedData : option (gmap string Json)) : Res (gmap string Json) :=
  match
    match loadedData with
    | Some data => copyKnown "loadedData" data settingKeys ∅
    | None => Ok ∅
    end
  with
  | Throw e => Throw e
  | Ok validSettings => Ok (validSettings ∪ toObject DEFAULT_SETTINGS)
  end.

(** [settingsToSave] of [saveSettings]: the data handed to [saveData]. *)
Definition settingsToSave (settings : gmap string Json) : Res (gmap string Json) :=
  copyKnown "plugin.settings" settings settingKeys ∅.

(** The object has a property [hasOwnProperty] of its own. *)
Definition shadowed (object : gmap string Json) : Prop :=
  is_Some (object !! "hasOwnProperty").

(** *** settings.ts: the excluded tags in the dialog *)

(** What the text area of the excluded tags shows: [tags.join(", ")]. *)
Definition showTags (tags : list string) : string := String.concat ", " tags.

(** What the text area makes of its value on input: the pieces between
    commas, trimmed, the empty ones left out. *)
Definition parseTags (value : string) : list string :=
  List.filter nonempty (trim <$> split "," value).

(** A tag as [parseTags] delivers it: not empty, trimmed, without a
    comma. *)
Definition plainTag (t : string) : Prop :=
  t ≠ "" ∧ trim t = t ∧ includes "," t = false.

(** [s] does not start with a character of the class [p]. *)
Definition headless (p : ascii -> bool) (s : string) : Prop :=
  match s with
  | String c _ => p c = false
  | EmptyString => True
  end.

(** ** Properties of the string primitives *)

Section Strings.

Implicit Types (p q : ascii -> bool) (s u : string) (a r c : ascii).

Lemma string_app_cons c s u : String c s +:+ u = String c (s +:+ u).
Proof. reflexivity. Qed.

Lemma string_app_nil_l u : "" +:+ u = u.
Proof. reflexivity. Qed.

Lemma string_app_nil_r s : s +:+ "" = s.
Proof. induction s as [|c s IH]; [done | by rewrite string_app_cons, IH]. Qed.

Lemma string_app_assoc s u v : (s +:+ u) +:+ v = s +:+ (u +:+ v).
Proof. induction s as [|c s IH]; [done |]. by rewrite !string_app_cons, IH. Qed.

Lemma all_chars_app q s u :
  all_chars q (s +:+ u) = all_chars q s && all_chars q u.
Proof.
  induction s as [|c s IH]; [done |].
  rewrite string_app_cons. simpl. by rewrite IH, andb_assoc.
Qed.



(** [strip_leading] keeps a suffix, [strip_trailing] and [prefix] keep a
    prefix. *)
Lemma strip_leading_suffix p s : ∃ u, s = u +:+ strip_leading p s.
Proof.
  induction s as [|c s [u IH]]; simpl.
  - by exists "".
  - destruct (p c).
    + exists (String c u). by rewrite string_app_cons, <- IH.
    + by exists "".
Qed.

Lemma strip_trailing_prefix p s : ∃ u, s = strip_trailing p s +:+ u.
Proof.
  induction s as [|c s [u IH]]; simpl.
  - by exists "".
  - destruct (strip_trailing p s) as [|d t] eqn:E.
    + destruct (p c).
      * by exists (String c s).
      * exists s. done.
    + exists u. by rewrite string_app_cons, <- IH.
Qed.

Lemma prefix_prefix n s : ∃ u, s = prefix n s +:+ u.
Proof.
  revert s. induction n as [|n IH]; intros s.
  - by exists s.
  - destruct s as [|c s]; simpl.
    + by exists "".
    + destruct (IH s) as [u Hu]. exists u. by rewrite string_app_cons, <- Hu.
Qed.

Lemma string_length_app s u : String.length (s +:+ u) = (String.length s + String.length u)%nat.
Proof. induction s as [|c s IH]; [done |]. rewrite string_app_cons. simpl. by rewrite IH. Qed.

Lemma prefix_length n s : (String.length (prefix n s) <= n)%nat.
Proof.
  revert s. induction n as [|n IH]; intros [|c s]; simpl; try lia.
  specialize (IH s). lia.
Qed.


Lemma all_chars_strip_leading q p s :
  all_chars q s = true -> all_chars q (strip_leading p s) = true.
Proof.
  destruct (strip_leading_suffix p s) as [u Hu]. rewrite Hu at 1.
  rewrite all_chars_app. by intros [_ ?]%andb_prop.
Qed.

Lemma all_chars_strip_trailing q p s :
  all_chars q s = true -> all_chars q (strip_trailing p s) = true.
Proof.
  destruct (strip_trailing_prefix p s) as [u Hu]. rewrite Hu at 1.
  rewrite all_chars_app. by intros [? _]%andb_prop.
Qed.

Lemma all_chars_prefix q n s :
  all_chars q s = true -> all_chars q (prefix n s) = true.
Proof.
  destruct (prefix_prefix n s) as [u Hu]. rewrite Hu at 1.
  rewrite all_chars_app. by intros [? _]%andb_prop.
Qed.




(** After [replace(/[class]/g, r)] every character is [r] or was outside
    the class. *)
Lemma all_chars_replace_class q p r s :
  q r = true -> (∀ c, p c = false -> q c = true) ->
  all_chars q (replace_class p r s) = true.
Proof.
  intros Hr Hq. induction s as [|c s IH]; simpl; [done |].
  rewrite IH, andb_true_r. destruct (p c) eqn:E; auto.
Qed.

(** After [replace(/[class]+/g, r)] the characters outside the class are
    kept and the others became [r]. *)
Lemma all_chars_replace_runs q0 q p r inside s :
  q r = true -> (∀ c, q0 c = true -> p c = false -> q c = true) ->
  all_chars q0 s = true ->
  all_chars q (replace_runs_from p r inside s) = true.
Proof.
  intros Hr Hq. revert inside.
  induction s as [|c s IH]; intros inside; simpl; [done |].
  intros [Hc Hs]%andb_prop.
  destruct (p c) eqn:E.
  - destruct inside; simpl; rewrite ?Hr; simpl; auto.
  - simpl. rewrite (Hq c Hc E). simpl. auto.
Qed.


Lemma strip_trailing_idem p s : strip_trailing p (strip_trailing p s) = strip_trailing p s.
Proof.
  induction s as [|c s IH]; [done |].
  cbn [strip_trailing]. destruct (strip_trailing p s) as [|d t] eqn:E.
  - destruct (p c) eqn:Ec; [done |]. cbn [strip_trailing]. by rewrite Ec.
  - cbn [strip_trailing] in *. by rewrite IH.
Qed.





Lemma all_chars_impl (q q' : ascii -> bool) s :
  (∀ c, q c = true -> q' c = true) -> all_chars q s = true -> all_chars q' s = true.
Proof.
  intros H. induction s as [|c s IH]; simpl; [done |].
  intros [Hc Hs]%andb_prop. by rewrite (H c Hc), (IH Hs).
Qed.







End Strings.

(** ** Path derivation *)

Section PathDerivation.

Context `{RT : Runtime}.

Lemma sanitizeTitle_clean title : all_chars clean_char (sanitizeTitle title) = true.
Proof.
  unfold sanitizeTitle, strip_both, replace_runs.
  do 2 (apply all_chars_strip_trailing, all_chars_strip_leading).
  apply (all_chars_replace_runs clean_char); [done | auto |].
  apply (all_chars_replace_runs (fun c => negb (unsafe_char c))); [done | |].
  - intros c Hc Hs. unfold clean_char. by rewrite Hc, Hs.
  - apply all_chars_replace_class; [done |]. by intros c ->.
Qed.



Lemma capTitle_clean s : all_chars clean_char s = true -> all_chars clean_char (capTitle s) = true.
Proof.
  intros Hs. unfold capTitle. case_match; [| done].
  by apply all_chars_strip_trailing, all_chars_prefix.
Qed.




Lemma isoDate_of_time createdAt t : getTime createdAt = Time t -> isoDate createdAt = Ok (isoDay t).
Proof. intros Ht. unfold isoDate, isoString. by rewrite Ht. Qed.

Lemma isoDate_invalid createdAt :
  getTime createdAt = NaN -> isoDate createdAt = Throw "Invalid time value".
Proof. intros Ht. unfold isoDate, isoString. by rewrite Ht. Qed.

(** An invalid creation date makes the derivation throw a RangeError. *)
Lemma sanitizeSiYuanPath_invalid title createdAt :
  getTime createdAt = NaN -> sanitizeSiYuanPath title createdAt = Throw "Invalid time value".
Proof. intros Ht. unfold sanitizeSiYuanPath. by rewrite (isoDate_invalid _ Ht). Qed.







End PathDerivation.





(** ** Reasoning about computations *)

Section Wp.

Context {A B : Type}.

Lemma wp_eq (m : M A) w Q : wp m w Q -> ∀ r w', m w = (r, w') -> Q r w'.
Proof. unfold wp. intros H r w' E. by rewrite E in H. Qed.

Lemma wp_intro (m : M A) w Q : (∀ r w', m w = (r, w') -> Q r w') -> wp m w Q.
Proof. unfold wp. intros H. apply H. by destruct (m w). Qed.

Lemma wp_mono (m : M A) w (Q Q' : Res A -> World -> Prop) :
  wp m w Q -> (∀ r w', Q r w' -> Q' r w') -> wp m w Q'.
Proof. unfold wp. auto. Qed.

Lemma wp_ret (a : A) w Q : Q (Ok a) w -> wp (mret a) w Q.
Proof. done. Qed.

Lemma wp_throw e w (Q : Res A -> World -> Prop) : Q (Throw e) w -> wp (throw e) w Q.
Proof. done. Qed.

Lemma wp_lift (r : Res A) w Q : Q r w -> wp (lift r) w Q.
Proof. done. Qed.

Lemma wp_get (f : World -> A) w Q : Q (Ok (f w)) w -> wp (get f) w Q.
Proof. done. Qed.

Lemma wp_bind (m : M A) (k : A -> M B) w Q :
  wp m w (fun r w' =>
            match r with
            | Ok a => wp (k a) w' Q
            | Throw e => Q (Throw e) w'
            end) ->
  wp (m ≫= k) w Q.
Proof.
  unfold wp, mbind, M_bind. destruct (m w) as [[a|e] w']; simpl; auto.
Qed.

Lemma wp_try_catch (m : M A) (h : string -> M A) w Q :
  wp m w (fun r w' =>
            match r with
            | Ok a => Q (Ok a) w'
            | Throw e => wp (h e) w' Q
            end) ->
  wp (try_catch m h) w Q.
Proof.
  unfold wp, try_catch. destruct (m w) as [[a|e] w']; simpl; auto.
Qed.

End Wp.

Lemma wp_any {A} (m : M A) w (Q : Res A -> World -> Prop) :
  (∀ r w', Q r w') -> wp m w Q.
Proof. unfold wp. auto. Qed.

Lemma wp_modify (f : World -> World) w Q : Q (Ok tt) (f w) -> wp (modify f) w Q.
Proof. done. Qed.

Lemma wp_tr key fallback w Q :
  Q (Ok (or_else (i18n w !! key) fallback)) w -> wp (tr key fallback) w Q.
Proof. done. Qed.

(** A kernel request ends in one of three ways. *)
Lemma wp_request {D} (c : Call) (serve : World -> Resp D * World) w Q :
  (∀ fs, (faults w = [] ∧ fs = [] ∨ faults w = Healthy :: fs) ->
         Q (Ok (serve (set_faults fs (record_call c w))).1)
           (serve (set_faults fs (record_call c w))).2) ->
  (∀ n m fs, faults w = Refuse n m :: fs ->
             Q (Ok (Kernel.failed n m)) (set_faults fs (record_call c w))) ->
  (∀ m fs, faults w = Disconnect m :: fs ->
           Q (Throw m) (set_faults fs (record_call c w))) ->
  wp (Kernel.request c serve) w Q.
Proof.
  intros H1 H2 H3. unfold wp, Kernel.request.
  change (faults (record_call c w)) with (faults w).
  destruct (faults w) as [|[|n m|m] fs] eqn:E.
  - specialize (H1 [] (or_introl (conj eq_refl eq_refl))).
    replace (set_faults [] (record_call c w)) with (record_call c w) in H1
      by (unfold set_faults; destruct w; simpl in *; by rewrite E).
    by destruct (serve (record_call c w)).
  - specialize (H1 fs (or_intror eq_refl)).
    by destruct (serve (set_faults fs (record_call c w))).
  - by apply H2.
  - by apply H3.
Qed.

(** *** Observations a computation keeps *)

Section Keeps.

Context (R : relation World) `{!PreOrder R}.

Lemma keeps_ret {A} (a : A) : Keeps R (mret a).
Proof. intros w. reflexivity. Qed.

Lemma keeps_throw {A} e : Keeps R (@throw A e).
Proof. intros w. reflexivity. Qed.

Lemma keeps_lift {A} (r : Res A) : Keeps R (lift r).
Proof. intros w. reflexivity. Qed.

Lemma keeps_get {A} (f : World -> A) : Keeps R (get f).
Proof. intros w. reflexivity. Qed.

Lemma keeps_tr key fallback : Keeps R (tr key fallback).
Proof. intros w. reflexivity. Qed.

Lemma keeps_modify f : (∀ w, R w (f w)) -> Keeps R (modify f).
Proof. intros H w. apply H. Qed.

Lemma keeps_bind {A B} (m : M A) (k : A -> M B) :
  Keeps R m -> (∀ a, Keeps R (k a)) -> Keeps R (m ≫= k).
Proof.
  intros Hm Hk w. specialize (Hm w). unfold mbind, M_bind.
  destruct (m w) as [[a|e] w']; simpl in *; [| done].
  etrans; [exact Hm | apply Hk].
Qed.

Lemma keeps_try_catch {A} (m : M A) (h : string -> M A) :
  Keeps R m -> (∀ e, Keeps R (h e)) -> Keeps R (try_catch m h).
Proof.
  intros Hm Hh w. specialize (Hm w). unfold try_catch.
  destruct (m w) as [[a|e] w']; simpl in *; [done |].
  etrans; [exact Hm | apply Hh].
Qed.

Lemma keeps_log `{!KeepsLines R} l : Keeps R (modify (record_line l)).
Proof. apply keeps_modify, keeps_lines. Qed.

Lemma keeps_request `{!KeepsCalls R, !KeepsFaults R} {D} c (serve : World -> Resp D * World) :
  (∀ w, R w (serve w).2) -> Keeps R (Kernel.request c serve).
Proof.
  intros Hs w. unfold Kernel.request.
  change (faults (record_call c w)) with (faults w).
  pose proof (keeps_calls c w) as Hc.
  destruct (faults w) as [|[|n m|m] fs].
  - specialize (Hs (record_call c w)).
    destruct (serve (record_call c w)); simpl in *. by etrans.
  - specialize (Hs (set_faults fs (record_call c w))).
    pose proof (keeps_faults fs (record_call c w)).
    destruct (serve (set_faults fs (record_call c w))); simpl in *.
    etrans; [exact Hc |]. by etrans.
  - simpl. etrans; [exact Hc | apply keeps_faults].
  - simpl. etrans; [exact Hc | apply keeps_faults].
Qed.

Lemma keeps_fetchAsset `{!KeepsCalls R, !KeepsWeb R} url authorized :
  Keeps R (fetchAsset url authorized).
Proof. intros w. unfold fetchAsset. simpl. etrans; [apply keeps_calls | apply keeps_web]. Qed.

Lemma keeps_upload `{!KeepsCalls R, !KeepsUploads R} notebook file :
  Keeps R (Kernel.upload notebook file).
Proof.
  intros w. unfold Kernel.upload. simpl. etrans; [apply keeps_calls | apply keeps_uploads].
Qed.

End Keeps.

Lemma wp_fetchAsset url authorized w Q :
  Q (downloadAnswer w) (set_web (tail (web w)) (record_call (FetchAsset url authorized) w)) ->
  wp (fetchAsset url authorized) w Q.
Proof. done. Qed.

Lemma wp_upload notebook file w Q :
  Q (Kernel.uploadAnswer file w)
    (set_uploads (tail (uploads w)) (record_call (UploadAsset notebook file) w)) ->
  wp (Kernel.upload notebook file) w Q.
Proof. done. Qed.

Lemma wp_fetchPage cursor w Q :
  Q (pageAnswer w) (set_source (tail (source w)) (record_call (FetchBookmarks cursor) w)) ->
  wp (fetchPage cursor) w Q.
Proof. done. Qed.

Lemma wp_returns {A} (m : M A) :
  (∀ w, wp m w (fun r _ => ∃ a, r = Ok a)) -> Returns m.
Proof.
  intros H w. specialize (H w). unfold wp in H.
  destruct (m w) as [r w']. destruct H as [a Ha]. simpl in Ha. subst r. eauto.
Qed.

Lemma returns_wp {A} (m : M A) w :
  Returns m -> wp m w (fun r _ => ∃ a, r = Ok a).
Proof. intros H. destruct (H w) as (a & w' & E). unfold wp. rewrite E. eauto. Qed.

Ltac wp_step :=
  lazymatch goal with
  | |- wp (mret _) _ _ => apply wp_ret
  | |- wp (_ ≫= _) _ _ => apply wp_bind
  | |- wp (try_catch _ _) _ _ => apply wp_try_catch
  | |- wp (throw _) _ _ => apply wp_throw
  | |- wp (lift _) _ _ => apply wp_lift
  | |- wp (get _) _ _ => apply wp_get
  | |- wp (tr _ _) _ _ => apply wp_tr
  | |- wp logInfo _ _ => apply wp_modify
  | |- wp logWarn _ _ => apply wp_modify
  | |- wp logError _ _ => apply wp_modify
  | |- wp (modify _) _ _ => apply wp_modify
  | |- wp (Kernel.request _ _) _ _ => apply wp_request; intros
  | |- wp (fetchAsset _ _) _ _ => apply wp_fetchAsset
  | |- wp (Kernel.upload _ _) _ _ => apply wp_upload
  | |- wp (fetchPage _) _ _ => apply wp_fetchPage
  | |- wp (if ?b then _ else _) _ _ => destruct b eqn:?
  | |- wp (match ?x with _ => _ end) _ _ => destruct x eqn:?
  end.

Ltac wp_auto := repeat wp_step.

Ltac keeps_step :=
  lazymatch goal with
  | |- Keeps ?R (mret _) => apply (keeps_ret R)
  | |- Keeps ?R (throw _) => apply (keeps_throw R)
  | |- Keeps ?R (lift _) => apply (keeps_lift R)
  | |- Keeps ?R (get _) => apply (keeps_get R)
  | |- Keeps ?R (tr _ _) => apply (keeps_tr R)
  | |- Keeps ?R logInfo => apply (keeps_log R)
  | |- Keeps ?R logWarn => apply (keeps_log R)
  | |- Keeps ?R logError => apply (keeps_log R)
  | |- Keeps ?R (_ ≫= _) => apply (keeps_bind R); [| intros ?]
  | |- Keeps ?R (try_catch _ _) => apply (keeps_try_catch R); [| intros ?]
  | |- Keeps ?R (fetchAsset _ _) => apply (keeps_fetchAsset R)
  | |- Keeps ?R (Kernel.upload _ _) => apply (keeps_upload R)
  | |- Keeps ?R (Kernel.request _ _) => apply (keeps_request R)
  | |- Keeps _ (if ?b then _ else _) => destruct b
  | |- Keeps _ (match ?x with _ => _ end) => destruct x
  end.

Ltac keeps_auto := repeat keeps_step.

(** Projections of an updated world. *)
Ltac world_simpl :=
  unfold record_line, record_call, set_faults, set_docs, set_web, set_uploads, set_source,
    set_settings in *;
  simpl in *.

(** The same, leaving everything but the projections as it is. *)
Ltac world_cbn :=
  unfold record_line, record_call, set_faults, set_docs, set_web, set_uploads, set_source,
    set_settings in *;
  cbn [settings i18n docs next_id faults web uploads source now calls console] in *.

(** ** What the pipeline leaves untouched *)

#[global] Instance sameDocs_preorder : PreOrder sameDocs.
Proof.
  split.
  - intros w. by repeat split.
  - intros w1 w2 w3 (Hd1 & Hn1 & Hc1) (Hd2 & Hn2 & Hc2).
    repeat split; [congruence.. | by etrans].
Qed.

#[global] Instance sameDocs_calls : KeepsCalls sameDocs.
Proof. intros c w. repeat split. simpl. by apply prefix_app_r. Qed.

#[global] Instance sameDocs_lines : KeepsLines sameDocs.
Proof. intros l w. by repeat split. Qed.

#[global] Instance sameDocs_faults : KeepsFaults sameDocs.
Proof. intros l w. by repeat split. Qed.

#[global] Instance sameDocs_web : KeepsWeb sameDocs.
Proof. intros l w. by repeat split. Qed.

#[global] Instance sameDocs_uploads : KeepsUploads sameDocs.
Proof. intros l w. by repeat split. Qed.

#[global] Instance sameEnv_preorder : PreOrder sameEnv.
Proof.
  split.
  - intros w. by repeat split.
  - intros w1 w2 w3 (? & ? & ? & ?) (? & ? & ? & ?). repeat split; congruence.
Qed.

#[global] Instance sameEnv_calls : KeepsCalls sameEnv.
Proof. intros c w. by repeat split. Qed.
#[global] Instance sameEnv_lines : KeepsLines sameEnv.
Proof. intros l w. by repeat split. Qed.
#[global] Instance sameEnv_faults : KeepsFaults sameEnv.
Proof. intros l w. by repeat split. Qed.
#[global] Instance sameEnv_web : KeepsWeb sameEnv.
Proof. intros l w. by repeat split. Qed.
#[global] Instance sameEnv_uploads : KeepsUploads sameEnv.
Proof. intros l w. by repeat split. Qed.
#[global] Instance sameEnv_docs : KeepsDocs sameEnv.
Proof. intros d n w. by repeat split. Qed.

Section Frames.
Context `{RT : Runtime}.

Lemma getKarakeepAssetUrl_keeps R `{!PreOrder R, !KeepsLines R} apiEndpoint assetId :
  Keeps R (getKarakeepAssetUrl apiEndpoint assetId).
Proof. unfold getKarakeepAssetUrl. keeps_auto. Qed.

Lemma downloadAndUploadAsset_keeps R
    `{!PreOrder R, !KeepsLines R, !KeepsCalls R, !KeepsWeb R, !KeepsUploads R}
    settings assetUrl assetIdHint titleHint :
  Keeps R (downloadAndUploadAsset settings assetUrl assetIdHint titleHint).
Proof. unfold downloadAndUploadAsset. keeps_auto. Qed.

Lemma chooseAsset_keeps R `{!PreOrder R, !KeepsLines R} settings bookmark title :
  Keeps R (chooseAsset settings bookmark title).
Proof.
  unfold chooseAsset. keeps_auto; apply (getKarakeepAssetUrl_keeps R).
Qed.

Lemma formatBookmarkAsMarkdown_keeps R
    `{!PreOrder R, !KeepsLines R, !KeepsCalls R, !KeepsWeb R, !KeepsUploads R}
    bookmark title :
  Keeps R (formatBookmarkAsMarkdown bookmark title).
Proof.
  unfold formatBookmarkAsMarkdown. keeps_auto;
    first [apply (chooseAsset_keeps R) | apply (downloadAndUploadAsset_keeps R)].
Qed.
End Frames.

Section StoreFrames.

Context `{RT : Runtime}.
Context (R : relation World)
  `{!PreOrder R, !KeepsLines R, !KeepsCalls R, !KeepsFaults R, !KeepsWeb R,
    !KeepsUploads R, !KeepsDocs R}.

Lemma sql_keeps stmt w : R w (Kernel.sql stmt w).2.
Proof. reflexivity. Qed.

Lemma getBlockAttrs_keeps i w : R w (Kernel.getBlockAttrs i w).2.
Proof. unfold Kernel.getBlockAttrs. by destruct (Kernel.find_doc i w). Qed.

Lemma setBlockAttrs_keeps i a w : R w (Kernel.setBlockAttrs i a w).2.
Proof.
  unfold Kernel.setBlockAttrs. destruct (Kernel.find_doc i w); [apply keeps_docs | done].
Qed.

Lemma removeDocByID_keeps i w : R w (Kernel.removeDocByID i w).2.
Proof.
  unfold Kernel.removeDocByID. destruct (Kernel.find_doc i w); [apply keeps_docs | done].
Qed.

Lemma createDocWithMd_keeps notebookId path md w :
  R w (Kernel.createDocWithMd notebookId path md w).2.
Proof. apply keeps_docs. Qed.

Lemma findExistingDocIdByKarakeepId_keeps notebookId karakeepId :
  Keeps R (findExistingDocIdByKarakeepId notebookId karakeepId).
Proof. unfold findExistingDocIdByKarakeepId. keeps_auto. apply sql_keeps. Qed.

Lemma getSiYuanBlockAttrs_keeps blockId : Keeps R (getSiYuanBlockAttrs blockId).
Proof. unfold getSiYuanBlockAttrs. keeps_auto. apply getBlockAttrs_keeps. Qed.

Lemma setSiYuanDocAttributes_keeps docRootId bookmark title :
  Keeps R (setSiYuanDocAttributes docRootId bookmark title).
Proof. unfold setSiYuanDocAttributes. keeps_auto. apply setBlockAttrs_keeps. Qed.

Lemma createSiYuanDocWithMd_keeps notebookId path md karakeepIdForLog :
  Keeps R (createSiYuanDocWithMd notebookId path md karakeepIdForLog).
Proof. unfold createSiYuanDocWithMd. keeps_auto. apply createDocWithMd_keeps. Qed.

Lemma removeSiYuanDocById_keeps docId : Keeps R (removeSiYuanDocById docId).
Proof. unfold removeSiYuanDocById. keeps_auto. apply removeDocByID_keeps. Qed.

Lemma shouldUpdateDocument_keeps docId bookmark : Keeps R (shouldUpdateDocument docId bookmark).
Proof. unfold shouldUpdateDocument. keeps_auto. apply getSiYuanBlockAttrs_keeps. Qed.

Lemma createNewSiYuanDocument_keeps bookmark notebookId title path :
  Keeps R (createNewSiYuanDocument bookmark notebookId title path).
Proof.
  unfold createNewSiYuanDocument. keeps_auto;
    first [apply (formatBookmarkAsMarkdown_keeps R) | apply createSiYuanDocWithMd_keeps
          | apply setSiYuanDocAttributes_keeps].
Qed.

Lemma updateSiYuanDocument_keeps existingDocId bookmark notebookId title path :
  Keeps R (updateSiYuanDocument existingDocId bookmark notebookId title path).
Proof.
  unfold updateSiYuanDocument. keeps_auto;
    first [apply removeSiYuanDocById_keeps | apply createNewSiYuanDocument_keeps].
Qed.

Lemma processBookmark_keeps bookmark notebookId : Keeps R (processBookmark bookmark notebookId).
Proof.
  unfold processBookmark. keeps_auto;
    first [apply findExistingDocIdByKarakeepId_keeps | apply shouldUpdateDocument_keeps
          | apply updateSiYuanDocument_keeps | apply createNewSiYuanDocument_keeps].
Qed.

End StoreFrames.

(** ** The target store adapter *)

Section Adapter.

Context `{RT : Runtime}.

Lemma getSiYuanBlockAttrs_returns blockId : Returns (getSiYuanBlockAttrs blockId).
Proof.
  apply wp_returns. intros w. unfold getSiYuanBlockAttrs. wp_auto; eauto.
Qed.

End Adapter.

(** *** Running a computation step by step *)

Lemma run_bind {A B} (m : M A) (k : A -> M B) w a w' :
  m w = (Ok a, w') -> (m ≫= k) w = k a w'.
Proof. unfold mbind, M_bind. by intros ->. Qed.

Lemma run_bind_throw {A B} (m : M A) (k : A -> M B) w e w' :
  m w = (Throw e, w') -> (m ≫= k) w = (Throw e, w').
Proof. unfold mbind, M_bind. by intros ->. Qed.

Lemma run_catch {A} (m : M A) (h : string -> M A) w a w' :
  m w = (Ok a, w') -> try_catch m h w = (Ok a, w').
Proof. unfold try_catch. by intros ->. Qed.

Lemma run_catch_throw {A} (m : M A) (h : string -> M A) w e w' :
  m w = (Throw e, w') -> try_catch m h w = h e w'.
Proof. unfold try_catch. by intros ->. Qed.

Lemma run_get {A B} (f : World -> A) (k : A -> M B) w : (get f ≫= k) w = k (f w) w.
Proof. reflexivity. Qed.

Lemma run_modify {B} (f : World -> World) (k : unit -> M B) w : (modify f ≫= k) w = k tt (f w).
Proof. reflexivity. Qed.

Lemma run_lift_ok {A B} (a : A) (k : A -> M B) w : (lift (Ok a) ≫= k) w = k a w.
Proof. reflexivity. Qed.

Lemma run_lift_throw {A B} e (k : A -> M B) w : (lift (Throw e) ≫= k) w = (Throw e, w).
Proof. reflexivity. Qed.

Lemma run_ret {A} (a : A) w : (mret a : M A) w = (Ok a, w).
Proof. reflexivity. Qed.

(** ** The existence lookup *)

Section Lookup.

Context `{RT : Runtime}.

Lemma last_snoc_line w l : last (console (record_line l w)) = Some l.
Proof. simpl. apply last_snoc. Qed.

Lemma strip_prefix_app p s : Kernel.strip_prefix p (p +:+ s) = Some s.
Proof.
  induction p as [|a p IH]; [by destruct s |].
  rewrite string_app_cons. cbn [Kernel.strip_prefix]. by rewrite Ascii.eqb_refl.
Qed.

(** A plain identifier between quotes is the literal that denotes it. *)
Lemma literal_app l rest :
  plain l -> Kernel.literal (l +:+ String "'" rest) = Some (l, rest).
Proof.
  unfold plain. induction l as [|c l IH]; [done |].
  cbn [all_chars]. intros [Hc Hl]%andb_prop.
  rewrite string_app_cons. cbn [Kernel.literal]. rewrite Hc, (IH Hl).
  unfold Kernel.plain_char in Hc. apply andb_prop in Hc as [Hq _].
  by destruct (Ascii.eqb "'" c).
Qed.

Lemma sqlQuery_text notebookId karakeepId :
  sqlQuery notebookId karakeepId
  = Kernel.lookup_head
    +:+ (notebookId
         +:+ String "'" (Kernel.lookup_middle
                         +:+ (karakeepId +:+ String "'" Kernel.lookup_tail))).
Proof. reflexivity. Qed.

(** The statement the plugin sends for plain identifiers is the lookup
    of these identifiers. *)
Lemma lookupOf_sqlQuery notebookId karakeepId :
  plain notebookId -> plain karakeepId ->
  Kernel.lookupOf (sqlQuery notebookId karakeepId) = Some (notebookId, karakeepId).
Proof.
  intros Hn Hk. rewrite sqlQuery_text. unfold Kernel.lookupOf.
  rewrite strip_prefix_app, (literal_app _ _ Hn), strip_prefix_app, (literal_app _ _ Hk).
  by rewrite String.eqb_refl.
Qed.

Lemma rows_sqlQuery notebookId karakeepId l :
  plain notebookId -> plain karakeepId ->
  Kernel.rows (sqlQuery notebookId karakeepId) l
  = Kernel.done (Some (Kernel.select notebookId karakeepId l)).
Proof. intros Hn Hk. unfold Kernel.rows. by rewrite (lookupOf_sqlQuery _ _ Hn Hk). Qed.

(** An identifier with a quote makes another statement, which is left
    to the engine. *)
Lemma lookupOf_quoted :
  Kernel.lookupOf (sqlQuery "notebook-1" "x' OR '1'='1") = None.
Proof. vm_compute. reflexivity. Qed.

(** Whatever the identifiers are, the lookup leaves the documents as
    they are.  It returns the first row of the answer of a kernel that
    serves the query, null when the answer is an error or has no row,
    and throws when the kernel does not answer. *)
Lemma findExistingDocIdByKarakeepId_run notebookId karakeepId w :
  wp (findExistingDocIdByKarakeepId notebookId karakeepId) w
     (fun r w' =>
        docs w' = docs w
        ∧ match faults w with
          | [] | Healthy :: _ =>
              let answer := Kernel.rows (sqlQuery notebookId karakeepId) (docs w) in
              r = Ok (if code answer =? 0 then head (default [] (data answer)) else None)
          | Refuse _ _ :: _ => r = Ok None ∧ errorLogged w'
          | Disconnect m :: _ => r = Throw m ∧ errorLogged w'
          end).
Proof.
  unfold findExistingDocIdByKarakeepId, errorLogged.
  wp_step. wp_step. wp_step. wp_step. apply wp_request.
  - intros fs Hfs. world_simpl.
    assert (match faults w with
            | [] | Healthy :: _ => True
            | _ => False
            end) as Hh by (destruct Hfs as [[-> _] | ->]; done).
    unfold Kernel.sql. world_simpl.
    destruct (code (Kernel.rows (sqlQuery notebookId karakeepId) (docs w)) =? 0);
      [destruct (data (Kernel.rows (sqlQuery notebookId karakeepId) (docs w))) as [[|i l]|] |];
      simpl; wp_auto; (split; [done |]); destruct (faults w) as [|[] ?]; done.
  - intros n m fs Hfs. world_simpl. rewrite Hfs. wp_step.
    { exfalso. destruct (n =? 0) eqn:E; [done | congruence]. }
    wp_auto. split; [done |]. split; [done |]. apply last_snoc.
  - intros m fs Hfs. world_simpl. rewrite Hfs. wp_auto.
    split; [done |]. split; [done |]. apply last_snoc.
Qed.

Lemma findExistingDocIdByKarakeepId_wp notebookId karakeepId w :
  plain notebookId -> plain karakeepId ->
  wp (findExistingDocIdByKarakeepId notebookId karakeepId) w
     (fun r w' =>
        docs w' = docs w
        ∧ match faults w with
          | [] | Healthy :: _ => r = Ok (head (doc_id <$> carrying notebookId karakeepId w))
          | Refuse _ _ :: _ => r = Ok None ∧ errorLogged w'
          | Disconnect m :: _ => r = Throw m ∧ errorLogged w'
          end).
Proof.
  intros Hn Hk. eapply wp_mono; [apply findExistingDocIdByKarakeepId_run |].
  intros r w' [Hd H]. split; [exact Hd |].
  rewrite (rows_sqlQuery _ _ _ Hn Hk) in H. unfold carrying.
  assert (head (default [] (Some (Kernel.select notebookId karakeepId (docs w))))
          = head (doc_id <$> filter (fun d => Kernel.carries notebookId karakeepId d = true)
                               (docs w))) as Hhead.
  { unfold Kernel.select. simpl.
    by destruct (doc_id <$> filter _ (docs w)). }
  destruct (faults w) as [|[] ?]; simpl in H; try done; by rewrite <- Hhead.
Qed.


End Lookup.



(** ** The update decision *)

Section UpdateDecision.

Context `{RT : Runtime}.

Lemma retrievedAttrs_eq docId w o w' :
  getSiYuanBlockAttrs docId w = (Ok o, w') -> retrievedAttrs docId w = o.
Proof. unfold retrievedAttrs. by intros ->. Qed.

Lemma gt_num_spec a b :
  gt_num a b = true <-> ∃ x y, a = Time x ∧ b = Time y ∧ y < x.
Proof.
  destruct a as [|x], b as [|y]; simpl; split; try done;
    try (by intros (? & ? & ? & ? & ?)).
  - intros H%Z.ltb_lt. eauto.
  - intros (? & ? & [= <-] & [= <-] & H). by apply Z.ltb_lt.
Qed.

Lemma falsy_num_spec t : falsy_num t = true <-> t = NaN ∨ t = Time 0.
Proof.
  destruct t as [|ms]; simpl; [naive_solver |].
  rewrite Z.eqb_eq. split; [intros ->; by right | intros [[=] | [= ->]]; done].
Qed.

(** C1, as amended.  The decision never throws.  Where the stored
    modified attribute, if there is one, does not denote the epoch (time
    value 0), the decision is "update" exactly when updating is enabled
    and one of these holds: the attributes could not be retrieved; the
    document has no modified attribute, or an empty one; the attribute
    does not denote a time; the record's effective modified time is
    strictly greater than the stored one.  Whenever the stored
    attribute, if there is one, denotes a time other than the epoch,
    this is the decision the specification words. *)
Theorem shouldUpdateDocument_decision (docId : string) (bookmark : KarakeepBookmark) (w : World) :
  ∃ d w', shouldUpdateDocument docId bookmark w = (Ok d, w')
    ∧ ((∀ attrs s, retrievedAttrs docId w = Some attrs -> attrs !! ATTR_MODIFIED = Some s ->
          getTime s ≠ Time 0) ->
       (d = true <->
        updateExistingFiles (settings w) = true
        ∧ match retrievedAttrs docId w with
          | None => True
          | Some attrs =>
              match attrs !! ATTR_MODIFIED with
              | None => True
              | Some s =>
                  s = "" ∨ getTime s = NaN
                  ∨ gt_num (recordTime bookmark) (getTime s) = true
              end
          end))
    ∧ ((∀ attrs s, retrievedAttrs docId w = Some attrs -> attrs !! ATTR_MODIFIED = Some s ->
          s ≠ "" ∧ ∃ t, t ≠ 0 ∧ getTime s = Time t) ->
       d = claimedUpdate (updateExistingFiles (settings w)) (retrievedAttrs docId w) bookmark).
Proof.
  unfold shouldUpdateDocument. rewrite run_get.
  destruct (updateExistingFiles (settings w)) eqn:En; simpl.
  2: { exists false, w. split; [done |]. split; [naive_solver | done]. }
  destruct (getSiYuanBlockAttrs_returns docId w) as (o & w1 & Hget).
  rewrite (run_bind _ _ _ _ _ Hget), (retrievedAttrs_eq _ _ _ _ Hget).
  destruct o as [attrs|].
  2: { eexists true, _. split; [reflexivity |]. split; [naive_solver | done]. }
  unfold claimedUpdate, storedTime, recordTime.
  destruct (attrs !! ATTR_MODIFIED) as [s|] eqn:Es; simpl.
  2: { eexists true, _. split; [reflexivity |]. split; [naive_solver | done]. }
  destruct s as [|c s]; simpl.
  { eexists true, _. split; [reflexivity |]. split; [naive_solver |].
    intros H. by destruct (H attrs "" eq_refl Es) as [? _]. }
  destruct (falsy_num (getTime (String c s))) eqn:Ef; simpl.
  { eexists true, _. split; [reflexivity |].
    apply falsy_num_spec in Ef. split.
    - intros H0. specialize (H0 attrs _ eq_refl Es). naive_solver.
    - intros H. destruct (H attrs _ eq_refl Es) as (_ & t & Ht0 & Ht).
      rewrite Ht in Ef. naive_solver. }
  assert (getTime (String c s) ≠ NaN ∧ getTime (String c s) ≠ Time 0) as [Hn H0].
  { split; intros E; rewrite E in Ef; done. }
  destruct (gt_num (getTime (effectiveModified bookmark)) (getTime (String c s))) eqn:Eg.
  - eexists true, _. split; [reflexivity |]. split; [naive_solver | done].
  - eexists false, _. split; [reflexivity |]. split; [| done].
    intros _. split; [done |]. intros [_ [? | [? | ?]]]; done.
Qed.

End UpdateDecision.

(** C1, the claim as stated fails: a document whose modified attribute
    is not a date is updated, although the attribute is there and
    [T' > T] is false. *)
Lemma shouldUpdateDocument_undated_counterexample :
  updateExistingFiles (settings undatedDocWorld) = true
  ∧ (storedTime (RT := Reference.runtime) <$> retrievedAttrs "20240301-doc" undatedDocWorld)
    = Some (Some NaN)
  ∧ claimedUpdate (RT := Reference.runtime) true
      (retrievedAttrs "20240301-doc" undatedDocWorld) marchBookmark = false
  ∧ (shouldUpdateDocument (RT := Reference.runtime) "20240301-doc" marchBookmark
       undatedDocWorld).1
    = Ok true.
Proof. repeat split; vm_compute; reflexivity. Qed.

(** At a stored time equal to the epoch, of which the statement above
    says nothing, the document is updated for a record whose effective
    modified time is the epoch too. *)
Lemma shouldUpdateDocument_at_the_epoch :
  (storedTime (RT := Reference.runtime) <$> retrievedAttrs "20240301-doc" epochWorld)
  = Some (Some (Time 0))
  ∧ recordTime (RT := Reference.runtime) epochBookmark = Time 0
  ∧ (shouldUpdateDocument (RT := Reference.runtime) "20240301-doc" epochBookmark epochWorld).1
    = Ok true.
Proof. repeat split; vm_compute; reflexivity. Qed.

(** The amended statement at a document of the first of March and a
    record modified the day after: the decision is the one the
    specification words, update. *)
Lemma shouldUpdateDocument_decision_witness :
  (shouldUpdateDocument (RT := Reference.runtime) "20240301-doc" marchBookmark marchWorld).1
  = Ok true.
Proof.
  destruct (shouldUpdateDocument_decision (RT := Reference.runtime)
              "20240301-doc" marchBookmark marchWorld) as (d & w' & E & _ & Hc).
  rewrite E. simpl. f_equal. rewrite Hc; [vm_compute; reflexivity |].
  intros attrs s Hr Hs.
  assert (retrievedAttrs "20240301-doc" marchWorld
          = Some {[ ATTR_KARAKEEP_ID := "bk-march"; ATTR_MODIFIED := "2024-03-01T00:00:00.000Z" ]})
    as Hr' by (vm_compute; reflexivity).
  rewrite Hr' in Hr. injection Hr as <-.
  assert (s = "2024-03-01T00:00:00.000Z") as ->.
  { revert Hs. vm_compute. by intros [= <-]. }
  split; [done |]. exists 1709251200000. split; [done | vm_compute; reflexivity].
Defined.

(** ** Computations that do not look at the excluded tags *)

Section IgnoresTags.

Context (excluded : list string).

Lemma ignores_ret {A} (a : A) : IgnoresTags excluded (mret a).
Proof. done. Qed.

Lemma ignores_throw {A} e : IgnoresTags excluded (@throw A e).
Proof. done. Qed.

Lemma ignores_lift {A} (r : Res A) : IgnoresTags excluded (lift r).
Proof. done. Qed.

Lemma ignores_get {A} (f : World -> A) :
  (∀ w, f (withExcludedTags excluded w) = f w) -> IgnoresTags excluded (get f).
Proof. intros H w. unfold get. by rewrite H. Qed.

Lemma ignores_tr key fallback : IgnoresTags excluded (tr key fallback).
Proof. done. Qed.

Lemma ignores_log l : IgnoresTags excluded (modify (record_line l)).
Proof. done. Qed.

Lemma ignores_bind {A B} (m : M A) (k : A -> M B) :
  IgnoresTags excluded m -> (∀ a, IgnoresTags excluded (k a)) -> IgnoresTags excluded (m ≫= k).
Proof.
  intros Hm Hk w. unfold mbind, M_bind. rewrite Hm.
  destruct (m w) as [[a|e] w']; simpl; [apply Hk | done].
Qed.

Lemma ignores_try_catch {A} (m : M A) (h : string -> M A) :
  IgnoresTags excluded m -> (∀ e, IgnoresTags excluded (h e)) -> IgnoresTags excluded (try_catch m h).
Proof.
  intros Hm Hh w. unfold try_catch. rewrite Hm.
  destruct (m w) as [[a|e] w']; simpl; [done | apply Hh].
Qed.

(** A computation that reads the settings ignores the excluded tags
    when what it does with the settings does. *)
Lemma ignores_settings {A} (k : KarakeepSyncSettings -> M A) :
  (∀ s, k (retag excluded s) = k s) -> (∀ s, IgnoresTags excluded (k s)) -> IgnoresTags excluded (get settings ≫= k).
Proof.
  intros Hk Hi w. rewrite !run_get.
  change (settings (withExcludedTags excluded w)) with (retag excluded (settings w)).
  rewrite Hk. apply Hi.
Qed.

Lemma ignores_request {D} c (serve : World -> Resp D * World) :
  (∀ w, serve (withExcludedTags excluded w)
        = ((serve w).1, withExcludedTags excluded (serve w).2)) ->
  IgnoresTags excluded (Kernel.request c serve).
Proof.
  intros Hs w. unfold Kernel.request.
  change (faults (record_call c (withExcludedTags excluded w))) with (faults w).
  change (faults (record_call c w)) with (faults w).
  destruct (faults w) as [|[|n m|m] fs]; try done.
  - change (record_call c (withExcludedTags excluded w))
      with (withExcludedTags excluded (record_call c w)).
    rewrite Hs. by destruct (serve (record_call c w)).
  - change (set_faults fs (record_call c (withExcludedTags excluded w)))
      with (withExcludedTags excluded (set_faults fs (record_call c w))).
    rewrite Hs. by destruct (serve (set_faults fs (record_call c w))).
Qed.

Lemma ignores_fetchAsset url authorized : IgnoresTags excluded (fetchAsset url authorized).
Proof. done. Qed.

Lemma ignores_upload notebook file : IgnoresTags excluded (Kernel.upload notebook file).
Proof. done. Qed.

End IgnoresTags.

Ltac ignores_step :=
  lazymatch goal with
  | |- IgnoresTags _ (mret _) => apply ignores_ret
  | |- IgnoresTags _ (throw _) => apply ignores_throw
  | |- IgnoresTags _ (lift _) => apply ignores_lift
  | |- IgnoresTags _ (tr _ _) => apply ignores_tr
  | |- IgnoresTags _ logInfo => apply ignores_log
  | |- IgnoresTags _ logWarn => apply ignores_log
  | |- IgnoresTags _ logError => apply ignores_log
  | |- IgnoresTags _ (_ ≫= _) => apply ignores_bind; [| intros ?]
  | |- IgnoresTags _ (try_catch _ _) => apply ignores_try_catch; [| intros ?]
  | |- IgnoresTags _ (fetchAsset _ _) => apply ignores_fetchAsset
  | |- IgnoresTags _ (Kernel.upload _ _) => apply ignores_upload
  | |- IgnoresTags _ (Kernel.request _ _) => apply ignores_request; intros ?
  | |- IgnoresTags _ (if ?b then _ else _) => destruct b
  | |- IgnoresTags _ (match ?x with _ => _ end) => destruct x
  end.

Ltac ignores_auto := repeat ignores_step.

Section TagsIgnored.

Context `{RT : Runtime} (excluded : list string).

Lemma getKarakeepAssetUrl_ignores apiEndpoint assetId :
  IgnoresTags excluded (getKarakeepAssetUrl apiEndpoint assetId).
Proof. unfold getKarakeepAssetUrl. ignores_auto. Qed.

Lemma downloadAndUploadAsset_ignores settings assetUrl assetIdHint titleHint :
  IgnoresTags excluded (downloadAndUploadAsset settings assetUrl assetIdHint titleHint).
Proof. unfold downloadAndUploadAsset. ignores_auto. Qed.

Lemma chooseAsset_ignores settings bookmark title :
  IgnoresTags excluded (chooseAsset settings bookmark title).
Proof. unfold chooseAsset. ignores_auto; apply getKarakeepAssetUrl_ignores. Qed.

Lemma formatBookmarkAsMarkdown_ignores bookmark title :
  IgnoresTags excluded (formatBookmarkAsMarkdown bookmark title).
Proof.
  unfold formatBookmarkAsMarkdown. apply ignores_settings; [done |]. intros s.
  ignores_auto; first [apply chooseAsset_ignores | apply downloadAndUploadAsset_ignores].
Qed.

Lemma findExistingDocIdByKarakeepId_ignores notebookId karakeepId :
  IgnoresTags excluded (findExistingDocIdByKarakeepId notebookId karakeepId).
Proof. unfold findExistingDocIdByKarakeepId. ignores_auto. done. Qed.

Lemma getSiYuanBlockAttrs_ignores blockId : IgnoresTags excluded (getSiYuanBlockAttrs blockId).
Proof.
  unfold getSiYuanBlockAttrs. ignores_auto.
  unfold Kernel.getBlockAttrs.
  change (Kernel.find_doc blockId (withExcludedTags excluded w)) with (Kernel.find_doc blockId w).
  by destruct (Kernel.find_doc blockId w).
Qed.

Lemma setSiYuanDocAttributes_ignores docRootId bookmark title :
  IgnoresTags excluded (setSiYuanDocAttributes docRootId bookmark title).
Proof.
  unfold setSiYuanDocAttributes. ignores_auto.
  unfold Kernel.setBlockAttrs.
  change (Kernel.find_doc docRootId (withExcludedTags excluded w))
    with (Kernel.find_doc docRootId w).
  by destruct (Kernel.find_doc docRootId w).
Qed.

Lemma createSiYuanDocWithMd_ignores notebookId path md karakeepIdForLog :
  IgnoresTags excluded (createSiYuanDocWithMd notebookId path md karakeepIdForLog).
Proof. unfold createSiYuanDocWithMd. ignores_auto. done. Qed.

Lemma removeSiYuanDocById_ignores docId : IgnoresTags excluded (removeSiYuanDocById docId).
Proof.
  unfold removeSiYuanDocById. ignores_auto.
  unfold Kernel.removeDocByID.
  change (Kernel.find_doc docId (withExcludedTags excluded w)) with (Kernel.find_doc docId w).
  by destruct (Kernel.find_doc docId w).
Qed.

Lemma shouldUpdateDocument_ignores docId bookmark :
  IgnoresTags excluded (shouldUpdateDocument docId bookmark).
Proof.
  unfold shouldUpdateDocument. apply ignores_bind; [by apply ignores_get |]. intros enabled.
  ignores_auto. apply getSiYuanBlockAttrs_ignores.
Qed.

Lemma createNewSiYuanDocument_ignores bookmark notebookId title path :
  IgnoresTags excluded (createNewSiYuanDocument bookmark notebookId title path).
Proof.
  unfold createNewSiYuanDocument. ignores_auto;
    first [apply formatBookmarkAsMarkdown_ignores | apply createSiYuanDocWithMd_ignores
          | apply setSiYuanDocAttributes_ignores].
Qed.

Lemma updateSiYuanDocument_ignores existingDocId bookmark notebookId title path :
  IgnoresTags excluded (updateSiYuanDocument existingDocId bookmark notebookId title path).
Proof.
  unfold updateSiYuanDocument. ignores_auto;
    first [apply removeSiYuanDocById_ignores | apply createNewSiYuanDocument_ignores].
Qed.

(** For a favourited record the whole pipeline ignores the excluded
    tags. *)
Lemma processBookmark_ignores bookmark notebookId :
  favourited bookmark = true -> IgnoresTags excluded (processBookmark bookmark notebookId).
Proof.
  intros Hfav. unfold processBookmark. rewrite Hfav.
  apply ignores_settings; [done |]. intros s.
  ignores_auto;
    first [apply findExistingDocIdByKarakeepId_ignores | apply shouldUpdateDocument_ignores
          | apply updateSiYuanDocument_ignores | apply createNewSiYuanDocument_ignores].
Qed.

End TagsIgnored.

(** ** The per-record pipeline *)

Section PerRecord.

Context `{RT : Runtime}.

(** Creation ends with [created] or with [error], and does not throw. *)
Lemma createNewSiYuanDocument_status bookmark notebookId title path w :
  wp (createNewSiYuanDocument bookmark notebookId title path) w
     (fun r _ => ∃ pr, r = Ok pr ∧ (status pr = created ∨ status pr = error)).
Proof.
  unfold createNewSiYuanDocument. wp_step. wp_step.
  apply wp_any. intros [md|e] w1; [| wp_auto; eauto].
  wp_step. apply wp_any. intros [[newDocId|]|e] w2; [| wp_auto; eauto..].
  wp_step. apply wp_any. intros [[]|e] w3; wp_auto; eauto.
Qed.

(** An update ends with [updated] or with [error], and does not throw. *)
Lemma updateSiYuanDocument_status existingDocId bookmark notebookId title path w :
  wp (updateSiYuanDocument existingDocId bookmark notebookId title path) w
     (fun r _ => ∃ pr, r = Ok pr ∧ (status pr = updated ∨ status pr = error)).
Proof.
  unfold updateSiYuanDocument. wp_step.
  assert (Returns (removeSiYuanDocById existingDocId)) as Hrm.
  { apply wp_returns. intros w0. unfold removeSiYuanDocById. wp_auto; eauto. }
  eapply wp_mono; [apply returns_wp, Hrm |].
  intros r w1 [deleted ->]. destruct deleted; simpl; [| wp_auto; eauto].
  wp_step. wp_step. wp_step.
  eapply wp_mono; [apply createNewSiYuanDocument_status |].
  intros r w2 (pr & -> & Hs). wp_step.
  - wp_auto. eauto.
  - wp_auto. apply bool_decide_eq_false in Heqb. naive_solver.
Qed.

(** The three filters are the only source of [skipped_filtered], each
    with its own message. *)
Lemma processBookmark_filtered bookmark notebookId w :
  wp (processBookmark bookmark notebookId) w
     (fun r _ => ∀ pr, r = Ok pr -> status pr = skipped_filtered ->
        pr = result skipped_filtered "Archived"
        ∧ excludeArchived (settings w) = true ∧ archived bookmark = true
        ∨ pr = result skipped_filtered "Not favorite"
          ∧ onlyFavorites (settings w) = true ∧ favourited bookmark = false
        ∨ pr = result skipped_filtered "Excluded tag"
          ∧ favourited bookmark = false
          ∧ hasExcludedTag (excludedTags (settings w)) bookmark = true).
Proof.
  unfold processBookmark. wp_step. wp_step. wp_step.
  { wp_step. intros pr [= <-] _. left. by apply andb_prop in Heqb. }
  wp_step.
  { wp_step. intros pr [= <-] _. right; left.
    apply andb_prop in Heqb0 as [? ?%negb_true_iff]. done. }
  wp_step.
  { wp_step. intros pr [= <-] _. right; right.
    apply andb_prop in Heqb1 as [[?%negb_true_iff _]%andb_prop ?]. done. }
  wp_step. wp_step. destruct (getBookmarkTitle bookmark) as [title|e]; [| done].
  wp_step. wp_step. destruct (sanitizeSiYuanPath title (createdAt bookmark)) as [p|e]; [| done].
  wp_step. wp_step. apply wp_any. intros [existingDocId|e] w1.
  2: { wp_auto. by intros pr [= <-]. }
  wp_step.
  - wp_step. apply wp_any. intros [shouldUpdate|e] w2.
    2: { wp_auto. by intros pr [= <-]. }
    wp_step.
    + wp_step. wp_step.
      eapply wp_mono; [apply updateSiYuanDocument_status |].
      intros r w3 (pr & -> & Hs) pr' [= <-] Hf. rewrite Hf in Hs. naive_solver.
    + wp_auto. by intros pr [= <-].
  - wp_step. wp_step.
    eapply wp_mono; [apply createNewSiYuanDocument_status |].
    intros r w3 (pr & -> & Hs).
    assert (status pr ≠ skipped_filtered) by (intros E; rewrite E in Hs; naive_solver).
    naive_solver.
Qed.

(** C3.  An archived record is dropped when archived records are
    excluded, whatever else holds of it (favourited or not): the outcome
    is [skipped_filtered], with the message of the archive filter, and
    the store is not contacted. *)
Theorem processBookmark_archived_filtered (bookmark : KarakeepBookmark) (notebookId : string)
    (w : World) :
  archived bookmark = true ->
  excludeArchived (settings w) = true ->
  processBookmark bookmark notebookId w = (Ok (result skipped_filtered "Archived"), w)
  ∧ status (result skipped_filtered "Archived") ≠ created
  ∧ status (result skipped_filtered "Archived") ≠ updated.
Proof.
  intros Ha He. split; [| done].
  unfold processBookmark. rewrite run_get, He, Ha. reflexivity.
Qed.

(** C2.  A favourited record is never filtered out by the excluded
    tags: when its outcome is [skipped_filtered] the archive filter did
    it, whatever the excluded tags and the tags of the record are; and
    with any other excluded tags configured the record has the same
    outcome and leaves the same world. *)
Theorem processBookmark_favourite_keeps_tags (bookmark : KarakeepBookmark) (notebookId : string)
    (w w' : World) (pr : ProcessResult) :
  favourited bookmark = true ->
  processBookmark bookmark notebookId w = (Ok pr, w') ->
  pr ≠ result skipped_filtered "Excluded tag"
  ∧ (status pr = skipped_filtered ->
     pr = result skipped_filtered "Archived"
     ∧ excludeArchived (settings w) = true ∧ archived bookmark = true)
  ∧ (∀ excluded,
       processBookmark bookmark notebookId (withExcludedTags excluded w)
       = (Ok pr, withExcludedTags excluded w')).
Proof.
  intros Hf Hrun.
  assert (∀ excluded,
            processBookmark bookmark notebookId (withExcludedTags excluded w)
            = (Ok pr, withExcludedTags excluded w')) as Hsame.
  { intros excluded. by rewrite (processBookmark_ignores excluded _ _ Hf w), Hrun. }
  pose proof (wp_eq _ _ _ (processBookmark_filtered bookmark notebookId w) _ _ Hrun pr eq_refl)
    as H.
  assert (status pr = skipped_filtered ->
          pr = result skipped_filtered "Archived"
          ∧ excludeArchived (settings w) = true ∧ archived bookmark = true) as H'.
  { intros Hs. destruct (H Hs) as [? | [(_ & _ & ?) | (_ & ? & _)]]; [done | congruence..]. }
  split; [| by split].
  intros ->. by destruct (H' eq_refl) as [[=] _].
Qed.

End PerRecord.

(** The statement of C3 at an archived record that is also favourited. *)
Lemma processBookmark_archived_filtered_witness :
  processBookmark (RT := Reference.runtime) archivedBookmark "notebook-1" taggedWorld
  = (Ok (result skipped_filtered "Archived"), taggedWorld).
Proof.
  apply (processBookmark_archived_filtered (RT := Reference.runtime)
           archivedBookmark "notebook-1" taggedWorld); reflexivity.
Defined.

(** The statement of C2 at a favourited record both of whose tags are
    excluded: the record is created. *)
Lemma processBookmark_favourite_keeps_tags_witness :
  hasExcludedTag (RT := Reference.runtime) (excludedTags (settings taggedWorld))
    favouriteBookmark = true
  ∧ ∃ pr w',
      processBookmark (RT := Reference.runtime) favouriteBookmark "notebook-1" taggedWorld
      = (Ok pr, w')
      ∧ status pr = created
      ∧ pr ≠ result skipped_filtered "Excluded tag".
Proof.
  split; [vm_compute; reflexivity |].
  eexists _, _. split; [vm_compute; reflexivity |]. split; [reflexivity |].
  eapply (processBookmark_favourite_keeps_tags (RT := Reference.runtime)
            favouriteBookmark "notebook-1" taggedWorld); [reflexivity |].
  vm_compute. reflexivity.
Defined.

(** ** The asset pipeline *)

Section AssetPipeline.

Context `{RT : Runtime}.

Lemma truthy_Some o : truthy o = true <-> ∃ p, o = Some p ∧ p ≠ "".
Proof.
  destruct o as [[|c s]|]; simpl; split; try done.
  - by intros (p & [= <-] & ?).
  - intros _. eauto.
  - by intros (p & [=] & _).
Qed.

Lemma downloadAndUploadAsset_wp settings assetUrl assetIdHint titleHint w :
  wp (downloadAndUploadAsset settings assetUrl assetIdHint titleHint) w
     (fun r _ =>
        ∃ o, r = Ok o
          ∧ ∀ p, o = Some p <->
              ∃ response buffer answer d,
                let fileName :=
                  assetFileName assetUrl assetIdHint titleHint
                    (or_else (content_type response) "application/octet-stream") in
                downloadAnswer w = Ok response ∧ http_ok response = true
                ∧ body response = Ok buffer
                ∧ Kernel.uploadAnswer fileName w = Ok answer
                ∧ code answer = 0 ∧ data answer = Some d
                ∧ succMap d !! fileName = Some p ∧ p ≠ "").
Proof.
  unfold downloadAndUploadAsset. wp_step. wp_step. wp_step. wp_step.
  eapply wp_mono with (Q := fun r w' => ∃ b, r = Ok b ∧ web w' = web w ∧ uploads w' = uploads w).
  { wp_auto; eauto. }
  intros r w1 (needsAuth & -> & Hweb & Hup).
  wp_step. wp_step.
  assert (downloadAnswer w1 = downloadAnswer w) as -> by (unfold downloadAnswer; by rewrite Hweb).
  destruct (downloadAnswer w) as [response|e] eqn:Hdl.
  2: { wp_auto. eexists; split; [done |]. intros p; split; [done |].
       by intros (? & ? & ? & ? & [=] & _). }
  wp_step.
  { wp_step. eapply wp_mono with (Q := fun r _ => r = Ok tt); [wp_auto; done |].
    intros r w2 ->. wp_auto. eexists; split; [done |]. intros p; split; [done |].
    apply negb_true_iff in Heqb. intros (? & ? & ? & ? & [= <-] & Hok & _). congruence. }
  apply negb_false_iff in Heqb.
  wp_step. wp_step. destruct (body response) as [buffer|e] eqn:Hbody.
  2: { wp_auto. eexists; split; [done |]. intros p; split; [done |].
       intros (? & ? & ? & ? & [= <-] & _ & Hb & _). congruence. }
  wp_step.
  eapply wp_mono with (Q := fun r w' => r = Ok tt ∧ uploads w' = uploads w).
  { wp_auto; done. }
  intros r w2 [-> Hup2]. wp_step. wp_step. wp_step. wp_step.
  set (fileName := assetFileName _ _ _ _).
  assert (Kernel.uploadAnswer fileName (record_line Info w2) = Kernel.uploadAnswer fileName w) as ->.
  { unfold Kernel.uploadAnswer. world_simpl. by rewrite Hup2. }
  destruct (Kernel.uploadAnswer fileName w) as [answer|e] eqn:Hans.
  2: { wp_auto. eexists; split; [done |]. intros p; split; [done |].
       intros (? & ? & ? & ? & [= <-] & _ & _ & Ha & _). fold fileName in Ha. congruence. }
  wp_step; [wp_step; [wp_step |] |].
  - wp_auto. eexists; split; [done |]. intros p. apply Z.eqb_eq in Heqb0.
    apply truthy_Some in Heqb1 as (q & Hq & Hne). split.
    + intros Hp. exists response, buffer, answer, u. fold fileName.
      rewrite Hq in Hp. injection Hp as <-. done.
    + intros (? & ? & ? & ? & [= <-] & _ & _ & Ha & _ & Hd & Hs & _).
      fold fileName in Ha, Hs. rewrite Hans in Ha. injection Ha as <-.
      rewrite Heqo in Hd. injection Hd as <-. done.
  - wp_auto. eexists; split; [done |]. intros p; split; [done |].
    intros (? & ? & ? & ? & [= <-] & _ & _ & Ha & _ & Hd & Hs & Hne).
    fold fileName in Ha, Hs. rewrite Hans in Ha. injection Ha as <-.
    rewrite Heqo in Hd. injection Hd as <-.
    assert (truthy (succMap u !! fileName) = true) by (apply truthy_Some; eauto).
    congruence.
  - wp_auto. eexists; split; [done |]. intros p; split; [done |].
    intros (? & ? & ? & ? & [= <-] & _ & _ & Ha & _ & Hd & _).
    fold fileName in Ha. rewrite Hans in Ha. injection Ha as <-. congruence.
  - wp_auto. eexists; split; [done |]. intros p; split; [done |].
    intros (? & ? & ? & ? & [= <-] & _ & _ & Ha & Hc & _).
    fold fileName in Ha. rewrite Hans in Ha. injection Ha as <-.
    apply Z.eqb_neq in Heqb0. done.
Qed.

(** C9, as amended.  The pipeline never throws: it returns a value in
    every world.  The value is a reference exactly when the download is
    answered with an OK status and a body, and the upload is answered
    with code 0 and a non-empty reference for the file name; it is that
    reference.  It is null in every other case, among them a download
    answered with a status that is not OK (404, 401, 403, ...) and a
    download that fails.  Whether the API endpoint and the asset URL
    parse as URLs plays no part. *)
Theorem downloadAndUploadAsset_never_throws
    (settings : KarakeepSyncSettings) (assetUrl assetIdHint titleHint : string) (w : World) :
  ∃ r w',
    downloadAndUploadAsset settings assetUrl assetIdHint titleHint w = (Ok r, w')
    ∧ (∀ p, r = Some p <->
         ∃ response buffer answer d,
           let fileName :=
             assetFileName assetUrl assetIdHint titleHint
               (or_else (content_type response) "application/octet-stream") in
           downloadAnswer w = Ok response ∧ http_ok response = true
           ∧ body response = Ok buffer
           ∧ Kernel.uploadAnswer fileName w = Ok answer
           ∧ code answer = 0 ∧ data answer = Some d
           ∧ succMap d !! fileName = Some p ∧ p ≠ "")
    ∧ (∀ response, downloadAnswer w = Ok response -> http_ok response = false -> r = None)
    ∧ (∀ e, downloadAnswer w = Throw e -> r = None).
Proof.
  pose proof (downloadAndUploadAsset_wp settings assetUrl assetIdHint titleHint w) as H.
  unfold wp in H.
  destruct (downloadAndUploadAsset settings assetUrl assetIdHint titleHint w) as [r' w'].
  simpl in H. destruct H as (r & -> & Hr). exists r, w'.
  split; [done |]. split; [exact Hr |]. split.
  - intros response Hd Hok. destruct r as [p|]; [| done].
    destruct (proj1 (Hr p) eq_refl) as (? & ? & ? & ? & Hd' & Hok' & _).
    rewrite Hd in Hd'. injection Hd' as <-. congruence.
  - intros e Hd. destruct r as [p|]; [| done].
    destruct (proj1 (Hr p) eq_refl) as (? & ? & ? & ? & Hd' & _). congruence.
Qed.

End AssetPipeline.

(** C9, the claim as stated fails where it counts a URL that does not
    parse among the failures that give null: with an endpoint that is
    not a URL the asset is fetched without credentials and stored. *)
Lemma downloadAndUploadAsset_url_counterexample :
  URL_parse (Runtime := Reference.runtime) (apiEndpoint brokenSettings) = None
  ∧ (downloadAndUploadAsset (RT := Reference.runtime) brokenSettings
       "https://example.com/cat.png" "asset-1" "Cat" (downloadWorld brokenSettings 200)).1
    = Ok (Some "assets/Karakeep-sync/cat.png").
Proof. split; vm_compute; reflexivity. Qed.

(** The amended statement at a download answered by 404. *)
Lemma downloadAndUploadAsset_never_throws_witness :
  (downloadAndUploadAsset (RT := Reference.runtime) (sampleSettings false [])
     "https://example.com/cat.png" "asset-1" "Cat"
     (downloadWorld (sampleSettings false []) 404)).1
  = Ok None.
Proof.
  destruct (downloadAndUploadAsset_never_throws (RT := Reference.runtime)
              (sampleSettings false []) "https://example.com/cat.png" "asset-1" "Cat"
              (downloadWorld (sampleSettings false []) 404))
    as (r & w' & -> & _ & H404 & _).
  simpl. f_equal. by eapply H404.
Defined.

(** ** Title derivation *)

Section TitleDerivation.

Context `{RT : Runtime}.




End TitleDerivation.



(** ** The update path *)

Lemma keeps_wp R {A} (m : M A) w : Keeps R m -> wp m w (fun _ w' => R w w').
Proof. intros H. apply H. Qed.

Lemma failed_code {D} n m : (code (@Kernel.failed D n m) =? 0) = false.
Proof. unfold Kernel.failed. simpl. destruct (Z.eqb_spec n 0); [done | by apply Z.eqb_neq]. Qed.

Section Update.

Context `{RT : Runtime}.

Lemma find_doc_Some i w d : Kernel.find_doc i w = Some d -> d ∈ docs w ∧ doc_id d = i.
Proof.
  unfold Kernel.find_doc. intros H. apply find_some in H as [Hin He].
  split; [by apply list_elem_of_In | by apply String.eqb_eq].
Qed.

Lemma shapes_remove i w :
  i ∉ (doc_id <$> filter (fun d => String.eqb (doc_id d) i = false) (docs w)).
Proof.
  intros (d & -> & Hd)%list_elem_of_fmap.
  apply list_elem_of_filter in Hd as [Hd _]. by rewrite String.eqb_refl in Hd.
Qed.

Lemma removeSiYuanDocById_wp docId w :
  wp (removeSiYuanDocById docId) w
     (fun r w1 =>
        ∃ deleted, r = Ok deleted
          ∧ calls w1 = (calls w ++ [RemoveDocByID docId])%list
          ∧ next_id w1 = next_id w
          ∧ if (deleted : bool)
            then docId ∈ (doc_id <$> docs w)
                 ∧ docs w1 = filter (fun d => String.eqb (doc_id d) docId = false) (docs w)
            else docs w1 = docs w).
Proof.
  unfold removeSiYuanDocById. wp_step. wp_step. wp_step. wp_step. apply wp_request.
  - intros fs _. world_simpl. unfold Kernel.removeDocByID.
    destruct (Kernel.find_doc docId _) as [d|] eqn:E; world_simpl.
    + wp_auto. exists true. repeat split; try done.
      apply find_doc_Some in E as [Hin <-]. world_simpl.
      apply list_elem_of_fmap. eauto.
    + wp_auto. by exists false.
  - intros n m fs _. wp_step.
    { by rewrite failed_code in Heqb. }
    wp_auto. by exists false.
  - intros m fs _. wp_auto. by exists false.
Qed.

Lemma createSiYuanDocWithMd_wp notebookId path md karakeepIdForLog w :
  wp (createSiYuanDocWithMd notebookId path md karakeepIdForLog) w
     (fun r w' =>
        calls w' = (calls w ++ [CreateDocWithMd notebookId path md])%list
        ∧ (r = Ok (Some (Kernel.fresh_id (next_id w)))
           ∧ shapes w' = (shapes w ++ [(Kernel.fresh_id (next_id w), notebookId, path)])%list
           ∧ next_id w' = S (next_id w)
           ∨ r = Ok None ∧ shapes w' = shapes w ∧ next_id w' = next_id w)).
Proof.
  unfold createSiYuanDocWithMd. wp_step. wp_step. wp_step. wp_step. apply wp_request.
  - intros fs _. world_simpl. wp_auto. split; [done |]. left.
    unfold shapes. world_simpl. by rewrite fmap_app.
  - intros n m fs _. wp_step.
    { by rewrite failed_code in Heqb. }
    wp_auto. split; [done |]. by right.
  - intros m fs _. wp_auto. split; [done |]. by right.
Qed.

Lemma setBlockAttrs_sameDocs i a w : sameDocs w (Kernel.setBlockAttrs i a w).2.
Proof.
  unfold Kernel.setBlockAttrs. destruct (Kernel.find_doc i w); [| reflexivity].
  split; [| by split]. unfold shapes. world_simpl.
  rewrite <- list_fmap_compose. apply list_fmap_ext. intros ? x _. simpl.
  by destruct (String.eqb (doc_id x) i).
Qed.

Lemma setSiYuanDocAttributes_sameDocs docRootId bookmark title :
  Keeps sameDocs (setSiYuanDocAttributes docRootId bookmark title).
Proof. unfold setSiYuanDocAttributes. keeps_auto. apply setBlockAttrs_sameDocs. Qed.

Lemma createNewSiYuanDocument_wp bookmark notebookId title path w :
  wp (createNewSiYuanDocument bookmark notebookId title path) w
     (fun r w2 =>
        ∃ createResult l, r = Ok createResult
          ∧ calls w2 = (calls w ++ l)%list
          ∧ (status createResult = created ->
             shapes w2 = (shapes w ++ [(Kernel.fresh_id (next_id w), notebookId, path)])%list
             ∧ ∃ md, CreateDocWithMd notebookId path md ∈ l)
          ∧ (status createResult ≠ created ->
             status createResult = error
             ∧ (shapes w2 = shapes w
                ∨ shapes w2
                  = (shapes w ++ [(Kernel.fresh_id (next_id w), notebookId, path)])%list))).
Proof.
  unfold createNewSiYuanDocument. wp_step. wp_step.
  eapply wp_mono; [apply (keeps_wp sameDocs), (formatBookmarkAsMarkdown_keeps sameDocs) |].
  intros [md|e] w1 (Hs1 & Hn1 & [l1 Hc1]).
  2: { wp_auto. unfold shapes in *. world_simpl.
       eexists _, l1. repeat split; try done. by left. }
  wp_step.
  eapply wp_mono; [apply createSiYuanDocWithMd_wp |].
  intros r w2 [Hc2 [(-> & Hs2 & Hn2) | (-> & Hs2 & Hn2)]].
  2: { wp_auto. eexists _, (l1 ++ [_])%list. repeat split; try done.
       - by rewrite Hc2, Hc1, app_assoc.
       - left. congruence. }
  wp_step.
  eapply wp_mono; [apply (keeps_wp sameDocs), setSiYuanDocAttributes_sameDocs |].
  intros [[]|e] w3 (Hs3 & Hn3 & [l3 Hc3]).
  - wp_auto. eexists _, ((l1 ++ [CreateDocWithMd notebookId path md]) ++ l3)%list.
    split; [done |]. split; [by rewrite Hc3, Hc2, Hc1, !app_assoc |]. split; [| done].
    intros _. split; [congruence |]. exists md. set_solver.
  - wp_auto. unfold shapes in *. world_simpl.
    eexists _, ((l1 ++ [CreateDocWithMd notebookId path md]) ++ l3)%list.
    split; [done |]. split; [by rewrite Hc3, Hc2, Hc1, !app_assoc |]. split; [done |].
    intros _. split; [done |]. right. congruence.
Qed.

Lemma doc_ids_shapes w : doc_id <$> docs w = (fun s => s.1.1) <$> shapes w.
Proof. unfold shapes. rewrite <- list_fmap_compose. done. Qed.

(** C7.  An update deletes the existing document first.  When the
    deletion fails the outcome is [error] and nothing else is asked of
    the store: no creation is attempted.  When it succeeds the document
    is created again by the creation path of a new record, at the same
    path, and in the world this leaves the old document does not exist
    any more: if the creation succeeds the outcome is [updated] and a
    document lies at the path in the notebook, if it fails the outcome
    is the [error] of the creation. *)
Theorem updateSiYuanDocument_delete_then_recreate
    (existingDocId : string) (bookmark : KarakeepBookmark) (notebookId title path : string)
    (w : World) :
  ids_fresh w ->
  ∃ deleted w1,
    removeSiYuanDocById existingDocId w = (Ok deleted, w1)
    ∧ calls w1 = (calls w ++ [RemoveDocByID existingDocId])%list
    ∧ if (deleted : bool)
      then
        ∃ createResult w2 l,
          createNewSiYuanDocument bookmark notebookId title path (record_line Info w1)
          = (Ok createResult, w2)
          ∧ calls w2 = (calls w1 ++ l)%list
          ∧ (existingDocId ∉ (doc_id <$> docs w2))
          ∧ (status createResult = created ->
             updateSiYuanDocument existingDocId bookmark notebookId title path w
             = (Ok {| status := updated; message := None |}, w2)
             ∧ (∃ md, CreateDocWithMd notebookId path md ∈ l)
             ∧ (∃ d, d ∈ docs w2 ∧ box d = notebookId ∧ hpath d = path))
          ∧ (status createResult ≠ created ->
             status createResult = error
             ∧ updateSiYuanDocument existingDocId bookmark notebookId title path w
               = (Ok createResult, record_line Error w2))
      else
        updateSiYuanDocument existingDocId bookmark notebookId title path w
        = (Ok (result error ("Failed to delete old doc " +:+ existingDocId)), w1).
Proof.
  intros Hfresh.
  destruct (removeSiYuanDocById existingDocId w) as [r w1] eqn:Hrm.
  destruct (wp_eq _ _ _ (removeSiYuanDocById_wp existingDocId w) _ _ Hrm)
    as (deleted & -> & Hc1 & Hn1 & Hd1).
  exists deleted, w1. split; [done |]. split; [exact Hc1 |].
  unfold updateSiYuanDocument. rewrite (run_bind _ _ _ _ _ Hrm).
  destruct deleted; simpl; [| done].
  destruct Hd1 as [Hin Hd1]. unfold logInfo. rewrite run_modify.
  destruct (createNewSiYuanDocument bookmark notebookId title path (record_line Info w1))
    as [r2 w2] eqn:Hcr.
  destruct (wp_eq _ _ _ (createNewSiYuanDocument_wp bookmark notebookId title path
                           (record_line Info w1)) _ _ Hcr)
    as (createResult & l & -> & Hc2 & Hok & Hfail).
  exists createResult, w2, l. split; [done |]. split; [exact Hc2 |].
  assert (existingDocId ≠ Kernel.fresh_id (next_id w)) as Hne.
  { apply list_elem_of_fmap in Hin as (d & -> & Hd). by apply (Hfresh d). }
  assert (existingDocId ∉ ((fun s : string * string * string => s.1.1)
                             <$> shapes (record_line Info w1))) as Hgone.
  { rewrite <- doc_ids_shapes. world_simpl. rewrite Hd1. apply shapes_remove. }
  assert (shapes w2 = shapes (record_line Info w1)
          ∨ shapes w2 = (shapes (record_line Info w1)
                         ++ [(Kernel.fresh_id (next_id w), notebookId, path)])%list) as Hsh.
  { destruct (decide (status createResult = created)) as [E | E].
    - right. destruct (Hok E) as [-> _]. world_simpl. by rewrite Hn1.
    - destruct (Hfail E) as [_ [-> | ->]]; [by left | right].
      world_simpl. by rewrite Hn1. }
  split.
  { rewrite doc_ids_shapes. destruct Hsh as [-> | ->]; [done |].
    rewrite fmap_app. simpl. apply not_elem_of_app. split; [done |].
    apply not_elem_of_cons. split; [done | apply not_elem_of_nil]. }
  split.
  - intros E. rewrite (run_bind _ _ _ _ _ Hcr), E. split; [done |].
    destruct (Hok E) as [Hs [md Hmd]]. split; [by exists md |].
    assert ((Kernel.fresh_id (next_id (record_line Info w1)), notebookId, path) ∈ shapes w2)
      as Hel by (rewrite Hs; set_solver).
    unfold shapes in Hel. apply list_elem_of_fmap in Hel as (d & Hd & Hdin).
    exists d. unfold shape in Hd. injection Hd as _ <- <-. done.
  - intros E. destruct (Hfail E) as [He _]. split; [exact He |].
    rewrite (run_bind _ _ _ _ _ Hcr).
    rewrite bool_decide_eq_false_2 by done. reflexivity.
Qed.

End Update.

(** The statement of C7 in a world where the kernel deletes the document
    and refuses to create it again: the outcome is the error of the
    creation and the old document is gone. *)
Lemma updateSiYuanDocument_delete_then_recreate_witness :
  ids_fresh refusingWorld
  ∧ (updateSiYuanDocument (RT := Reference.runtime) "20240301-doc" marchBookmark
       "notebook-1" "March" "/2024-03-01-March" refusingWorld).1
    = Ok (result error "Failed to create document via API.")
  ∧ "20240301-doc" ∉
      (doc_id <$> docs (updateSiYuanDocument (RT := Reference.runtime) "20240301-doc"
                          marchBookmark "notebook-1" "March" "/2024-03-01-March"
                          refusingWorld).2).
Proof.
  assert (ids_fresh refusingWorld) as Hfresh.
  { intros d n Hd _. apply list_elem_of_singleton in Hd as ->.
    unfold Kernel.fresh_id. simpl. rewrite !string_app_cons. discriminate. }
  split; [exact Hfresh |].
  destruct (updateSiYuanDocument_delete_then_recreate (RT := Reference.runtime)
              "20240301-doc" marchBookmark "notebook-1" "March" "/2024-03-01-March"
              refusingWorld Hfresh) as (deleted & w1 & Hrm & _ & H).
  vm_compute in Hrm. injection Hrm as <- <-.
  destruct H as (createResult & w2 & l & Hcr & _ & Hgone & _ & Hfail).
  vm_compute in Hcr. injection Hcr as <- <-.
  destruct Hfail as [_ Hrun]; [discriminate |].
  rewrite Hrun. split; [reflexivity | exact Hgone].
Defined.

(** ** The synchronisation cycle *)

Section Run.

Context `{RT : Runtime}.

(** A request to the Karakeep API uses up the next page, and returns it
    when it is an OK answer whose body is a response. *)
Lemma fetchKarakeepBookmarks_wp cursor w :
  wp (fetchKarakeepBookmarks cursor) w
     (fun r w' =>
        settings w' = settings w ∧ i18n w' = i18n w ∧ now w' = now w
        ∧ source w' = tail (source w)
        ∧ ∀ response, r = Ok response ->
            ∃ p, head (source w) = Some (Ok p) ∧ page_json p = Ok response).
Proof.
  unfold fetchKarakeepBookmarks. wp_step. wp_step. wp_step.
  eapply wp_mono with
    (Q := fun r w' =>
            settings w' = settings w ∧ i18n w' = i18n w ∧ now w' = now w
            ∧ source w' = tail (source w)
            ∧ ∀ p, r = Ok p -> head (source w) = Some (Ok p)).
  { wp_step. wp_step. wp_step. world_simpl.
    unfold pageAnswer. world_simpl.
    destruct (source w) as [|[p|e] rest]; simpl.
    - wp_auto. by repeat split.
    - wp_step.
      + wp_step. wp_step. destruct (page_text p); wp_auto; by repeat split.
      + wp_auto. repeat split; try done. by intros ? [= <-].
    - wp_auto. by repeat split. }
  intros [p|e] w' (Hs & Hi & Hn & Hsrc & Hp); simpl; [| by repeat split].
  wp_step. repeat split; try done.
  intros response Hr. exists p. split; [by apply Hp | done].
Qed.

Lemma processPage_keeps bookmarks notebookId processed stats :
  Keeps sameEnv (processPage bookmarks notebookId processed stats).
Proof.
  revert processed stats.
  induction bookmarks as [|b rest IH]; intros processed stats; simpl; keeps_auto;
    first [apply IH | apply (processBookmark_keeps sameEnv)].
Qed.

Lemma tally_count s st : tally (count s st) = S (tally st).
Proof. destruct s; unfold tally; simpl; lia. Qed.

(** Along a page the records counted are the ids added to the set. *)
Lemma processPage_tally bookmarks notebookId processed stats w :
  wp (processPage bookmarks notebookId processed stats) w
     (fun r _ => ∀ processed' stats', r = Ok (processed', stats') ->
        processed' = processed ∪ list_to_set (id <$> bookmarks)
        ∧ (tally stats' + size processed = tally stats + size processed')%nat).
Proof.
  revert processed stats w.
  induction bookmarks as [|b rest IH]; intros processed stats w; simpl.
  - wp_step. intros ? ? [= <- <-]. split; [set_solver | done].
  - wp_step.
    + apply bool_decide_eq_true in Heqb0. wp_step. wp_step.
      eapply wp_mono; [apply IH |]. intros r w' H processed' stats' Hr.
      destruct (H _ _ Hr) as [-> Ht]. split; [set_solver | done].
    + apply bool_decide_eq_false in Heqb0. wp_step.
      apply wp_any. intros [pr|e] w1; [| done].
      wp_step. eapply wp_mono with (Q := fun r _ => r = Ok tt); [wp_auto; done |].
      intros ? w2 ->. eapply wp_mono; [apply IH |].
      intros r w' H processed' stats' Hr.
      destruct (H _ _ Hr) as [-> Ht]. split; [set_solver |].
      rewrite tally_count in Ht.
      rewrite size_union, size_singleton in Ht by set_solver. lia.
Qed.

Lemma processPage_wp bookmarks notebookId processed stats w :
  wp (processPage bookmarks notebookId processed stats) w
     (fun r w' =>
        sameEnv w w'
        ∧ ∀ processed' stats', r = Ok (processed', stats') ->
            processed' = processed ∪ list_to_set (id <$> bookmarks)
            ∧ (tally stats' + size processed = tally stats + size processed')%nat).
Proof.
  split; [apply processPage_keeps | apply processPage_tally].
Qed.

Lemma idsOf_cons r pages : idsOf (r :: pages) = pageIds r ∪ idsOf pages.
Proof. unfold idsOf. simpl. done. Qed.

Lemma idsOf_nil : idsOf [] = ∅.
Proof. done. Qed.

(** The loop over the pages: it uses up a prefix of the pages to come;
    it runs out of fuel only after as many pages as it had fuel; when it
    completes, the records counted are the ids of these pages that were
    not processed before. *)
Lemma syncPages_wp fuel notebookId cursor processed stats w :
  wp (syncPages fuel notebookId cursor processed stats) w
     (fun r w' =>
        settings w' = settings w ∧ i18n w' = i18n w ∧ now w' = now w
        ∧ ∃ pages, source w = (pages ++ source w')%list
            ∧ (r = Ok None -> length pages = fuel)
            ∧ ∀ stats', r = Ok (Some stats') ->
                (tally stats' + size processed
                 = tally stats + size (processed ∪ idsOf pages))%nat).
Proof.
  revert cursor processed stats w.
  induction fuel as [|fuel IH]; intros cursor processed stats w; simpl.
  { wp_step. do 3 (split; [done |]). exists []. split; [done |].
    split; [done | by intros ? [=]]. }
  wp_step. wp_step. wp_step.
  eapply wp_mono; [apply fetchKarakeepBookmarks_wp |].
  intros [response|e] w1 (Hs1 & Hi1 & Hn1 & Hsrc1 & Hp); world_simpl.
  2: { do 3 (split; [done |]). exists (take 1 (source w)).
       split; [| split; [done | by intros ? [=]]].
       rewrite Hsrc1. by destruct (source w). }
  destruct (Hp _ eq_refl) as (p & Hhead & Hjson).
  destruct (source w) as [|x rest] eqn:Hsrc; [done |]. injection Hhead as ->.
  simpl in Hsrc1.
  wp_step. wp_step. wp_step.
  eapply wp_mono; [apply processPage_wp |].
  intros [[processed1 stats1]|e] w2 [(Hs2 & Hi2 & Hn2 & Hsrc2) Ht]; world_simpl.
  2: { do 3 (split; [congruence |]). exists [Ok p].
       split; [| split; [done | by intros ? [=]]].
       simpl. congruence. }
  destruct (Ht _ _ eq_refl) as [-> Ht1].
  wp_step. wp_step. wp_step.
  - eapply wp_mono; [apply IH |].
    intros r w3 (Hs3 & Hi3 & Hn3 & pages & Hsrc3 & Hfuel & Htally); world_simpl.
    do 3 (split; [congruence |]).
    exists (Ok p :: pages). split; [| split].
    + simpl. f_equal. congruence.
    + intros Hr. simpl. f_equal. by apply Hfuel.
    + intros stats' Hr. specialize (Htally _ Hr).
      rewrite idsOf_cons. unfold pageIds at 1. rewrite Hjson.
      replace (processed ∪ (list_to_set (id <$> default [] (bookmarks response))
                            ∪ idsOf pages))
        with (processed ∪ list_to_set (id <$> default [] (bookmarks response))
              ∪ idsOf pages) by set_solver.
      lia.
  - wp_step. world_simpl. do 3 (split; [congruence |]).
    exists [Ok p]. split; [| split].
    + simpl. congruence.
    + by intros [=].
    + intros stats' [= <-].
      rewrite idsOf_cons, idsOf_nil. unfold pageIds. rewrite Hjson.
      replace (processed ∪ (list_to_set (id <$> default [] (bookmarks response)) ∪ ∅))
        with (processed ∪ list_to_set (id <$> default [] (bookmarks response)))
        by set_solver.
      lia.
Qed.

Lemma syncAttempt_wp fuel w :
  wp (syncAttempt fuel) w
     (fun r w' =>
        ∃ outcome, r = Ok outcome ∧ i18n w' = i18n w ∧ now w' = now w
          ∧ match outcome with
            | Completed stats =>
                settings w' = stamp (now w) (settings w)
                ∧ ∃ pages, source w = (pages ++ source w')%list
                    ∧ tally stats = size (idsOf pages)
            | CriticalError _ => settings w' = settings w
            | Unfinished => (fuel <= length (source w))%nat ∧ settings w' = settings w
            end).
Proof.
  unfold syncAttempt. wp_auto.
  1, 2: by (eexists; repeat split).
  eapply wp_mono; [apply syncPages_wp |].
  intros [[stats|]|e] w1 (Hs & Hi & Hn & pages & Hsrc & Hfuel & Htally); world_cbn.
  - wp_auto. world_cbn. eexists. split; [done |]. do 2 (split; [done |]).
    split; [unfold stampLastSync; simpl; congruence |].
    exists pages. split; [done |]. specialize (Htally _ eq_refl).
    rewrite size_empty, (left_id_L ∅ (∪)) in Htally.
    change (tally noStats) with 0%nat in Htally. lia.
  - wp_auto. eexists. split; [done |]. do 2 (split; [done |]).
    split; [| done]. rewrite Hsrc, length_app, (Hfuel eq_refl). lia.
  - wp_auto. eexists. by repeat split.
Qed.

Lemma completeMessage_returns stats w : ∃ m, completeMessage stats w = (Ok m, w).
Proof. unfold completeMessage. eexists. reflexivity. Qed.

(** A record whose id was processed already is skipped: the loop goes on
    with the same set and the same counters, in the same world but for a
    warning on the console. *)
Lemma processPage_duplicate bookmark rest notebookId processed stats w :
  id bookmark ∈ processed ->
  processPage (bookmark :: rest) notebookId processed stats w
  = processPage rest notebookId processed stats (record_line Warn w).
Proof. intros Hin. simpl. by rewrite bool_decide_eq_true_2. Qed.

(** C6.  The set of ids seen is kept over all pages of a run: a run that
    completes has counted, over its five counters together, as many
    outcomes as there are distinct ids on the pages it fetched, so an id
    that the source returns on two pages counts once.  A record whose
    id is in the set is skipped: no counter moves, no request is sent,
    the only trace is a warning on the console. *)
Theorem runSyncCycle_counts_each_id_once (fuel : nat) (w w' : World) (stats : Stats) :
  syncAttempt fuel w = (Ok (Completed stats), w') ->
  (∃ pages, source w = (pages ++ source w')%list ∧ tally stats = size (idsOf pages))
  ∧ (∀ bookmark rest notebookId processed counters w0,
       id bookmark ∈ processed ->
       processPage (bookmark :: rest) notebookId processed counters w0
       = processPage rest notebookId processed counters (record_line Warn w0)
       ∧ calls (record_line Warn w0) = calls w0
       ∧ docs (record_line Warn w0) = docs w0).
Proof.
  intros Hrun. split.
  - destruct (wp_eq _ _ _ (syncAttempt_wp fuel w) _ _ Hrun)
      as (outcome & [= <-] & _ & _ & _ & H). exact H.
  - intros. split; [by apply processPage_duplicate | done].
Qed.

Lemma errorCount_count s st : (errorCount st <= errorCount (count s st))%nat.
Proof. destruct s; simpl; lia. Qed.

Lemma processPage_step bookmark rest notebookId processed stats w r w1 :
  id bookmark ∉ processed ->
  processBookmark bookmark notebookId w = (Ok r, w1) ->
  processPage (bookmark :: rest) notebookId processed stats w
  = processPage rest notebookId ({[id bookmark]} ∪ processed) (count (status r) stats)
      (afterRecord r w1).
Proof.
  intros Hnew Hrun. simpl. rewrite bool_decide_eq_false_2 by done.
  rewrite (run_bind _ _ _ _ _ Hrun). unfold afterRecord.
  by destruct (bool_decide (status r = error)).
Qed.

(** The error counter never goes down along a page. *)
Lemma processPage_errors_grow bookmarks notebookId processed stats w :
  wp (processPage bookmarks notebookId processed stats) w
     (fun r _ => ∀ processed' stats', r = Ok (processed', stats') ->
        (errorCount stats <= errorCount stats')%nat).
Proof.
  revert processed stats w.
  induction bookmarks as [|b rest IH]; intros processed stats w.
  - simpl. wp_step. by intros ? ? [= _ <-].
  - apply wp_intro. intros res w' Hpage processed' stats' ->.
    destruct (decide (id b ∈ processed)) as [Hin | Hnew].
    + rewrite processPage_duplicate in Hpage by done.
      exact (wp_eq _ _ _ (IH _ _ _) _ _ Hpage _ _ eq_refl).
    + destruct (processBookmark b notebookId w) as [[r|e] w1] eqn:Hrun.
      * rewrite (processPage_step _ _ _ _ _ _ _ _ Hnew Hrun) in Hpage.
        pose proof (wp_eq _ _ _ (IH _ _ _) _ _ Hpage _ _ eq_refl) as H.
        pose proof (errorCount_count (status r) stats). lia.
      * simpl in Hpage. rewrite bool_decide_eq_false_2 in Hpage by done.
        by rewrite (run_bind_throw _ _ _ _ _ Hrun) in Hpage.
Qed.

(** A record that ends in [error] moves the error counter of its page. *)
Lemma pageYields_error notebookId bookmarks processed w b r :
  PageYields notebookId bookmarks processed w b r ->
  status r = error ->
  ∀ stats processed' stats' w',
    processPage bookmarks notebookId processed stats w = (Ok (processed', stats'), w') ->
    (errorCount stats < errorCount stats')%nat.
Proof.
  intros Hy He.
  induction Hy as [bookmark rest processed w b r Hin Hy IH
                  | bookmark rest processed w r w1 Hnew Hrun
                  | bookmark rest processed w r0 w1 b r Hnew Hrun Hy IH];
    intros stats processed' stats' w' Hpage.
  - rewrite processPage_duplicate in Hpage by done. by eapply IH.
  - rewrite (processPage_step _ _ _ _ _ _ _ _ Hnew Hrun), He in Hpage.
    pose proof (wp_eq _ _ _ (processPage_errors_grow _ _ _ _ _) _ _ Hpage _ _ eq_refl) as H.
    simpl in H. lia.
  - rewrite (processPage_step _ _ _ _ _ _ _ _ Hnew Hrun) in Hpage.
    specialize (IH He _ _ _ _ Hpage).
    pose proof (errorCount_count (status r0) stats). lia.
Qed.

(** The error counter never goes down along the pages. *)
Lemma syncPages_errors_grow fuel notebookId cursor processed stats w :
  wp (syncPages fuel notebookId cursor processed stats) w
     (fun r _ => ∀ stats', r = Ok (Some stats') -> (errorCount stats <= errorCount stats')%nat).
Proof.
  revert cursor processed stats w.
  induction fuel as [|fuel IH]; intros cursor processed stats w; simpl.
  { wp_step. by intros ? [=]. }
  wp_step. wp_step. wp_step. apply wp_any. intros [response|e] w1; [| by intros ? [=]].
  wp_step. wp_step. wp_step.
  eapply wp_mono; [apply processPage_errors_grow |].
  intros [[processed1 stats1]|e] w2 H; [| by intros ? [=]].
  specialize (H _ _ eq_refl). wp_step. wp_step. wp_step.
  - eapply wp_mono; [apply IH |]. intros ? ? H' ? Hr. specialize (H' _ Hr). lia.
  - wp_step. by intros ? [= <-].
Qed.

Lemma syncPages_step fuel notebookId cursor processed stats w response w1 :
  fetchKarakeepBookmarks cursor (record_line Info w) = (Ok response, w1) ->
  syncPages (S fuel) notebookId cursor processed stats w
  = ('(processed', stats') ←
       processPage (default [] (bookmarks response)) notebookId processed stats;
     _ ← logInfo;
     if truthy (nextCursor response)
     then syncPages fuel notebookId (nextCursor response) processed' stats'
     else mret (Some stats')) (record_line Info w1).
Proof.
  intros Hfetch. cbn [syncPages]. unfold logInfo. rewrite run_modify.
  rewrite (run_bind _ _ _ _ _ Hfetch). by rewrite run_modify.
Qed.

(** A record that ends in [error] moves the error counter of the run. *)
Lemma runYields_error notebookId fuel cursor processed stats w b r :
  RunYields notebookId fuel cursor processed stats w b r ->
  status r = error ->
  ∀ stats' w',
    syncPages fuel notebookId cursor processed stats w = (Ok (Some stats'), w') ->
    (errorCount stats < errorCount stats')%nat.
Proof.
  intros Hy He.
  induction Hy as [fuel cursor processed stats w response w1 b r Hfetch Hpage
                  | fuel cursor processed stats w response w1 processed' stats1 w2 b r
                      Hfetch Hpage Hcursor Hy IH];
    intros stats' w' Hrun; rewrite (syncPages_step _ _ _ _ _ _ _ _ Hfetch) in Hrun.
  - destruct (processPage (default [] (bookmarks response)) notebookId processed stats
                (record_line Info w1)) as [[[processed1 stats1]|e] w2] eqn:Hp.
    2: { by rewrite (run_bind_throw _ _ _ _ _ Hp) in Hrun. }
    rewrite (run_bind _ _ _ _ _ Hp) in Hrun.
    pose proof (pageYields_error _ _ _ _ _ _ Hpage He _ _ _ _ Hp) as Hlt.
    unfold logInfo in Hrun. rewrite run_modify in Hrun.
    destruct (truthy (nextCursor response)).
    + pose proof (wp_eq _ _ _ (syncPages_errors_grow _ _ _ _ _ _) _ _ Hrun _ eq_refl). lia.
    + injection Hrun as <- _. lia.
  - rewrite (run_bind _ _ _ _ _ Hpage) in Hrun.
    unfold logInfo in Hrun. rewrite run_modify, Hcursor in Hrun.
    specialize (IH He _ _ Hrun).
    pose proof (wp_eq _ _ _ (processPage_errors_grow _ _ _ _ _) _ _ Hpage _ _ eq_refl). lia.
Qed.

(** A run that processes a record ending in [error] and completes has a
    positive error counter. *)
Lemma cycleYields_error fuel w b r stats w' :
  CycleYields fuel w b r -> status r = error ->
  syncAttempt fuel w = (Ok (Completed stats), w') ->
  (0 < errorCount stats)%nat.
Proof.
  intros Hy He Hrun. unfold CycleYields in Hy.
  unfold syncAttempt in Hrun. unfold try_catch in Hrun.
  unfold logInfo in Hrun. rewrite run_modify, run_get in Hrun.
  cbn [settings record_line] in Hrun.
  destruct (negb (nonempty (apiKey (settings w)))).
  { unfold tr at 1 in Hrun. rewrite run_get in Hrun. by cbn in Hrun. }
  destruct (negb (truthy (syncNotebookId (settings w)))).
  { unfold tr at 1 in Hrun. rewrite run_get in Hrun. by cbn in Hrun. }
  rewrite run_modify in Hrun.
  destruct (syncPages fuel (or_else (syncNotebookId (settings w)) "") None ∅ noStats
              (record_line Info (record_line Info w))) as [[[stats1|]|e] w1] eqn:Hp.
  - rewrite (run_bind _ _ _ _ _ Hp) in Hrun. cbn in Hrun. injection Hrun as <- _.
    pose proof (runYields_error _ _ _ _ _ _ _ _ Hy He _ _ Hp) as H. simpl in H. lia.
  - rewrite (run_bind _ _ _ _ _ Hp) in Hrun. by cbn in Hrun.
  - rewrite (run_bind_throw _ _ _ _ _ Hp) in Hrun. by cbn in Hrun.
Qed.

(** An attempt that completes is a loop over the pages that completes,
    and it uses up no page after the loop. *)
Lemma syncAttempt_completed fuel w stats w' :
  syncAttempt fuel w = (Ok (Completed stats), w') ->
  ∃ w1,
    syncPages fuel (or_else (syncNotebookId (settings w)) "") None ∅ noStats
      (record_line Info (record_line Info w)) = (Ok (Some stats), w1)
    ∧ source w' = source w1.
Proof.
  intros Hrun. unfold syncAttempt in Hrun. unfold try_catch in Hrun.
  unfold logInfo in Hrun. rewrite run_modify, run_get in Hrun.
  cbn [settings record_line] in Hrun.
  destruct (negb (nonempty (apiKey (settings w)))).
  { unfold tr at 1 in Hrun. rewrite run_get in Hrun. by cbn in Hrun. }
  destruct (negb (truthy (syncNotebookId (settings w)))).
  { unfold tr at 1 in Hrun. rewrite run_get in Hrun. by cbn in Hrun. }
  rewrite run_modify in Hrun.
  destruct (syncPages fuel (or_else (syncNotebookId (settings w)) "") None ∅ noStats
              (record_line Info (record_line Info w))) as [[[stats1|]|e] w1] eqn:Hp.
  - rewrite (run_bind _ _ _ _ _ Hp) in Hrun. cbn in Hrun. injection Hrun as <- <-.
    by exists w1.
  - rewrite (run_bind _ _ _ _ _ Hp) in Hrun. by cbn in Hrun.
  - rewrite (run_bind_throw _ _ _ _ _ Hp) in Hrun. by cbn in Hrun.
Qed.

Lemma errorCount_count_other s st : s ≠ error -> errorCount (count s st) = errorCount st.
Proof. by destruct s. Qed.

(** An error counted along a page is the outcome of a record of the
    page. *)
Lemma processPage_error_yielded bookmarks notebookId processed stats w processed' stats' w' :
  processPage bookmarks notebookId processed stats w = (Ok (processed', stats'), w') ->
  (errorCount stats < errorCount stats')%nat ->
  ∃ b r, PageYields notebookId bookmarks processed w b r ∧ status r = error.
Proof.
  revert processed stats w.
  induction bookmarks as [|b rest IH]; intros processed stats w Hpage Hlt.
  - injection Hpage as _ <- _. lia.
  - destruct (decide (id b ∈ processed)) as [Hin | Hnew].
    + rewrite processPage_duplicate in Hpage by done.
      destruct (IH _ _ _ Hpage Hlt) as (b' & r & Hy & He).
      exists b', r. split; [by apply yields_after_duplicate | done].
    + destruct (processBookmark b notebookId w) as [[r0|e] w1] eqn:Hrun.
      2: { simpl in Hpage. rewrite bool_decide_eq_false_2 in Hpage by done.
           by rewrite (run_bind_throw _ _ _ _ _ Hrun) in Hpage. }
      rewrite (processPage_step _ _ _ _ _ _ _ _ Hnew Hrun) in Hpage.
      destruct (decide (status r0 = error)) as [He | Hne].
      * exists b, r0. split; [by eapply yields_here | done].
      * rewrite <- (errorCount_count_other _ stats Hne) in Hlt.
        destruct (IH _ _ _ Hpage Hlt) as (b' & r & Hy & He).
        exists b', r. split; [by eapply yields_later | done].
Qed.

(** The loop goes through the whole page, whatever the outcomes are:
    every record of the page is processed, unless a record with its id
    was processed before. *)
Lemma processPage_all_yielded bookmarks notebookId processed stats w processed' stats' w' :
  processPage bookmarks notebookId processed stats w = (Ok (processed', stats'), w') ->
  ∀ i, i ∈ id <$> bookmarks ->
    i ∈ processed ∨ ∃ b r, id b = i ∧ PageYields notebookId bookmarks processed w b r.
Proof.
  revert processed stats w.
  induction bookmarks as [|b rest IH]; intros processed stats w Hpage i Hi.
  - by apply elem_of_nil in Hi.
  - rewrite fmap_cons in Hi. destruct (decide (id b ∈ processed)) as [Hin | Hnew].
    + rewrite processPage_duplicate in Hpage by done.
      apply elem_of_cons in Hi as [-> | Hi]; [by left |].
      destruct (IH _ _ _ Hpage i Hi) as [? | (b' & r & Hb & Hy)]; [by left |].
      right. exists b', r. split; [done | by apply yields_after_duplicate].
    + destruct (processBookmark b notebookId w) as [[r0|e] w1] eqn:Hrun.
      2: { simpl in Hpage. rewrite bool_decide_eq_false_2 in Hpage by done.
           by rewrite (run_bind_throw _ _ _ _ _ Hrun) in Hpage. }
      assert (∃ b' r, id b' = id b ∧ PageYields notebookId (b :: rest) processed w b' r)
        as Hhere by (exists b, r0; split; [done | by eapply yields_here]).
      rewrite (processPage_step _ _ _ _ _ _ _ _ Hnew Hrun) in Hpage.
      apply elem_of_cons in Hi as [-> | Hi]; [by right |].
      destruct (IH _ _ _ Hpage i Hi) as [Hin | (b' & r & Hb & Hy)].
      * apply elem_of_union in Hin as [->%elem_of_singleton | Hin]; [by right | by left].
      * right. exists b', r. split; [done | by eapply yields_later].
Qed.

(** An error counted by the loop over the pages is the outcome of a
    record of one of its pages. *)
Lemma syncPages_error_yielded fuel notebookId cursor processed stats w stats' w' :
  syncPages fuel notebookId cursor processed stats w = (Ok (Some stats'), w') ->
  (errorCount stats < errorCount stats')%nat ->
  ∃ b r, RunYields notebookId fuel cursor processed stats w b r ∧ status r = error.
Proof.
  revert cursor processed stats w.
  induction fuel as [|fuel IH]; intros cursor processed stats w Hrun Hlt; [done |].
  destruct (fetchKarakeepBookmarks cursor (record_line Info w)) as [[response|e] w1] eqn:Hfetch.
  2: { cbn [syncPages] in Hrun. unfold logInfo in Hrun. rewrite run_modify in Hrun.
       by rewrite (run_bind_throw _ _ _ _ _ Hfetch) in Hrun. }
  rewrite (syncPages_step _ _ _ _ _ _ _ _ Hfetch) in Hrun.
  destruct (processPage (default [] (bookmarks response)) notebookId processed stats
              (record_line Info w1)) as [[[processed1 stats1]|e] w2] eqn:Hpage.
  2: { by rewrite (run_bind_throw _ _ _ _ _ Hpage) in Hrun. }
  rewrite (run_bind _ _ _ _ _ Hpage) in Hrun. unfold logInfo in Hrun.
  rewrite run_modify in Hrun.
  destruct (decide (errorCount stats < errorCount stats1)%nat) as [Hhere | Hnot].
  { destruct (processPage_error_yielded _ _ _ _ _ _ _ _ Hpage Hhere) as (b & r & Hy & He).
    exists b, r. split; [by eapply yields_on_page | done]. }
  destruct (truthy (nextCursor response)) eqn:Hcursor.
  - destruct (IH _ _ _ _ Hrun ltac:(lia)) as (b & r & Hy & He).
    exists b, r. split; [by eapply yields_on_later_page | done].
  - injection Hrun as <- _. lia.
Qed.

(** The loop over the pages goes through every page it fetches: every
    id of these pages is the id of a record that is processed, unless
    it was processed before the loop. *)
Lemma syncPages_all_yielded fuel notebookId cursor processed stats w stats' w' :
  syncPages fuel notebookId cursor processed stats w = (Ok (Some stats'), w') ->
  ∃ pages, source w = (pages ++ source w')%list
    ∧ ∀ i, i ∈ idsOf pages ->
        i ∈ processed
        ∨ ∃ b r, id b = i ∧ RunYields notebookId fuel cursor processed stats w b r.
Proof.
  revert cursor processed stats w.
  induction fuel as [|fuel IH]; intros cursor processed stats w Hrun; [done |].
  destruct (fetchKarakeepBookmarks cursor (record_line Info w)) as [[response|e] w1] eqn:Hfetch.
  2: { cbn [syncPages] in Hrun. unfold logInfo in Hrun. rewrite run_modify in Hrun.
       by rewrite (run_bind_throw _ _ _ _ _ Hfetch) in Hrun. }
  destruct (wp_eq _ _ _ (fetchKarakeepBookmarks_wp _ _) _ _ Hfetch)
    as (_ & _ & _ & Hsrc1 & Hp).
  destruct (Hp _ eq_refl) as (p & Hhead & Hjson). simpl in Hsrc1, Hhead.
  destruct (source w) as [|x rest] eqn:Hsrc; [done |]. injection Hhead as ->.
  simpl in Hsrc1.
  rewrite (syncPages_step _ _ _ _ _ _ _ _ Hfetch) in Hrun.
  destruct (processPage (default [] (bookmarks response)) notebookId processed stats
              (record_line Info w1)) as [[[processed1 stats1]|e] w2] eqn:Hpage.
  2: { by rewrite (run_bind_throw _ _ _ _ _ Hpage) in Hrun. }
  pose proof (processPage_keeps (default [] (bookmarks response)) notebookId processed stats
                (record_line Info w1)) as Hk.
  rewrite Hpage in Hk. destruct Hk as (_ & _ & _ & Hsrc2). simpl in Hsrc2.
  destruct (wp_eq _ _ _ (processPage_tally _ _ _ _ _) _ _ Hpage _ _ eq_refl) as [Hset _].
  assert (∀ i, i ∈ pageIds (Ok p) ->
            i ∈ processed
            ∨ ∃ b r, id b = i ∧ RunYields notebookId (S fuel) cursor processed stats w b r)
    as Hfirst.
  { intros i Hi. unfold pageIds in Hi. rewrite Hjson in Hi.
    apply elem_of_list_to_set in Hi.
    destruct (processPage_all_yielded _ _ _ _ _ _ _ _ Hpage i Hi)
      as [? | (b & r & Hb & Hy)]; [by left |].
    right. exists b, r. split; [done | by eapply yields_on_page]. }
  rewrite (run_bind _ _ _ _ _ Hpage) in Hrun. unfold logInfo in Hrun.
  rewrite run_modify in Hrun.
  destruct (truthy (nextCursor response)) eqn:Hcursor.
  - destruct (IH _ _ _ _ Hrun) as (pages & Hpages & Hall). simpl in Hpages.
    exists (Ok p :: pages). split; [simpl; f_equal; congruence |].
    intros i Hi. rewrite idsOf_cons in Hi.
    apply elem_of_union in Hi as [Hi | Hi]; [by apply Hfirst |].
    destruct (Hall i Hi) as [Hin | (b & r & Hb & Hy)].
    + rewrite Hset in Hin. apply elem_of_union in Hin as [Hin | Hin]; [by left |].
      apply Hfirst. unfold pageIds. by rewrite Hjson.
    + right. exists b, r. split; [done | by eapply yields_on_later_page].
  - injection Hrun as _ <-. simpl.
    exists [Ok p]. split; [simpl; f_equal; congruence |].
    intros i Hi. rewrite idsOf_cons, idsOf_nil in Hi.
    apply elem_of_union in Hi as [Hi | Hi]; [by apply Hfirst | by apply elem_of_empty in Hi].
Qed.

(** C10.  A cycle with enough fuel for the pages to come returns a
    summary.  Its [success] is true exactly when the attempt completed,
    that is no critical error occurred, and no record that was
    processed ended in [error]; this is when the error counter of a
    completed attempt is zero.  A completed attempt, whatever the
    outcomes of its records, has processed a record for every id of
    the pages it fetched, and has set the last-sync timestamp to the
    clock; a critical error leaves the settings as they were. *)
Theorem runSyncCycle_success (fuel : nat) (w : World) :
  (length (source w) < fuel)%nat ->
  ∃ summary w' outcome w1,
    runSyncCycle fuel w = (Ok (Some summary), w')
    ∧ syncAttempt fuel w = (Ok outcome, w1)
    ∧ (Summary.success summary = true <->
       (∃ stats, outcome = Completed stats)
       ∧ ∀ b r, CycleYields fuel w b r -> status r ≠ error)
    ∧ (Summary.success summary = true <->
       ∃ stats, outcome = Completed stats ∧ errorCount stats = 0%nat)
    ∧ (∀ b r, CycleYields fuel w b r -> status r = error ->
              Summary.success summary = false)
    ∧ match outcome with
      | Completed stats =>
          lastSyncTimestamp (settings w') = now w
          ∧ ∃ pages, source w = (pages ++ source w')%list
              ∧ ∀ i, i ∈ idsOf pages -> ∃ b r, id b = i ∧ CycleYields fuel w b r
      | _ => settings w' = settings w
      end.
Proof.
  intros Hfuel.
  destruct (syncAttempt fuel w) as [r w1] eqn:Hrun.
  destruct (wp_eq _ _ _ (syncAttempt_wp fuel w) _ _ Hrun)
    as (outcome & -> & Hi & Hn & H).
  unfold runSyncCycle. rewrite (run_bind _ _ _ _ _ Hrun).
  destruct outcome as [stats|finalMessage|].
  - destruct H as [Hs _].
    destruct (completeMessage_returns stats w1) as [m Hm].
    rewrite (run_bind _ _ _ _ _ Hm). unfold logInfo. rewrite run_modify.
    destruct (syncAttempt_completed _ _ _ _ Hrun) as (w2 & Hpages & Hsrc).
    eexists _, _, _, _. split; [reflexivity |]. split; [reflexivity |]. simpl.
    assert ((errorCount stats =? 0)%nat = true <->
            ∀ b r, CycleYields fuel w b r -> status r ≠ error) as Hiff.
    { rewrite Nat.eqb_eq. split.
      - intros H0 b r Hy He.
        pose proof (cycleYields_error _ _ _ _ _ _ Hy He Hrun). lia.
      - intros Hnone. destruct (errorCount stats) as [|n] eqn:En; [done |].
        destruct (syncPages_error_yielded _ _ _ _ _ _ _ _ Hpages) as (b & r & Hy & He).
        + simpl. lia.
        + by destruct (Hnone b r Hy). }
    split; [| split; [| split; [| split]]].
    + rewrite Hiff. split; [eauto | by intros [_ ?]].
    + rewrite Nat.eqb_eq. split; [eauto |]. by intros (? & [= <-] & ?).
    + intros b r Hy He. apply not_true_is_false. intros Ht.
      by apply (proj1 Hiff Ht b r Hy).
    + by rewrite Hs.
    + destruct (syncPages_all_yielded _ _ _ _ _ _ _ _ Hpages) as (pages & Hsplit & Hall).
      simpl in Hsplit. exists pages. split; [by rewrite Hsrc |].
      intros i Hid. destruct (Hall i Hid) as [Hin | ?]; [by apply elem_of_empty in Hin | done].
  - destruct (nonempty finalMessage); simpl;
      (eexists _, _, _, _; split; [reflexivity |]; split; [reflexivity |]; simpl;
       split; [split; [done | by intros [(? & [=]) _]] |];
       split; [split; [done | by intros (? & [=] & _)] | by split]).
  - destruct H as [H _]. lia.
Qed.

End Run.


(** The statement of C6 on two pages of one record each with the same
    id: one outcome is counted. *)
Lemma runSyncCycle_counts_each_id_once_witness :
  idsOf (source twoPagesWorld) = {["bk-march"]}
  ∧ ∃ stats w',
      syncAttempt (RT := Reference.runtime) 3 twoPagesWorld = (Ok (Completed stats), w')
      ∧ tally stats = 1%nat.
Proof.
  split; [vm_compute; reflexivity |].
  assert (∃ stats,
            (syncAttempt (RT := Reference.runtime) 3 twoPagesWorld).1 = Ok (Completed stats)
            ∧ source (syncAttempt (RT := Reference.runtime) 3 twoPagesWorld).2 = [])
    as (stats & Hres & Hsrc) by (eexists; split; vm_compute; reflexivity).
  destruct (syncAttempt (RT := Reference.runtime) 3 twoPagesWorld) as [r w'] eqn:Hrun.
  simpl in Hres, Hsrc. subst r.
  exists stats, w'. split; [reflexivity |].
  destruct (runSyncCycle_counts_each_id_once (RT := Reference.runtime) 3 twoPagesWorld w'
              stats Hrun) as [(pages & Hpages & Htally) _].
  rewrite Hsrc, app_nil_r in Hpages. subst pages. rewrite Htally.
  vm_compute. reflexivity.
Defined.

(** The statement of C10 on a page of two records of which the first
    cannot be created: the cycle goes on to the second record, stamps
    the settings, and reports no success. *)
Lemma runSyncCycle_success_witness :
  ∃ summary w',
    runSyncCycle (RT := Reference.runtime) 2 oneFailureWorld = (Ok (Some summary), w')
    ∧ Summary.success summary = false
    ∧ lastSyncTimestamp (settings w') = now oneFailureWorld
    ∧ ∃ b r, id b = "bk-epoch" ∧ CycleYields (RT := Reference.runtime) 2 oneFailureWorld b r.
Proof.
  destruct (runSyncCycle_success (RT := Reference.runtime) 2 oneFailureWorld)
    as (summary & w' & outcome & w1 & Hrun & Hattempt & _ & _ & Hyields & Hdone);
    [simpl; lia |].
  exists summary, w'. split; [exact Hrun |].
  assert (∃ stats,
            (syncAttempt (RT := Reference.runtime) 2 oneFailureWorld).1
            = Ok (Completed stats)) as [stats Hres]
    by (eexists; vm_compute; reflexivity).
  rewrite Hattempt in Hres. injection Hres as ->.
  destruct Hdone as (Hstamp & pages & Hpages & Hall).
  assert (source w' = []) as Hleft.
  { transitivity (source (runSyncCycle (RT := Reference.runtime) 2 oneFailureWorld).2);
      [by rewrite Hrun | vm_compute; reflexivity]. }
  rewrite Hleft, app_nil_r in Hpages. subst pages.
  split; [| split; [exact Hstamp |]].
  - apply (Hyields marchBookmark (result error "Failed to create document via API."));
      [| reflexivity].
    eapply yields_on_page; [vm_compute; reflexivity |].
    eapply yields_here; [apply not_elem_of_empty | vm_compute; reflexivity].
  - apply Hall. vm_compute. set_solver.
Defined.

(** * Further properties of the plugin *)

(** ** Records that cannot be processed *)

#[global] Instance sameStore_preorder : PreOrder sameStore.
Proof.
  split; [by intros w |].
  intros w1 w2 w3 [? ?] [? ?]. split; congruence.
Qed.
#[global] Instance sameStore_calls : KeepsCalls sameStore.
Proof. by intros c w. Qed.
#[global] Instance sameStore_lines : KeepsLines sameStore.
Proof. by intros l w. Qed.
#[global] Instance sameStore_faults : KeepsFaults sameStore.
Proof. by intros l w. Qed.
#[global] Instance sameStore_web : KeepsWeb sameStore.
Proof. by intros l w. Qed.
#[global] Instance sameStore_uploads : KeepsUploads sameStore.
Proof. by intros l w. Qed.

#[global] Instance sameKernel_preorder : PreOrder sameKernel.
Proof.
  split; [by intros w |].
  intros w1 w2 w3 (? & ? & ?) (? & ? & ?). repeat split; congruence.
Qed.
#[global] Instance sameKernel_calls : KeepsCalls sameKernel.
Proof. by intros c w. Qed.
#[global] Instance sameKernel_lines : KeepsLines sameKernel.
Proof. by intros l w. Qed.
#[global] Instance sameKernel_web : KeepsWeb sameKernel.
Proof. by intros l w. Qed.
#[global] Instance sameKernel_uploads : KeepsUploads sameKernel.
Proof. by intros l w. Qed.

Section RecordErrors.

Context `{RT : Runtime}.

Lemma fallbackTitle_outcome bookmark :
  (∃ t, fallbackTitle bookmark = Ok t)
  ∨ fallbackTitle bookmark = Throw "Invalid time value" ∧ getTime (createdAt bookmark) = NaN.
Proof.
  unfold fallbackTitle. destruct (getTime (createdAt bookmark)) as [|t] eqn:Ht.
  - right. by rewrite (isoDate_invalid _ Ht).
  - left. rewrite (isoDate_of_time _ _ Ht). eauto.
Qed.

(** The title derivation throws only for want of a creation date. *)
Lemma getBookmarkTitle_outcome bookmark :
  (∃ t, getBookmarkTitle bookmark = Ok t)
  ∨ getBookmarkTitle bookmark = Throw "Invalid time value"
    ∧ getTime (createdAt bookmark) = NaN.
Proof.
  pose proof (fallbackTitle_outcome bookmark) as Hf.
  unfold getBookmarkTitle. repeat case_match; eauto.
Qed.

Lemma processBookmark_unfiltered bookmark notebookId w :
  passesFilters (settings w) bookmark = true ->
  processBookmark bookmark notebookId w
  = (title ← lift (getBookmarkTitle bookmark);
     sanitized ← lift (sanitizeSiYuanPath title (createdAt bookmark));
     let safeDocPath := singleLeadingSlash ("/" +:+ sanitized) in
     try_catch
       (existingDocId ← findExistingDocIdByKarakeepId notebookId (id bookmark);
        if truthy existingDocId then
          let existingDocId := or_else existingDocId EmptyString in
          shouldUpdate ← shouldUpdateDocument existingDocId bookmark;
          if (shouldUpdate : bool) then
            _ ← logInfo;
            updateSiYuanDocument existingDocId bookmark notebookId title safeDocPath
          else
            _ ← logInfo;
            mret (result skipped "Exists, no update needed")
        else
          _ ← logInfo;
          createNewSiYuanDocument bookmark notebookId title safeDocPath)
       (fun e =>
          _ ← logError;
          mret (result error (if nonempty e then e else "Unknown processing error")))) w.
Proof.
  unfold passesFilters. intros H.
  apply andb_prop in H as [[H1%negb_true_iff H2%negb_true_iff]%andb_prop H3%negb_true_iff].
  unfold processBookmark. rewrite run_get, H1, H2, H3. reflexivity.
Qed.

Lemma processBookmark_throwing bookmark notebookId w :
  wp (processBookmark bookmark notebookId) w
     (fun r w' =>
        match r with
        | Ok _ => True
        | Throw e => e = "Invalid time value" ∧ w' = w ∧ getTime (createdAt bookmark) = NaN
        end).
Proof.
  unfold processBookmark. wp_step. wp_step. wp_step; [by wp_step |].
  wp_step; [by wp_step |]. wp_step; [by wp_step |].
  wp_step. wp_step.
  destruct (getBookmarkTitle_outcome bookmark) as [[t ->] | [-> Hn]]; [| done].
  wp_step. wp_step.
  destruct (getTime (createdAt bookmark)) as [|ms] eqn:Ht.
  { by rewrite (sanitizeSiYuanPath_invalid _ _ Ht). }
  unfold sanitizeSiYuanPath. rewrite (isoDate_of_time _ _ Ht).
  wp_step. apply wp_any. intros [pr|e] w1; [done | by wp_auto].
Qed.

(** Without a creation date the path of a record that passes the
    filters cannot be derived. *)
Lemma processBookmark_undated bookmark notebookId w :
  getTime (createdAt bookmark) = NaN ->
  passesFilters (settings w) bookmark = true ->
  processBookmark bookmark notebookId w = (Throw "Invalid time value", w).
Proof.
  intros Hn Hp. rewrite (processBookmark_unfiltered _ _ _ Hp).
  destruct (getBookmarkTitle_outcome bookmark) as [[t Ht] | [Ht _]]; rewrite Ht.
  - rewrite run_lift_ok, (sanitizeSiYuanPath_invalid _ _ Hn). reflexivity.
  - reflexivity.
Qed.

(** An exception leaves [processBookmark] in one case only: the record
    passes the filters and its creation date is not a date.  The
    exception is the RangeError of [toISOString], and it is thrown before
    anything is logged or asked of the store.  A record with a creation
    date always has an outcome. *)
Theorem processBookmark_throws_for_want_of_date
    (bookmark : KarakeepBookmark) (notebookId : string) (w : World) :
  (getTime (createdAt bookmark) ≠ NaN ->
   ∃ pr w', processBookmark bookmark notebookId w = (Ok pr, w'))
  ∧ (∀ e w', processBookmark bookmark notebookId w = (Throw e, w') ->
       e = "Invalid time value" ∧ w' = w ∧ getTime (createdAt bookmark) = NaN
       ∧ passesFilters (settings w) bookmark = true)
  ∧ (getTime (createdAt bookmark) = NaN ->
     passesFilters (settings w) bookmark = true ->
     processBookmark bookmark notebookId w = (Throw "Invalid time value", w)).
Proof.
  pose proof (processBookmark_throwing bookmark notebookId w) as H. unfold wp in H.
  split; [| split].
  - intros Hd. destruct (processBookmark bookmark notebookId w) as [[pr|e] w'] eqn:E.
    + eauto.
    + simpl in H. by destruct H as (_ & _ & ?).
  - intros e w' E. rewrite E in H. simpl in H. destruct H as (-> & -> & Hn).
    do 3 (split; [done |]).
    destruct (passesFilters (settings w) bookmark) eqn:Hp; [done |].
    exfalso. revert E. unfold processBookmark, passesFilters in *. rewrite run_get.
    destruct (excludeArchived (settings w) && archived bookmark); [done |].
    destruct (onlyFavorites (settings w) && negb (favourited bookmark)); [done |].
    destruct (negb (favourited bookmark) && (0 <? length (excludedTags (settings w)))%nat
              && hasExcludedTag (excludedTags (settings w)) bookmark); [done |].
    done.
  - apply processBookmark_undated.
Qed.

End RecordErrors.

(** The statement at a record created [yesterday]. *)
Lemma processBookmark_throws_for_want_of_date_witness :
  processBookmark (RT := Reference.runtime) undatedBookmark "notebook-1" undatedWorld
  = (Throw "Invalid time value", undatedWorld).
Proof.
  apply (processBookmark_throws_for_want_of_date (RT := Reference.runtime));
    vm_compute; reflexivity.
Defined.

Section CriticalErrors.

Context `{RT : Runtime}.

(** The message of a cycle that failed critically. *)
Lemma runSyncCycle_critical fuel w e w1 :
  syncAttempt fuel w = (Ok (CriticalError e), w1) -> e ≠ "" ->
  runSyncCycle fuel w
  = (Ok (Some {| Summary.success := false; Summary.message := e |}), record_line Info w1).
Proof.
  intros Hrun He. unfold runSyncCycle. rewrite (run_bind _ _ _ _ _ Hrun).
  destruct e; [done |]. reflexivity.
Qed.

Lemma or_else_nonempty o d : d ≠ "" -> or_else o d ≠ "".
Proof. intros Hd. by destruct o as [[|]|]. Qed.

Lemma nonempty_true s : s ≠ "" -> nonempty s = true.
Proof. by destruct s. Qed.

Lemma app_nonempty s u : s ≠ "" -> s +:+ u ≠ "".
Proof. by destruct s. Qed.

(** An exception [e] in the [try] block makes the attempt a critical
    error with the message of [e]. *)
Lemma syncAttempt_caught w (body : M Outcome) e w1 :
  body w = (Throw e, w1) ->
  try_catch body
    (fun e =>
       _ ← logError;
       syncFailed ← tr "syncFailed" "Sync failed critically";
       mret (CriticalError
               (syncFailed +:+ ": " +:+ (if nonempty e then e else "Unknown error")))) w
  = (Ok (CriticalError
           (or_else (i18n w1 !! "syncFailed") "Sync failed critically" +:+ ": "
            +:+ (if nonempty e then e else "Unknown error"))), record_line Error w1).
Proof. intros H. by rewrite (run_catch_throw _ _ _ _ _ H). Qed.

(** Without an API key, or without a target notebook, a cycle fails
    critically before it sends any request: the summary reports no
    success and carries the message of the missing setting, and the
    cycle leaves the documents, the pages to come, the settings (the
    last-sync timestamp among them) and the trace of requests as they
    were.  No fuel is needed. *)
Theorem runSyncCycle_unconfigured (fuel : nat) (w : World) :
  nonempty (apiKey (settings w)) = false ∨ truthy (syncNotebookId (settings w)) = false ->
  ∃ w',
    runSyncCycle fuel w
    = (Ok (Some {| Summary.success := false;
                   Summary.message :=
                     or_else (i18n w !! "syncFailed") "Sync failed critically" +:+ ": "
                     +:+ (if nonempty (apiKey (settings w))
                          then or_else (i18n w !! "notebookMissing")
                                 "Target SiYuan notebook not configured."
                          else or_else (i18n w !! "apiKeyMissing")
                                 "Karakeep API key not configured.") |}), w')
    ∧ calls w' = calls w ∧ docs w' = docs w ∧ source w' = source w
    ∧ settings w' = settings w
    ∧ console w' = (console w ++ [Info; Error; Info])%list.
Proof.
  intros H.
  set (m := if nonempty (apiKey (settings w))
            then or_else (i18n w !! "notebookMissing") "Target SiYuan notebook not configured."
            else or_else (i18n w !! "apiKeyMissing") "Karakeep API key not configured.").
  assert (m ≠ "") as Hm by (unfold m; case_match; by apply or_else_nonempty).
  assert (syncAttempt fuel w
          = (Ok (CriticalError
                   (or_else (i18n w !! "syncFailed") "Sync failed critically" +:+ ": " +:+ m)),
             record_line Error (record_line Info w))) as Hrun.
  { unfold syncAttempt. revert Hm. unfold m. clear m.
    destruct (nonempty (apiKey (settings w))) eqn:Ek; intros Hm.
    - destruct H as [H | H]; [done |].
      erewrite syncAttempt_caught; cycle 1.
      + unfold logInfo. rewrite run_modify, run_get. cbn [settings record_line].
        rewrite Ek, H. reflexivity.
      + cbn [i18n record_line]. by rewrite (nonempty_true _ Hm).
    - erewrite syncAttempt_caught; cycle 1.
      + unfold logInfo. rewrite run_modify, run_get. cbn [settings record_line].
        rewrite Ek. reflexivity.
      + cbn [i18n record_line]. by rewrite (nonempty_true _ Hm). }
  eexists. split.
  - apply (runSyncCycle_critical _ _ _ _ Hrun).
    by apply app_nonempty, or_else_nonempty.
  - cbn. by rewrite <- !app_assoc.
Qed.

End CriticalErrors.

(** The statement for the default settings, which have no API key. *)
Lemma runSyncCycle_unconfigured_witness :
  (runSyncCycle (RT := Reference.runtime) 0
     (worldOf DEFAULT_SETTINGS [] [pageOf [marchBookmark] None])).1
  = Ok (Some {| Summary.success := false;
                Summary.message := "Sync failed critically: Karakeep API key not configured." |}).
Proof.
  destruct (runSyncCycle_unconfigured (RT := Reference.runtime) 0
              (worldOf DEFAULT_SETTINGS [] [pageOf [marchBookmark] None]))
    as (w' & -> & _); [by left | reflexivity].
Defined.

Section AbortedCycle.

Context `{RT : Runtime}.

(** The loop over a page, record by record. *)
Lemma processPage_app before after notebookId processed stats w :
  processPage (before ++ after) notebookId processed stats w
  = match processPage before notebookId processed stats w with
    | (Ok (processed1, stats1), w1) => processPage after notebookId processed1 stats1 w1
    | (Throw e, w1) => (Throw e, w1)
    end.
Proof.
  revert processed stats w.
  induction before as [|b rest IH]; intros processed stats w; [done |].
  destruct (decide (id b ∈ processed)) as [Hin | Hnew].
  - rewrite <- app_comm_cons, !processPage_duplicate by done. apply IH.
  - destruct (processBookmark b notebookId w) as [[r|e] w1] eqn:Hrun.
    + rewrite <- app_comm_cons, !(processPage_step _ _ _ _ _ _ _ _ Hnew Hrun). apply IH.
    + simpl. rewrite bool_decide_eq_false_2 by done.
      by rewrite !(run_bind_throw _ _ _ _ _ Hrun).
Qed.

(** One record that passes the filters and has no creation date aborts
    the whole cycle: the exception of its path derivation is not caught
    by [processBookmark], it ends the loops and is reported as a
    critical error.  The records before it on the page have been
    processed; nothing is asked of the store or of the source after it,
    so the rest of the page and the later pages are not synchronised;
    the last-sync timestamp is not set. *)
Theorem runSyncCycle_aborts_on_undated_record
    (fuel : nat) (w wf w1 : World) (response : KarakeepResponse)
    (before after : list KarakeepBookmark) (bookmark : KarakeepBookmark)
    (processed1 : gset string) (stats1 : Stats) :
  nonempty (apiKey (settings w)) = true ->
  truthy (syncNotebookId (settings w)) = true ->
  fetchKarakeepBookmarks None (record_line Info (record_line Info (record_line Info w)))
  = (Ok response, wf) ->
  bookmarks response = Some (before ++ bookmark :: after)%list ->
  processPage before (or_else (syncNotebookId (settings w)) "") ∅ noStats (record_line Info wf)
  = (Ok (processed1, stats1), w1) ->
  id bookmark ∉ processed1 ->
  getTime (createdAt bookmark) = NaN ->
  passesFilters (settings w) bookmark = true ->
  ∃ w',
    runSyncCycle (S fuel) w
    = (Ok (Some {| Summary.success := false;
                   Summary.message :=
                     or_else (i18n w !! "syncFailed") "Sync failed critically"
                     +:+ ": Invalid time value" |}), w')
    ∧ docs w' = docs w1 ∧ calls w' = calls w1 ∧ source w' = source wf
    ∧ settings w' = settings w.
Proof.
  intros Hkey Hnb Hfetch Hpage Hbefore Hnew Hdate Hpass.
  set (nb := or_else (syncNotebookId (settings w)) "") in *.
  destruct (wp_eq _ _ _ (fetchKarakeepBookmarks_wp _ _) _ _ Hfetch) as (Hsf & Hif & _).
  pose proof (processPage_keeps before nb ∅ noStats (record_line Info wf)) as Hk.
  rewrite Hbefore in Hk. destruct Hk as (Hs1 & Hi1 & _ & Hsrc1).
  simpl in Hsf, Hif, Hs1, Hi1, Hsrc1.
  assert (passesFilters (settings w1) bookmark = true) as Hpass1 by congruence.
  pose proof (processBookmark_undated bookmark nb w1 Hdate Hpass1) as Hthrow.
  assert (syncPages (S fuel) nb None ∅ noStats (record_line Info (record_line Info w))
          = (Throw "Invalid time value", w1)) as Hloop.
  { assert (processPage (before ++ bookmark :: after) nb ∅ noStats (record_line Info wf)
            = (Throw "Invalid time value", w1)) as Hp.
    { rewrite processPage_app, Hbefore. simpl. rewrite bool_decide_eq_false_2 by done.
      by rewrite (run_bind_throw _ _ _ _ _ Hthrow). }
    rewrite (syncPages_step _ _ _ _ _ _ _ _ Hfetch), Hpage. cbn [default].
    by rewrite (run_bind_throw _ _ _ _ _ Hp). }
  assert (syncAttempt (S fuel) w
          = (Ok (CriticalError
                   (or_else (i18n w !! "syncFailed") "Sync failed critically"
                    +:+ ": Invalid time value")), record_line Error w1)) as Hrun.
  { unfold syncAttempt. erewrite syncAttempt_caught; cycle 1.
    - unfold logInfo. rewrite run_modify, run_get. cbn [settings record_line].
      rewrite Hkey, Hnb. cbn [negb]. rewrite run_modify.
      fold nb. by rewrite (run_bind_throw _ _ _ _ _ Hloop).
    - cbn [nonempty]. by rewrite Hi1, Hif. }
  eexists. split.
  - apply (runSyncCycle_critical _ _ _ _ Hrun). by apply app_nonempty, or_else_nonempty.
  - cbn. repeat split; congruence.
Qed.

End AbortedCycle.

(** The statement on a page whose first record is undated: the record
    after it is not created. *)
Lemma runSyncCycle_aborts_on_undated_record_witness :
  ∃ w',
    runSyncCycle (RT := Reference.runtime) 1 undatedWorld
    = (Ok (Some {| Summary.success := false;
                   Summary.message := "Sync failed critically: Invalid time value" |}), w')
    ∧ docs w' = []
    ∧ lastSyncTimestamp (settings w') = 0.
Proof.
  assert (∃ wf, fetchKarakeepBookmarks None
                  (record_line Info (record_line Info (record_line Info undatedWorld)))
                = (Ok {| bookmarks := Some [undatedBookmark; marchBookmark];
                         total := 2; nextCursor := None |}, wf) ∧ docs wf = []) as (wf & Hf & Hd).
  { eexists. split; reflexivity. }
  destruct (runSyncCycle_aborts_on_undated_record (RT := Reference.runtime) 0
              undatedWorld wf (record_line Info wf)
              {| bookmarks := Some [undatedBookmark; marchBookmark];
                 total := 2; nextCursor := None |}
              [] [marchBookmark] undatedBookmark ∅ noStats) as (w' & Hrun & Hd' & _ & _ & Hs);
    try first [exact Hf | reflexivity].
  { apply not_elem_of_empty. }
  exists w'. split; [exact Hrun |]. split; [by rewrite Hd' | by rewrite Hs].
Defined.

(** ** Records that are skipped *)

Section SkippedRecords.

Context `{RT : Runtime}.

Lemma findExistingDocIdByKarakeepId_sameStore notebookId karakeepId :
  Keeps sameStore (findExistingDocIdByKarakeepId notebookId karakeepId).
Proof. unfold findExistingDocIdByKarakeepId. keeps_auto. by intros w. Qed.

Lemma getSiYuanBlockAttrs_sameStore blockId : Keeps sameStore (getSiYuanBlockAttrs blockId).
Proof.
  unfold getSiYuanBlockAttrs. keeps_auto. intros w. unfold Kernel.getBlockAttrs.
  by destruct (Kernel.find_doc blockId w).
Qed.

Lemma shouldUpdateDocument_sameStore docId bookmark :
  Keeps sameStore (shouldUpdateDocument docId bookmark).
Proof. unfold shouldUpdateDocument. keeps_auto. apply getSiYuanBlockAttrs_sameStore. Qed.

Lemma processBookmark_skipping bookmark notebookId w :
  wp (processBookmark bookmark notebookId) w
     (fun r w' => ∀ pr, r = Ok pr ->
        (status pr = skipped_filtered -> w' = w)
        ∧ (status pr = skipped ->
           sameStore w w' ∧ pr = result skipped "Exists, no update needed")).
Proof.
  unfold processBookmark. wp_step. wp_step.
  wp_step; [wp_step; by intros pr [= <-] |].
  wp_step; [wp_step; by intros pr [= <-] |].
  wp_step; [wp_step; by intros pr [= <-] |].
  wp_step. wp_step. destruct (getBookmarkTitle bookmark) as [title|e]; [| done].
  wp_step. wp_step. destruct (sanitizeSiYuanPath title (createdAt bookmark)) as [p|e]; [| done].
  wp_step. wp_step.
  eapply wp_mono;
    [apply (keeps_wp sameStore), findExistingDocIdByKarakeepId_sameStore |].
  intros [existingDocId|e] w1 Hs1.
  2: { wp_auto. by intros pr [= <-]. }
  wp_step.
  - wp_step.
    eapply wp_mono; [apply (keeps_wp sameStore), shouldUpdateDocument_sameStore |].
    intros [shouldUpdate|e] w2 Hs2.
    2: { wp_auto. by intros pr [= <-]. }
    wp_step.
    + wp_step. wp_step.
      eapply wp_mono; [apply updateSiYuanDocument_status |].
      intros r w3 (pr & -> & Hs) pr' [= <-].
      split; intros E; rewrite E in Hs; by destruct Hs.
    + wp_auto. intros pr [= <-]. split; [done |]. intros _. split; [| done].
      etrans; [exact Hs1 | exact Hs2].
  - wp_step. wp_step.
    eapply wp_mono; [apply createNewSiYuanDocument_status |].
    intros r w3 (pr & -> & Hs) pr' [= <-].
    split; intros E; rewrite E in Hs; by destruct Hs.
Qed.

(** A record that is not synchronised leaves the store as it is.  When
    a filter drops the record nothing happens at all: no line is logged
    and no request is sent.  When the record is skipped because its
    document exists and needs no update, the requests that were sent
    (the lookup, and the attributes when updating is enabled) have
    changed no document, body and attributes included, and no id has
    been used up. *)
Theorem processBookmark_skip_leaves_store
    (bookmark : KarakeepBookmark) (notebookId : string) (w w' : World) (pr : ProcessResult) :
  processBookmark bookmark notebookId w = (Ok pr, w') ->
  (status pr = skipped_filtered -> w' = w)
  ∧ (status pr = skipped ->
     docs w' = docs w ∧ next_id w' = next_id w
     ∧ pr = result skipped "Exists, no update needed").
Proof.
  intros Hrun.
  destruct (wp_eq _ _ _ (processBookmark_skipping bookmark notebookId w) _ _ Hrun pr eq_refl)
    as [Hf Hs].
  split; [exact Hf |]. intros E. by destruct (Hs E) as [[? ?] ?].
Qed.

End SkippedRecords.

(** The statement at the record of March in the world that holds its
    document, with updates disabled. *)
Lemma processBookmark_skip_leaves_store_witness :
  ∃ w',
    processBookmark (RT := Reference.runtime) marchBookmark "notebook-1"
      (set_settings (sampleSettings false []) marchWorld)
    = (Ok (result skipped "Exists, no update needed"), w')
    ∧ docs w' = docs marchWorld.
Proof.
  eexists. split; [vm_compute; reflexivity |].
  eapply (processBookmark_skip_leaves_store (RT := Reference.runtime) marchBookmark
            "notebook-1" (set_settings (sampleSettings false []) marchWorld));
    [vm_compute; reflexivity | reflexivity].
Defined.

(** ** Computations that do not throw *)

Section Returns.

Lemma returns_ret {A} (a : A) : Returns (mret a).
Proof. intros w. by eexists _, _. Qed.

Lemma returns_get {A} (f : World -> A) : Returns (get f).
Proof. intros w. by eexists _, _. Qed.

Lemma returns_tr key fallback : Returns (tr key fallback).
Proof. intros w. by eexists _, _. Qed.

Lemma returns_modify f : Returns (modify f).
Proof. intros w. by eexists _, _. Qed.

Lemma returns_bind {A B} (m : M A) (k : A -> M B) :
  Returns m -> (∀ a, Returns (k a)) -> Returns (m ≫= k).
Proof.
  intros Hm Hk w. destruct (Hm w) as (a & w1 & E).
  rewrite (run_bind _ _ _ _ _ E). apply Hk.
Qed.

(** A [try] whose handler returns does. *)
Lemma returns_try_catch {A} (m : M A) (h : string -> M A) :
  (∀ e, Returns (h e)) -> Returns (try_catch m h).
Proof.
  intros Hh w. unfold try_catch. destruct (m w) as [[a|e] w1]; [by eexists _, _ | apply Hh].
Qed.

End Returns.

Ltac returns_step :=
  lazymatch goal with
  | |- Returns (mret _) => apply returns_ret
  | |- Returns (get _) => apply returns_get
  | |- Returns (tr _ _) => apply returns_tr
  | |- Returns logInfo => apply returns_modify
  | |- Returns logWarn => apply returns_modify
  | |- Returns logError => apply returns_modify
  | |- Returns (modify _) => apply returns_modify
  | |- Returns (try_catch _ _) => apply returns_try_catch; intros ?
  | |- Returns (_ ≫= _) => apply returns_bind; [| intros ?]
  | |- Returns (if ?b then _ else _) => destruct b
  | |- Returns (match ?x with _ => _ end) => destruct x
  end.

Ltac returns_auto := repeat returns_step.

Section Formatting.

Context `{RT : Runtime}.

Lemma getKarakeepAssetUrl_returns apiEndpoint assetId :
  Returns (getKarakeepAssetUrl apiEndpoint assetId).
Proof. unfold getKarakeepAssetUrl. returns_auto. Qed.

Lemma chooseAsset_returns settings bookmark title :
  Returns (chooseAsset settings bookmark title).
Proof. unfold chooseAsset. returns_auto; apply getKarakeepAssetUrl_returns. Qed.

Lemma downloadAndUploadAsset_returns settings assetUrl assetIdHint titleHint :
  Returns (downloadAndUploadAsset settings assetUrl assetIdHint titleHint).
Proof. unfold downloadAndUploadAsset. returns_auto. Qed.

Lemma formatBookmarkAsMarkdown_returns bookmark title :
  Returns (formatBookmarkAsMarkdown bookmark title).
Proof.
  unfold formatBookmarkAsMarkdown. returns_auto;
    first [apply chooseAsset_returns | apply downloadAndUploadAsset_returns].
Qed.

End Formatting.

(** ** The creation of a document *)

Section Creation.

Context `{RT : Runtime}.

Lemma serves_S n w :
  serves (S n) w ->
  (faults w = [] ∨ ∃ fs, faults w = Healthy :: fs)
  ∧ ∀ w', faults w' = tail (faults w) -> serves n w'.
Proof.
  unfold serves. destruct (faults w) as [|f fs]; simpl.
  - intros _. split; [by left |]. intros w' ->. by rewrite take_nil.
  - intros [-> H]%Forall_cons. split; [right; eauto |]. by intros w' ->.
Qed.

Lemma serves_le m n w : (m <= n)%nat -> serves n w -> serves m w.
Proof.
  unfold serves. intros Hle H.
  replace (take m (faults w)) with (take m (take n (faults w)))
    by (rewrite take_take; f_equal; lia).
  by apply Forall_take.
Qed.

Lemma formatBookmarkAsMarkdown_run bookmark title w :
  ∃ md w1, formatBookmarkAsMarkdown bookmark title w = (Ok md, w1) ∧ sameKernel w w1.
Proof.
  destruct (formatBookmarkAsMarkdown_returns bookmark title w) as (md & w1 & E).
  exists md, w1. split; [exact E |].
  pose proof (formatBookmarkAsMarkdown_keeps sameKernel bookmark title w) as H.
  by rewrite E in H.
Qed.

(** What a creation request leaves, by what the kernel does with it. *)
Lemma createSiYuanDocWithMd_run notebookId path md karakeepIdForLog w :
  wp (createSiYuanDocWithMd notebookId path md karakeepIdForLog) w
     (fun r w2 =>
        faults w2 = tail (faults w)
        ∧ match faults w with
          | [] | Healthy :: _ =>
              r = Ok (Some (Kernel.fresh_id (next_id w)))
              ∧ docs w2 = (docs w ++ [createdDoc w notebookId path md ∅])%list
              ∧ next_id w2 = S (next_id w)
          | _ => r = Ok None ∧ docs w2 = docs w ∧ next_id w2 = next_id w
          end).
Proof.
  unfold createSiYuanDocWithMd. wp_step. wp_step. wp_step. wp_step. apply wp_request.
  - intros fs Hfs. world_simpl. wp_auto. world_simpl.
    destruct Hfs as [[-> ->] | ->]; done.
  - intros n m fs Hfs. wp_step.
    { by rewrite failed_code in Heqb. }
    wp_auto. world_simpl. by rewrite Hfs.
  - intros m fs Hfs. wp_auto. world_simpl. by rewrite Hfs.
Qed.

Lemma find_doc_None i w :
  Kernel.find_doc i w = None ->
  ∀ (f : Doc -> Doc), (fun d => if String.eqb (doc_id d) i then f d else d) <$> docs w = docs w.
Proof.
  unfold Kernel.find_doc. intros H f.
  rewrite <- (list_fmap_id (docs w)) at 2. apply list_fmap_ext. intros k d Hd. simpl.
  destruct (String.eqb (doc_id d) i) eqn:E; [| done].
  apply list_elem_of_lookup_2, list_elem_of_In in Hd.
  by rewrite (find_none _ _ H d Hd) in E.
Qed.

(** What setting the attributes leaves: nothing at all when a date of
    the record is invalid, the attributes on the documents with the id
    when the kernel serves the request, the documents as they were when
    it does not. *)
Lemma setSiYuanDocAttributes_run docRootId bookmark title w :
  wp (setSiYuanDocAttributes docRootId bookmark title) w
     (fun r w3 =>
        match docAttributes bookmark title with
        | Throw e => r = Throw e ∧ w3 = w
        | Ok a =>
            r = Ok tt ∧ next_id w3 = next_id w ∧ faults w3 = tail (faults w)
            ∧ match faults w with
              | [] | Healthy :: _ =>
                  docs w3
                  = (fun d => if String.eqb (doc_id d) docRootId
                              then Kernel.with_attrs a d else d) <$> docs w
              | _ => docs w3 = docs w
              end
        end).
Proof.
  unfold setSiYuanDocAttributes. wp_step. wp_step.
  destruct (docAttributes bookmark title) as [a|e]; [| done].
  wp_step. wp_step. wp_step. wp_step. apply wp_request.
  - intros fs Hfs. world_simpl. unfold Kernel.setBlockAttrs.
    destruct (Kernel.find_doc docRootId _) as [d|] eqn:E; world_simpl.
    + wp_auto; world_simpl; destruct Hfs as [[-> ->] | ->]; done.
    + change (Kernel.find_doc docRootId _) with (Kernel.find_doc docRootId w) in E.
      rewrite (find_doc_None _ _ E).
      wp_auto; world_simpl; destruct Hfs as [[-> ->] | ->]; done.
  - intros n m fs Hfs. wp_auto; world_simpl; by rewrite Hfs.
  - intros m fs Hfs. wp_auto; world_simpl; by rewrite Hfs.
Qed.

Lemma fresh_only_new w d0 (f : Doc -> Doc) :
  ids_fresh w -> doc_id d0 = Kernel.fresh_id (next_id w) ->
  (fun d => if String.eqb (doc_id d) (Kernel.fresh_id (next_id w)) then f d else d)
    <$> (docs w ++ [d0])%list
  = (docs w ++ [f d0])%list.
Proof.
  intros Hfresh Hd0. rewrite fmap_app. simpl. rewrite Hd0, String.eqb_refl. f_equal.
  rewrite <- (list_fmap_id (docs w)) at 2. apply list_fmap_ext. intros k d Hd. simpl.
  destruct (String.eqb_spec (doc_id d) (Kernel.fresh_id (next_id w))) as [E | _]; [| done].
  exfalso. apply list_elem_of_lookup_2 in Hd. by apply (Hfresh d (next_id w)).
Qed.

Lemma docAttributes_id bookmark title a :
  docAttributes bookmark title = Ok a -> a !! ATTR_KARAKEEP_ID = Some (id bookmark).
Proof.
  unfold docAttributes. repeat case_match; try done. intros [= <-]. apply lookup_insert_eq.
Qed.

Lemma docAttributes_modified bookmark title a :
  docAttributes bookmark title = Ok a ->
  ∃ iso, isoString (effectiveModified bookmark) = Ok iso ∧ a !! ATTR_MODIFIED = Some iso.
Proof.
  unfold docAttributes. repeat case_match; try done. intros [= <-]. eexists. split; [done |].
  rewrite lookup_insert_ne by done. apply lookup_insert_eq.
Qed.

Lemma docAttributes_invalid bookmark title :
  getTime (effectiveModified bookmark) = NaN ∨ getTime (createdAt bookmark) = NaN ->
  docAttributes bookmark title = Throw "Invalid time value".
Proof.
  unfold docAttributes, isoString. intros [-> | H]; [done |].
  destruct (getTime (effectiveModified bookmark)); [done |]. by rewrite H.
Qed.

Lemma docAttributes_valid bookmark title :
  getTime (effectiveModified bookmark) ≠ NaN -> getTime (createdAt bookmark) ≠ NaN ->
  ∃ a, docAttributes bookmark title = Ok a.
Proof.
  unfold docAttributes, isoString. intros H1 H2.
  destruct (getTime (effectiveModified bookmark)); [done |].
  destruct (getTime (createdAt bookmark)); [done |]. simpl. eauto.
Qed.

(** The creation path when the kernel serves the creation request: the
    document is created, and then the attributes are set, or not. *)
Lemma createNewSiYuanDocument_run bookmark notebookId title path w :
  serves 1 w ->
  ∃ md w',
    (formatBookmarkAsMarkdown bookmark title w).1 = Ok md
    ∧ next_id w' = S (next_id w)
    ∧ match docAttributes bookmark title with
      | Throw e =>
          createNewSiYuanDocument bookmark notebookId title path w
          = (Ok (result error (if nonempty e then e else "Document creation failed")), w')
          ∧ docs w' = (docs w ++ [createdDoc w notebookId path md ∅])%list
          ∧ faults w' = tail (faults w)
      | Ok a =>
          createNewSiYuanDocument bookmark notebookId title path w
          = (Ok {| status := created; message := None |}, w')
          ∧ faults w' = tail (tail (faults w))
          ∧ match tail (faults w) with
            | [] | Healthy :: _ =>
                docs w'
                = (fun d => if String.eqb (doc_id d) (Kernel.fresh_id (next_id w))
                            then Kernel.with_attrs a d else d)
                  <$> (docs w ++ [createdDoc w notebookId path md ∅])%list
            | _ => docs w' = (docs w ++ [createdDoc w notebookId path md ∅])%list
            end
      end.
Proof.
  intros [Hserved _]%serves_S.
  destruct (formatBookmarkAsMarkdown_run bookmark title w) as (md & w1 & Hf & Hd1 & Hn1 & Hf1).
  destruct (createSiYuanDocWithMd notebookId path md (id bookmark) w1) as [r2 w2] eqn:Hc.
  destruct (wp_eq _ _ _ (createSiYuanDocWithMd_run _ _ _ _ _) _ _ Hc) as [Hf2 H2].
  rewrite Hf1 in Hf2, H2.
  assert (r2 = Ok (Some (Kernel.fresh_id (next_id w)))
          ∧ docs w2 = (docs w ++ [createdDoc w notebookId path md ∅])%list
          ∧ next_id w2 = S (next_id w)) as (-> & Hd2 & Hn2).
  { unfold createdDoc in *. rewrite Hd1, Hn1 in H2.
    destruct Hserved as [E | [fs E]]; rewrite E in H2; exact H2. }
  destruct (setSiYuanDocAttributes (Kernel.fresh_id (next_id w)) bookmark title w2)
    as [r3 w3] eqn:Hs.
  pose proof (wp_eq _ _ _ (setSiYuanDocAttributes_run _ _ _ _) _ _ Hs) as H3.
  exists md. unfold createNewSiYuanDocument, try_catch.
  rewrite (run_bind _ _ _ _ _ Hf), (run_bind _ _ _ _ _ Hc), Hf. cbn [fst].
  destruct (docAttributes bookmark title) as [a|e].
  - destruct H3 as (-> & Hn3 & Hf3 & Hd3). rewrite (run_bind _ _ _ _ _ Hs).
    exists w3. split; [done |]. split; [congruence |]. split; [done |].
    split; [congruence |]. rewrite Hf2, Hd2 in Hd3. exact Hd3.
  - destruct H3 as [-> ->]. rewrite (run_bind_throw _ _ _ _ _ Hs).
    eexists. split; [done |]. split; [| split; [reflexivity |]]; cbn; [done |].
    by split.
Qed.

(** The creation path when the kernel serves both of its requests and
    the record has its dates: the document lies in the store with the
    attributes of the record. *)
Lemma createNewSiYuanDocument_served bookmark notebookId title path a w :
  serves 2 w -> ids_fresh w ->
  docAttributes bookmark title = Ok a ->
  ∃ md w',
    createNewSiYuanDocument bookmark notebookId title path w
    = (Ok {| status := created; message := None |}, w')
    ∧ (formatBookmarkAsMarkdown bookmark title w).1 = Ok md
    ∧ docs w' = (docs w ++ [createdDoc w notebookId path md a])%list
    ∧ next_id w' = S (next_id w)
    ∧ faults w' = tail (tail (faults w))
    ∧ carrying notebookId (id bookmark) w'
      = (carrying notebookId (id bookmark) w ++ [createdDoc w notebookId path md a])%list.
Proof.
  intros Hserves Hfresh Ha.
  destruct (serves_S _ _ Hserves) as [H1 Hrest].
  assert (serves 1 w) as Hs1 by (apply (serves_le 1 2); [lia | done]).
  destruct (createNewSiYuanDocument_run bookmark notebookId title path w Hs1)
    as (md & w' & Hmd & Hn & H).
  rewrite Ha in H. destruct H as (Hrun & Hf & Hd).
  assert (docs w' = (docs w ++ [createdDoc w notebookId path md a])%list) as Hdocs.
  { assert (match tail (faults w) with [] | Healthy :: _ => True | _ => False end) as Hh.
    { destruct (proj1 (serves_S 0 (set_faults (tail (faults w)) w) (Hrest (set_faults (tail (faults w)) w) eq_refl)))
        as [E | [? E]]; simpl in E; by rewrite E. }
    assert (docs w'
            = (fun d => if String.eqb (doc_id d) (Kernel.fresh_id (next_id w))
                        then Kernel.with_attrs a d else d)
              <$> (docs w ++ [createdDoc w notebookId path md ∅])%list) as ->.
    { destruct (tail (faults w)) as [|[] ?]; done. }
    rewrite (fresh_only_new w (createdDoc w notebookId path md ∅) _ Hfresh eq_refl).
    f_equal. f_equal.
    unfold Kernel.with_attrs, createdDoc. simpl. f_equal. apply (right_id_L ∅ (∪)). }
  exists md, w'. do 5 (split; [done |]).
  unfold carrying. rewrite Hdocs, filter_app. f_equal.
  rewrite filter_cons_True; [done |].
  unfold Kernel.carries, createdDoc. simpl. rewrite String.eqb_refl. simpl.
  apply bool_decide_eq_true. by apply docAttributes_id in Ha.
Qed.

(** The lookup when the kernel serves it. *)
Lemma findExistingDocIdByKarakeepId_served notebookId karakeepId w :
  plain notebookId -> plain karakeepId ->
  serves 1 w ->
  ∃ w', findExistingDocIdByKarakeepId notebookId karakeepId w
        = (Ok (head (doc_id <$> carrying notebookId karakeepId w)), w')
    ∧ docs w' = docs w ∧ next_id w' = next_id w ∧ faults w' = tail (faults w)
    ∧ settings w' = settings w.
Proof.
  intros Hplain Hplain' [Hs _]%serves_S.
  destruct (findExistingDocIdByKarakeepId notebookId karakeepId w) as [r w'] eqn:E.
  assert (wp (findExistingDocIdByKarakeepId notebookId karakeepId) w
            (fun _ w' => next_id w' = next_id w ∧ faults w' = tail (faults w)
                         ∧ settings w' = settings w)) as Hw.
  { unfold findExistingDocIdByKarakeepId. wp_step. wp_step. wp_step. wp_step.
    apply wp_request.
    - intros fs Hfs. world_simpl. wp_auto; world_simpl; destruct Hfs as [[-> ->] | ->]; done.
    - intros n m fs Hfs. world_simpl. destruct Hs as [? | [? ?]]; congruence.
    - intros m fs Hfs. world_simpl. destruct Hs as [? | [? ?]]; congruence. }
  destruct (wp_eq _ _ _ Hw _ _ E) as (Hn & Hf & Hse).
  destruct (wp_eq _ _ _ (findExistingDocIdByKarakeepId_wp notebookId karakeepId w
                           Hplain Hplain') _ _ E)
    as [Hd Hr].
  exists w'. split; [| done].
  destruct Hs as [Ef | [fs Ef]]; rewrite Ef in Hr; by rewrite Hr.
Qed.

(** A record with dates, synchronised by a kernel that serves its
    requests, is found again: the document created carries the
    attributes of the record, among them its Karakeep id, and, the
    identifiers of the notebook and of the record being free of quotes,
    the lookup by this id returns a document; when no document carried
    the id before, it is the one just created. *)
Theorem createNewSiYuanDocument_found_again
    (bookmark : KarakeepBookmark) (notebookId title path : string)
    (a : gmap string string) (w : World) :
  plain notebookId -> plain (id bookmark) ->
  serves 3 w -> ids_fresh w ->
  docAttributes bookmark title = Ok a ->
  ∃ md w' docId,
    createNewSiYuanDocument bookmark notebookId title path w
    = (Ok {| status := created; message := None |}, w')
    ∧ docs w' = (docs w ++ [createdDoc w notebookId path md a])%list
    ∧ a !! ATTR_KARAKEEP_ID = Some (id bookmark)
    ∧ (findExistingDocIdByKarakeepId notebookId (id bookmark) w').1 = Ok (Some docId)
    ∧ (carrying notebookId (id bookmark) w = [] -> docId = Kernel.fresh_id (next_id w)).
Proof.
  intros Hplain Hplain' Hserves Hfresh Ha.
  destruct (serves_S _ _ Hserves) as [H1 Hrest].
  assert (serves 2 w) as Hs2 by (apply (serves_le 2 3); [lia | done]).
  destruct (createNewSiYuanDocument_served _ notebookId _ path _ _ Hs2 Hfresh Ha)
    as (md & w' & Hrun & _ & Hdocs & _ & Hf & Hcarry).
  assert (serves 1 w') as Hs'.
  { apply (proj2 (serves_S 1 (set_faults (tail (faults w)) w) (Hrest (set_faults (tail (faults w)) w) eq_refl))).
    by rewrite Hf. }
  destruct (findExistingDocIdByKarakeepId_served notebookId (id bookmark) w'
              Hplain Hplain' Hs')
    as (w'' & Hfind & _).
  exists md, w'. rewrite Hfind, Hcarry, fmap_app. cbn [fst].
  destruct (carrying notebookId (id bookmark) w) as [|d l]; simpl;
    (eexists; split; [done |]; split; [done |];
     split; [by apply docAttributes_id in Ha |]; split; [reflexivity | done]).
Qed.

(** The status [created] does not tell that the attributes were set.
    When the kernel serves the creation and then fails the request that
    sets the attributes, by an error code or by not answering, the
    failure is logged and swallowed: the outcome is [created], and the
    document stays without attributes, so that no lookup by the Karakeep
    id finds it. *)
Theorem createNewSiYuanDocument_created_without_attributes
    (bookmark : KarakeepBookmark) (notebookId title path : string)
    (a : gmap string string) (w : World) (f : Fault) (fs : list Fault) :
  faults w = Healthy :: f :: fs -> f ≠ Healthy ->
  docAttributes bookmark title = Ok a ->
  ∃ md w',
    createNewSiYuanDocument bookmark notebookId title path w
    = (Ok {| status := created; message := None |}, w')
    ∧ docs w' = (docs w ++ [createdDoc w notebookId path md ∅])%list
    ∧ carrying notebookId (id bookmark) w' = carrying notebookId (id bookmark) w.
Proof.
  intros Hfaults Hf Ha.
  assert (serves 1 w) as Hs1.
  { unfold serves. rewrite Hfaults. simpl. by apply Forall_cons. }
  destruct (createNewSiYuanDocument_run bookmark notebookId title path w Hs1)
    as (md & w' & Hmd & Hn & H).
  rewrite Ha, Hfaults in H. destruct H as (Hrun & _ & Hd). simpl in Hd.
  assert (docs w' = (docs w ++ [createdDoc w notebookId path md ∅])%list) as Hdocs
    by (destruct f; done).
  exists md, w'. do 2 (split; [done |]).
  unfold carrying. rewrite Hdocs, filter_app.
  rewrite filter_cons_False, filter_nil, app_nil_r; [done |].
  unfold Kernel.carries, createdDoc. simpl. rewrite lookup_empty.
  rewrite bool_decide_eq_false_2 by done. by rewrite andb_false_r.
Qed.

(** A record whose modified date is not a date leaves a document behind
    each time it is synchronised: the attribute object is built after the
    document is created, the RangeError of [toISOString] is caught by
    the creation path, the outcome is [error] with its message, and the
    document just created stays, without attributes. *)
Theorem createNewSiYuanDocument_invalid_date_leaves_document
    (bookmark : KarakeepBookmark) (notebookId title path : string) (w : World) :
  serves 1 w ->
  getTime (effectiveModified bookmark) = NaN ∨ getTime (createdAt bookmark) = NaN ->
  ∃ md w',
    createNewSiYuanDocument bookmark notebookId title path w
    = (Ok (result error "Invalid time value"), w')
    ∧ docs w' = (docs w ++ [createdDoc w notebookId path md ∅])%list
    ∧ carrying notebookId (id bookmark) w' = carrying notebookId (id bookmark) w.
Proof.
  intros Hs1 Hdate.
  destruct (createNewSiYuanDocument_run bookmark notebookId title path w Hs1)
    as (md & w' & Hmd & Hn & H).
  rewrite (docAttributes_invalid _ _ Hdate) in H. destruct H as (Hrun & Hdocs & _).
  exists md, w'. do 2 (split; [done |]).
  unfold carrying. rewrite Hdocs, filter_app.
  rewrite filter_cons_False, filter_nil, app_nil_r; [done |].
  unfold Kernel.carries, createdDoc. simpl. rewrite lookup_empty.
  rewrite bool_decide_eq_false_2 by done. by rewrite andb_false_r.
Qed.

End Creation.

(** The statement at the record of March in a world without documents:
    the lookup finds the document [doc-0]. *)
Lemma createNewSiYuanDocument_found_again_witness :
  ∃ w',
    createNewSiYuanDocument (RT := Reference.runtime) marchBookmark "notebook-1" "March"
      "/2024-03-01-March" freshWorld
    = (Ok {| status := created; message := None |}, w')
    ∧ (findExistingDocIdByKarakeepId (RT := Reference.runtime) "notebook-1" "bk-march" w').1
      = Ok (Some "doc-0").
Proof.
  destruct (docAttributes_valid (RT := Reference.runtime) marchBookmark "March") as [a Ha];
    [vm_compute; discriminate.. |].
  destruct (createNewSiYuanDocument_found_again (RT := Reference.runtime) marchBookmark
              "notebook-1" "March" "/2024-03-01-March" a freshWorld)
    as (md & w' & docId & Hrun & _ & _ & Hfind & Hnew).
  - reflexivity.
  - reflexivity.
  - apply Forall_nil_2.
  - intros d n Hd. destruct (not_elem_of_nil _ Hd).
  - exact Ha.
  - exists w'. split; [exact Hrun |]. rewrite (Hnew eq_refl) in Hfind. exact Hfind.
Defined.

(** The statement at the record of March when the kernel refuses to set
    the attributes. *)
Lemma createNewSiYuanDocument_created_without_attributes_witness :
  ∃ w',
    createNewSiYuanDocument (RT := Reference.runtime) marchBookmark "notebook-1" "March"
      "/2024-03-01-March" halfServingWorld
    = (Ok {| status := created; message := None |}, w')
    ∧ length (docs w') = 1%nat
    ∧ carrying "notebook-1" "bk-march" w' = [].
Proof.
  destruct (docAttributes_valid (RT := Reference.runtime) marchBookmark "March") as [a Ha];
    [vm_compute; discriminate.. |].
  destruct (createNewSiYuanDocument_created_without_attributes (RT := Reference.runtime)
              marchBookmark "notebook-1" "March" "/2024-03-01-March" a halfServingWorld
              (Refuse (-1) "attributes are read-only") [])
    as (md & w' & Hrun & Hdocs & Hcarry); [reflexivity | done | exact Ha |].
  exists w'. split; [exact Hrun |]. split; [by rewrite Hdocs | exact Hcarry].
Defined.

(** The statement at the record of March with the modified date [soon]. *)
Lemma createNewSiYuanDocument_invalid_date_leaves_document_witness :
  ∃ w',
    createNewSiYuanDocument (RT := Reference.runtime) misdatedBookmark "notebook-1" "March"
      "/2024-03-01-March" freshWorld
    = (Ok (result error "Invalid time value"), w')
    ∧ length (docs w') = 1%nat.
Proof.
  destruct (createNewSiYuanDocument_invalid_date_leaves_document (RT := Reference.runtime)
              misdatedBookmark "notebook-1" "March" "/2024-03-01-March" freshWorld)
    as (md & w' & Hrun & Hdocs & _).
  - apply Forall_nil_2.
  - left. vm_compute. reflexivity.
  - exists w'. split; [exact Hrun | by rewrite Hdocs].
Defined.

(** ** Synchronising a record twice *)

Section Twice.

Context `{RT : Runtime}.

Lemma serves_always n w : faults w = [] -> serves n w.
Proof. unfold serves. intros ->. rewrite take_nil. apply Forall_nil_2. Qed.

(** The retrieval of the attributes when the kernel serves it. *)
Lemma getSiYuanBlockAttrs_served blockId w :
  serves 1 w ->
  ∃ w', getSiYuanBlockAttrs blockId w = (Ok (attrs <$> Kernel.find_doc blockId w), w')
    ∧ docs w' = docs w ∧ next_id w' = next_id w ∧ faults w' = tail (faults w).
Proof.
  intros [Hs _]%serves_S.
  destruct (getSiYuanBlockAttrs blockId w) as [r w'] eqn:E. exists w'.
  assert (wp (getSiYuanBlockAttrs blockId) w
            (fun r w' => r = Ok (attrs <$> Kernel.find_doc blockId w)
                         ∧ docs w' = docs w ∧ next_id w' = next_id w
                         ∧ faults w' = tail (faults w))) as Hw.
  { unfold getSiYuanBlockAttrs. wp_step. wp_step. apply wp_request.
    - intros fs Hfs. unfold Kernel.getBlockAttrs.
      change (Kernel.find_doc blockId _) with (Kernel.find_doc blockId w).
      destruct (Kernel.find_doc blockId w) as [d|]; world_simpl;
        wp_auto; world_simpl; destruct Hfs as [[-> ->] | ->]; done.
    - intros n m fs Hfs. destruct Hs as [? | [? ?]]; congruence.
    - intros m fs Hfs. destruct Hs as [? | [? ?]]; congruence. }
  destruct (wp_eq _ _ _ Hw _ _ E) as (-> & ?). done.
Qed.

Lemma find_doc_last i w w' d :
  docs w' = (docs w ++ [d])%list -> doc_id d = i ->
  (∀ d0, d0 ∈ docs w -> doc_id d0 ≠ i) ->
  Kernel.find_doc i w' = Some d.
Proof.
  unfold Kernel.find_doc. intros -> Hd Hnone.
  induction (docs w) as [|d0 l IH]; simpl.
  - by rewrite Hd, String.eqb_refl.
  - destruct (String.eqb_spec (doc_id d0) i) as [E | _].
    + exfalso. apply (Hnone d0); [set_solver | done].
    + apply IH. intros d1 Hd1. apply Hnone. set_solver.
Qed.

Lemma iso_of_time_nonempty t : iso_of_time t ≠ "".
Proof.
  unfold iso_of_time. destruct (civil_from_days (t / msPerDay)) as [[y m] d].
  generalize (year_string y). intros s.
  destruct s; rewrite ?string_app_cons, ?string_app_nil_l; discriminate.
Qed.

(** The path of a record with a creation date. *)
Lemma processBookmark_dated bookmark notebookId w t :
  passesFilters (settings w) bookmark = true ->
  getTime (createdAt bookmark) = Time t ->
  ∃ title sanitized,
    getBookmarkTitle bookmark = Ok title
    ∧ sanitizeSiYuanPath title (createdAt bookmark) = Ok sanitized
    ∧ processBookmark bookmark notebookId w
      = try_catch
          (existingDocId ← findExistingDocIdByKarakeepId notebookId (id bookmark);
           if truthy existingDocId then
             let existingDocId := or_else existingDocId EmptyString in
             shouldUpdate ← shouldUpdateDocument existingDocId bookmark;
             if (shouldUpdate : bool) then
               _ ← logInfo;
               updateSiYuanDocument existingDocId bookmark notebookId title
                 (singleLeadingSlash ("/" +:+ sanitized))
             else
               _ ← logInfo;
               mret (result skipped "Exists, no update needed")
           else
             _ ← logInfo;
             createNewSiYuanDocument bookmark notebookId title
               (singleLeadingSlash ("/" +:+ sanitized)))
          (fun e =>
             _ ← logError;
             mret (result error (if nonempty e then e else "Unknown processing error"))) w.
Proof.
  intros Hp Ht.
  destruct (getBookmarkTitle_outcome bookmark) as [[title Htitle] | [_ Hn]]; [| congruence].
  exists title. eexists. split; [exact Htitle |]. split.
  - unfold sanitizeSiYuanPath. by rewrite (isoDate_of_time _ _ Ht).
  - rewrite (processBookmark_unfiltered _ _ _ Hp), Htitle, run_lift_ok.
    unfold sanitizeSiYuanPath. rewrite (isoDate_of_time _ _ Ht), run_lift_ok. reflexivity.
Qed.

(** A record that has been created is not created again.  In a world
    whose kernel serves every request and where no document carries the
    id of the record, the identifiers of the notebook and of the record
    being free of quotes, the record is created; synchronised again at
    once, it is skipped, and the store stays as it is.  This holds when
    updating is disabled, and when it is enabled provided the modified
    time of the record is not the epoch and is read back from its ISO
    form: an unchanged record whose modified time is the epoch is
    updated again. *)
Theorem processBookmark_again_skipped
    (bookmark : KarakeepBookmark) (notebookId : string) (w : World) (t m : Z) :
  plain notebookId -> plain (id bookmark) ->
  faults w = [] -> ids_fresh w ->
  passesFilters (settings w) bookmark = true ->
  getTime (createdAt bookmark) = Time t ->
  getTime (effectiveModified bookmark) = Time m ->
  carrying notebookId (id bookmark) w = [] ->
  updateExistingFiles (settings w) = false ∨ m ≠ 0 ∧ getTime (iso_of_time m) = Time m ->
  ∃ w1 w2,
    processBookmark bookmark notebookId w = (Ok {| status := created; message := None |}, w1)
    ∧ length (docs w1) = S (length (docs w))
    ∧ processBookmark bookmark notebookId w1
      = (Ok (result skipped "Exists, no update needed"), w2)
    ∧ docs w2 = docs w1.
Proof.
  intros Hplain Hplain' Hfaults Hfresh Hpass Ht Hm Hnone Hupdate.
  destruct (processBookmark_dated _ notebookId _ _ Hpass Ht)
    as (title & sanitized & Htitle & Hpath & Hrun).
  set (path := singleLeadingSlash ("/" +:+ sanitized)) in *.
  destruct (docAttributes_valid bookmark title) as [a Ha]; [congruence.. |].
  (* the first run *)
  destruct (findExistingDocIdByKarakeepId_served notebookId (id bookmark) w Hplain Hplain')
    as (w0 & Hfind & Hd0 & Hn0 & Hf0 & Hs0); [by apply serves_always |].
  rewrite Hnone in Hfind. rewrite Hfaults in Hf0. simpl in Hfind, Hf0.
  destruct (createNewSiYuanDocument_served bookmark notebookId title path a
              (record_line Info w0)) as (md & w1 & Hcreate & _ & Hd1 & Hn1 & Hf1 & Hc1);
    [by apply serves_always | | exact Ha |].
  { intros d n Hd Hn. apply Hfresh; [by rewrite <- Hd0 | by rewrite <- Hn0]. }
  assert (processBookmark bookmark notebookId w
          = (Ok {| status := created; message := None |}, w1)) as Hrun1.
  { rewrite Hrun. erewrite run_catch; [reflexivity |].
    rewrite (run_bind _ _ _ _ _ Hfind). cbn [truthy]. unfold logInfo at 1.
    rewrite run_modify. exact Hcreate. }
  pose proof (createNewSiYuanDocument_keeps sameEnv bookmark notebookId title path
                (record_line Info w0)) as Hk.
  rewrite Hcreate in Hk. destruct Hk as (Hs1 & _). simpl in Hs1, Hd1, Hn1, Hf1, Hc1.
  rewrite Hf0 in Hf1. simpl in Hf1.
  assert (createdDoc (record_line Info w0) notebookId path md a
          = createdDoc w notebookId path md a) as Hnew
    by (unfold createdDoc; simpl; by rewrite Hn0).
  rewrite Hnew, Hd0 in Hd1.
  assert (carrying notebookId (id bookmark) (record_line Info w0) = []) as Hc0
    by (unfold carrying in *; simpl; by rewrite Hd0).
  rewrite Hc0, Hnew in Hc1. simpl in Hc1.
  (* the second run *)
  assert (passesFilters (settings w1) bookmark = true) as Hpass1 by (by rewrite Hs1, Hs0).
  destruct (processBookmark_dated _ notebookId _ _ Hpass1 Ht)
    as (title' & sanitized' & Htitle' & Hpath' & Hrun').
  rewrite Htitle in Htitle'. injection Htitle' as <-.
  rewrite Hpath in Hpath'. injection Hpath' as <-. fold path in Hrun'.
  destruct (findExistingDocIdByKarakeepId_served notebookId (id bookmark) w1 Hplain Hplain')
    as (w2 & Hfind2 & Hd2 & Hn2 & Hf2 & Hs2); [by apply serves_always |].
  rewrite Hc1 in Hfind2. simpl in Hfind2.
  assert (∃ w3, shouldUpdateDocument (Kernel.fresh_id (next_id w)) bookmark w2 = (Ok false, w3)
                ∧ docs w3 = docs w2) as (w3 & Hshould & Hd3).
  { unfold shouldUpdateDocument. rewrite run_get, Hs2, Hs1, Hs0. simpl.
    destruct Hupdate as [-> | [Hm0 Hback]]; [by eexists |].
    destruct (updateExistingFiles (settings w)); [| by eexists]. simpl.
    destruct (getSiYuanBlockAttrs_served (Kernel.fresh_id (next_id w)) w2)
      as (w3 & Hget & Hd3 & _); [apply serves_always; by rewrite Hf2, Hf1 |].
    rewrite (find_doc_last _ w w2 (createdDoc w notebookId path md a)) in Hget.
    2: { by rewrite Hd2. }
    2: { done. }
    2: { intros d0 Hd0' E. by apply (Hfresh d0 (next_id w)). }
    rewrite (run_bind _ _ _ _ _ Hget). simpl.
    destruct (docAttributes_modified _ _ _ Ha) as (iso & Hiso & ->).
    unfold isoString in Hiso. rewrite Hm in Hiso.
    change (Ok (iso_of_time m) = Ok iso) in Hiso.
    assert (iso = iso_of_time m) as -> by congruence. clear Hiso.
    cbn [or_else truthy].
    pose proof (iso_of_time_nonempty m) as Hne.
    destruct (iso_of_time m) as [|c s] eqn:Eiso; [done |]. cbn [nonempty or_else].
    rewrite Hback, Hm. simpl. rewrite Z.ltb_irrefl, (proj2 (Z.eqb_neq m 0) Hm0). simpl.
    by eexists. }
  exists w1, (record_line Info w3). split; [exact Hrun1 |].
  split; [by rewrite Hd1, length_app, Nat.add_1_r |].
  split; [| simpl; congruence].
  rewrite Hrun'. erewrite run_catch; [reflexivity |].
  rewrite (run_bind _ _ _ _ _ Hfind2).
  replace (truthy (Some (Kernel.fresh_id (next_id w)))) with true by reflexivity.
  cbn [or_else]. 
  change (or_else (Some (Kernel.fresh_id (next_id w))) "") with (Kernel.fresh_id (next_id w)).
  by rewrite (run_bind _ _ _ _ _ Hshould).
Qed.

End Twice.

(** The statement at the record of March in a world without documents. *)
Lemma processBookmark_again_skipped_witness :
  ∃ w1 w2,
    processBookmark (RT := Reference.runtime) marchBookmark "notebook-1" freshWorld
    = (Ok {| status := created; message := None |}, w1)
    ∧ processBookmark (RT := Reference.runtime) marchBookmark "notebook-1" w1
      = (Ok (result skipped "Exists, no update needed"), w2)
    ∧ length (docs w2) = 1%nat.
Proof.
  edestruct (processBookmark_again_skipped (RT := Reference.runtime) marchBookmark
               "notebook-1" freshWorld) as (w1 & w2 & Hrun1 & Hlen & Hrun2 & Hdocs).
  - reflexivity.
  - reflexivity.
  - reflexivity.
  - intros d n Hd. destruct (not_elem_of_nil _ Hd).
  - reflexivity.
  - vm_compute. reflexivity.
  - vm_compute. reflexivity.
  - reflexivity.
  - by left.
  - exists w1, w2. split; [exact Hrun1 |]. split; [exact Hrun2 |]. by rewrite Hdocs, Hlen.
Defined.

(** ** A store that only grows *)

Lemma to_uint_nonnil n : Nat.to_uint n ≠ Decimal.Nil.
Proof.
  intros E.
  assert (n = 0%nat) as -> by (rewrite <- (DecimalNat.Unsigned.of_to n), E; reflexivity).
  discriminate E.
Qed.

(** The decimal numeral of a number determines it. *)
Lemma of_nat_inj n n' : of_nat n = of_nat n' -> n = n'.
Proof.
  unfold of_nat. intros H. apply DecimalNat.Unsigned.to_uint_inj.
  assert (Some (Nat.to_uint n) = Some (Nat.to_uint n')) as [= E]; [| exact E].
  rewrite <- !NilZero.usu by apply to_uint_nonnil.
  by rewrite H.
Qed.

Lemma fresh_id_inj n n' : Kernel.fresh_id n = Kernel.fresh_id n' -> n = n'.
Proof. unfold Kernel.fresh_id. rewrite !string_app_cons. intros [= H]. by apply of_nat_inj. Qed.

#[global] Instance grows_preorder : PreOrder grows.
Proof.
  split.
  - intros w Hflag Hfresh. done.
  - intros w1 w2 w3 H12 H23 Hflag Hfresh.
    destruct (H12 Hflag Hfresh) as (Hflag2 & Hfresh2 & Hle2 & Hp2).
    destruct (H23 Hflag2 Hfresh2) as (Hflag3 & Hfresh3 & Hle3 & Hp3).
    repeat split; [done | done | lia | by etrans].
Qed.

Lemma grows_same w w' :
  settings w' = settings w -> docs w' = docs w -> next_id w' = next_id w -> grows w w'.
Proof.
  intros Hs Hd Hn Hflag Hfresh. rewrite Hs, Hd, Hn. repeat split; try done.
  intros d n Hin Hle. apply Hfresh; [by rewrite <- Hd | by rewrite <- Hn].
Qed.

#[global] Instance grows_calls : KeepsCalls grows.
Proof. intros c w. by apply grows_same. Qed.
#[global] Instance grows_lines : KeepsLines grows.
Proof. intros l w. by apply grows_same. Qed.
#[global] Instance grows_faults : KeepsFaults grows.
Proof. intros l w. by apply grows_same. Qed.
#[global] Instance grows_web : KeepsWeb grows.
Proof. intros l w. by apply grows_same. Qed.
#[global] Instance grows_uploads : KeepsUploads grows.
Proof. intros l w. by apply grows_same. Qed.

Section AppendOnly.

Context `{RT : Runtime}.

Lemma findExistingDocIdByKarakeepId_grows notebookId karakeepId :
  Keeps grows (findExistingDocIdByKarakeepId notebookId karakeepId).
Proof. unfold findExistingDocIdByKarakeepId. keeps_auto. by intros w. Qed.

(** A document added under the next id keeps the ids to come unused. *)
Lemma ids_fresh_snoc w w' d :
  ids_fresh w -> docs w' = (docs w ++ [d])%list ->
  doc_id d = Kernel.fresh_id (next_id w) -> next_id w' = S (next_id w) ->
  ids_fresh w'.
Proof.
  intros Hfresh Hd Hid Hn d0 n Hin Hle. rewrite Hd in Hin. rewrite Hn in Hle.
  apply elem_of_app in Hin as [Hin | ->%list_elem_of_singleton].
  - apply Hfresh; [done | lia].
  - rewrite Hid. intros E%fresh_id_inj. lia.
Qed.

Lemma createNewSiYuanDocument_grows bookmark notebookId title path :
  Keeps grows (createNewSiYuanDocument bookmark notebookId title path).
Proof.
  intros w Hflag Hfresh.
  pose proof (createNewSiYuanDocument_keeps sameEnv bookmark notebookId title path w)
    as (Hs & _).
  rewrite Hs. split; [done |].
  destruct (formatBookmarkAsMarkdown_run bookmark title w) as (md & w1 & Hf & Hd1 & Hn1 & Hf1).
  destruct (createSiYuanDocWithMd notebookId path md (id bookmark) w1) as [r2 w2] eqn:Hc.
  destruct (wp_eq _ _ _ (createSiYuanDocWithMd_run _ _ _ _ _) _ _ Hc) as [Hf2 H2].
  unfold createNewSiYuanDocument, try_catch.
  rewrite (run_bind _ _ _ _ _ Hf).
  assert (r2 = Ok None ∧ docs w2 = docs w ∧ next_id w2 = next_id w
          ∨ r2 = Ok (Some (Kernel.fresh_id (next_id w)))
            ∧ docs w2 = (docs w ++ [createdDoc w notebookId path md ∅])%list
            ∧ next_id w2 = S (next_id w)) as [(-> & Hd2 & Hn2) | (-> & Hd2 & Hn2)].
  { unfold createdDoc in *. rewrite Hd1, Hn1 in H2.
    destruct (faults w1) as [|[] ?]; [right | right | left | left]; exact H2. }
  { rewrite (run_bind _ _ _ _ _ Hc). simpl. rewrite Hd2, Hn2. repeat split; try done.
    intros d n Hin Hle. apply Hfresh; [by rewrite <- Hd2 | by rewrite <- Hn2]. }
  rewrite (run_bind _ _ _ _ _ Hc).
  destruct (setSiYuanDocAttributes (Kernel.fresh_id (next_id w)) bookmark title w2)
    as [r3 w3] eqn:Hset.
  pose proof (wp_eq _ _ _ (setSiYuanDocAttributes_run _ _ _ _) _ _ Hset) as H3.
  destruct (docAttributes bookmark title) as [a|e].
  - destruct H3 as (-> & Hn3 & Hf3 & Hd3). rewrite (run_bind _ _ _ _ _ Hset). simpl.
    assert (∃ d, doc_id d = Kernel.fresh_id (next_id w) ∧ docs w3 = (docs w ++ [d])%list)
      as (d & Hid & Hd).
    { rewrite Hd2 in Hd3.
      rewrite (fresh_only_new w (createdDoc w notebookId path md ∅) _ Hfresh eq_refl) in Hd3.
      destruct (faults w2) as [|[] ?]; (eexists; split; [| exact Hd3]; reflexivity). }
    split; [by apply (ids_fresh_snoc w w3 d); [| | | congruence] |].
    split; [lia |]. rewrite Hd. by apply prefix_app_r.
  - destruct H3 as [-> ->]. rewrite (run_bind_throw _ _ _ _ _ Hset). simpl.
    split; [by apply (ids_fresh_snoc w w2 (createdDoc w notebookId path md ∅)) |].
    split; [lia |]. rewrite Hd2. by apply prefix_app_r.
Qed.

Lemma processBookmark_grows bookmark notebookId :
  Keeps grows (processBookmark bookmark notebookId).
Proof.
  intros w Hflag Hfresh.
  assert (wp (processBookmark bookmark notebookId) w
            (fun _ w' =>
               updateExistingFiles (settings w') = false ∧ ids_fresh w'
               ∧ (next_id w <= next_id w')%nat ∧ docs w `prefix_of` docs w')) as H;
    [| exact H].
  unfold processBookmark. wp_step. wp_step.
  wp_step; [by wp_step |]. wp_step; [by wp_step |]. wp_step; [by wp_step |].
  wp_step. wp_step. destruct (getBookmarkTitle bookmark) as [title|e]; [| done].
  wp_step. wp_step. destruct (sanitizeSiYuanPath title (createdAt bookmark)) as [p|e]; [| done].
  wp_step. wp_step.
  eapply wp_mono; [apply (keeps_wp grows), findExistingDocIdByKarakeepId_grows |].
  intros r w1 H1. destruct (H1 Hflag Hfresh) as (Hflag1 & Hfresh1 & Hle1 & Hp1).
  destruct r as [existingDocId|e]; [| by wp_auto].
  wp_step.
  - wp_step. unfold shouldUpdateDocument. wp_step. wp_step. rewrite Hflag1. simpl.
    wp_auto. world_simpl. done.
  - wp_step. wp_step.
    eapply wp_mono; [apply (keeps_wp grows), createNewSiYuanDocument_grows |].
    intros r w2 H2. destruct (H2 Hflag1 Hfresh1) as (Hflag2 & Hfresh2 & Hle2 & Hp2).
    destruct r as [pr|e]; [| wp_auto];
      (split; [done |]; split; [done |]; split; [simpl in *; lia | by etrans]).
Qed.

Lemma processPage_grows bookmarks notebookId processed stats :
  Keeps grows (processPage bookmarks notebookId processed stats).
Proof.
  revert processed stats.
  induction bookmarks as [|b rest IH]; intros processed stats; simpl; keeps_auto;
    first [apply IH | apply processBookmark_grows].
Qed.

Lemma fetchKarakeepBookmarks_grows cursor : Keeps grows (fetchKarakeepBookmarks cursor).
Proof.
  unfold fetchKarakeepBookmarks. keeps_auto. intros w. by apply grows_same.
Qed.

Lemma syncPages_grows fuel notebookId cursor processed stats :
  Keeps grows (syncPages fuel notebookId cursor processed stats).
Proof.
  revert cursor processed stats.
  induction fuel as [|fuel IH]; intros cursor processed stats; simpl; keeps_auto;
    first [apply IH | apply processPage_grows | apply fetchKarakeepBookmarks_grows].
Qed.

Lemma runSyncCycle_grows fuel : Keeps grows (runSyncCycle fuel).
Proof.
  unfold runSyncCycle, syncAttempt, completeMessage. keeps_auto;
    [apply syncPages_grows |].
  apply (keeps_modify grows). by intros w Hflag Hfresh.
Qed.

(** With updating disabled a cycle never deletes or changes a document:
    provided the ids the kernel hands out are not in use already, the
    documents the store held before the cycle are all there after it,
    with their bodies and attributes, in the same order, followed by the
    documents the cycle created.  This holds however the cycle ends,
    whatever the source delivers and whatever the kernel refuses. *)
Theorem runSyncCycle_append_only (fuel : nat) (w : World) :
  updateExistingFiles (settings w) = false -> ids_fresh w ->
  ∃ new, docs (runSyncCycle fuel w).2 = (docs w ++ new)%list
    ∧ updateExistingFiles (settings (runSyncCycle fuel w).2) = false.
Proof.
  intros Hflag Hfresh.
  destruct (runSyncCycle_grows fuel w Hflag Hfresh) as (Hflag' & _ & _ & [new Hnew]).
  by exists new.
Qed.

End AppendOnly.

(** The statement in a world that holds the document of March. *)
Lemma runSyncCycle_append_only_witness :
  ∃ new,
    docs (runSyncCycle (RT := Reference.runtime) 2 quietWorld).2
    = syncedDoc "20240301-doc" "bk-march" "2024-03-01T00:00:00.000Z" :: new.
Proof.
  destruct (runSyncCycle_append_only (RT := Reference.runtime) 2 quietWorld)
    as (new & Hnew & _).
  - reflexivity.
  - intros d n Hd _. apply list_elem_of_singleton in Hd as ->.
    unfold Kernel.fresh_id. simpl. rewrite !string_app_cons. discriminate.
  - exists new. exact Hnew.
Defined.

(** ** Failures of the kernel and of the source *)

Section Failures.

Context `{RT : Runtime}.

Lemma getSiYuanBlockAttrs_failing blockId w :
  wp (getSiYuanBlockAttrs blockId) w
     (fun r w' => ∀ f fs, faults w = f :: fs -> f ≠ Healthy ->
        r = Ok None ∧ docs w' = docs w ∧ faults w' = fs).
Proof.
  unfold getSiYuanBlockAttrs. wp_step. wp_step. apply wp_request.
  - intros fs Hfs. unfold Kernel.getBlockAttrs.
    destruct (Kernel.find_doc _ _); world_simpl; wp_auto;
      intros f fs' E Hf; exfalso; destruct Hfs as [[? _] | ?]; congruence.
  - intros n m fs Hfs. wp_step; [wp_step |].
    { by rewrite failed_code in Heqb. }
    all: wp_auto; intros f fs' E Hf; world_simpl; by replace fs' with fs by congruence.
  - intros m fs Hfs. wp_auto. intros f fs' E Hf. world_simpl.
    by replace fs' with fs by congruence.
Qed.

Lemma createSiYuanDocWithMd_failing notebookId path md karakeepIdForLog w :
  wp (createSiYuanDocWithMd notebookId path md karakeepIdForLog) w
     (fun r w' => ∀ f fs, faults w = f :: fs -> f ≠ Healthy ->
        r = Ok None ∧ docs w' = docs w ∧ faults w' = fs).
Proof.
  intros. eapply wp_mono; [apply createSiYuanDocWithMd_run |].
  intros r w' [Hf H] f fs E Hne. rewrite E in Hf, H. simpl in Hf.
  destruct f; [done | |]; by destruct H as (? & ? & _).
Qed.

Lemma removeSiYuanDocById_failing docId w :
  wp (removeSiYuanDocById docId) w
     (fun r w' => ∀ f fs, faults w = f :: fs -> f ≠ Healthy ->
        r = Ok false ∧ docs w' = docs w ∧ faults w' = fs).
Proof.
  unfold removeSiYuanDocById. wp_step. wp_step. wp_step. wp_step. apply wp_request.
  - intros fs Hfs. unfold Kernel.removeDocByID.
    destruct (Kernel.find_doc _ _); world_simpl; wp_auto;
      intros f fs' E Hf; exfalso; destruct Hfs as [[? _] | ?]; congruence.
  - intros n m fs Hfs. wp_step.
    { by rewrite failed_code in Heqb. }
    wp_auto. intros f fs' E Hf. world_simpl. by replace fs' with fs by congruence.
  - intros m fs Hfs. wp_auto. intros f fs' E Hf. world_simpl.
    by replace fs' with fs by congruence.
Qed.

(** The adapter turns the failures of the kernel into values.  When the
    kernel answers a request with an error code, or does not answer it,
    the retrieval of the attributes returns null, the creation returns
    null and the deletion returns false; none of them throws, and the
    documents stay as they were.  Setting the attributes returns too,
    as if nothing had failed, as soon as the record has its dates. *)
Theorem adapter_failures_are_values
    (w : World) (f : Fault) (fs : list Fault)
    (blockId notebookId path md karakeepIdForLog title : string) (bookmark : KarakeepBookmark)
    (a : gmap string string) :
  faults w = f :: fs -> f ≠ Healthy ->
  (∃ w', getSiYuanBlockAttrs blockId w = (Ok None, w') ∧ docs w' = docs w)
  ∧ (∃ w', createSiYuanDocWithMd notebookId path md karakeepIdForLog w = (Ok None, w')
           ∧ docs w' = docs w)
  ∧ (∃ w', removeSiYuanDocById blockId w = (Ok false, w') ∧ docs w' = docs w)
  ∧ (docAttributes bookmark title = Ok a ->
     ∃ w', setSiYuanDocAttributes blockId bookmark title w = (Ok tt, w')
           ∧ docs w' = docs w).
Proof.
  intros E Hf. split; [| split; [| split]].
  - destruct (getSiYuanBlockAttrs blockId w) as [r w'] eqn:Hrun.
    destruct (wp_eq _ _ _ (getSiYuanBlockAttrs_failing _ _) _ _ Hrun f fs E Hf) as (-> & ? & _).
    eauto.
  - destruct (createSiYuanDocWithMd notebookId path md karakeepIdForLog w) as [r w'] eqn:Hrun.
    destruct (wp_eq _ _ _ (createSiYuanDocWithMd_failing _ _ _ _ _) _ _ Hrun f fs E Hf)
      as (-> & ? & _).
    eauto.
  - destruct (removeSiYuanDocById blockId w) as [r w'] eqn:Hrun.
    destruct (wp_eq _ _ _ (removeSiYuanDocById_failing _ _) _ _ Hrun f fs E Hf) as (-> & ? & _).
    eauto.
  - intros Ha.
    destruct (setSiYuanDocAttributes blockId bookmark title w) as [r w'] eqn:Hrun.
    pose proof (wp_eq _ _ _ (setSiYuanDocAttributes_run _ _ _ _) _ _ Hrun) as H.
    rewrite Ha, E in H. destruct H as (-> & _ & _ & Hd).
    exists w'. split; [done |]. by destruct f.
Qed.

End Failures.

(** The statement in a world whose kernel cannot be reached. *)
Lemma adapter_failures_are_values_witness :
  (getSiYuanBlockAttrs "20240301-doc" offlineWorld).1 = Ok None
  ∧ (removeSiYuanDocById "20240301-doc" offlineWorld).1 = Ok false.
Proof.
  destruct (docAttributes_valid (RT := Reference.runtime) marchBookmark "March") as [a Ha];
    [vm_compute; discriminate.. |].
  destruct (adapter_failures_are_values (RT := Reference.runtime) offlineWorld
              (Disconnect "Failed to fetch") [] "20240301-doc" "notebook-1" "/p" "" "bk-march"
              "March" marchBookmark a eq_refl)
    as ((w1 & -> & _) & _ & (w3 & -> & _) & _); done.
Defined.

Section Source.

Context `{RT : Runtime}.

(** A request to the Karakeep API sends one request, with the cursor
    when there is a non-empty one, and uses up one answer.  An answer
    with an OK status is returned as its body parses, and a body that
    does not parse is thrown without a line in the log.  An answer
    with another status is thrown as an error that shows the status and
    the text of the answer, after two error lines: one where the status
    is found, one in the handler that throws the error again.  A request
    that fails is thrown again after one error line.  The store is not
    touched. *)
Theorem fetchKarakeepBookmarks_outcomes
    (cursor : option string) (w : World) (answer : Res PageResponse)
    (rest : list (Res PageResponse)) :
  source w = answer :: rest ->
  ∃ r w',
    fetchKarakeepBookmarks cursor w = (r, w')
    ∧ calls w' = (calls w ++ [FetchBookmarks (if truthy cursor then cursor else None)])%list
    ∧ source w' = rest ∧ docs w' = docs w ∧ settings w' = settings w
    ∧ match answer with
      | Throw e => r = Throw e ∧ console w' = (console w ++ [Info; Error])%list
      | Ok p =>
          if page_ok p then r = page_json p ∧ console w' = (console w ++ [Info])%list
          else
            match page_text p with
            | Ok errorText =>
                r = Throw ("Karakeep API request failed: " +:+ of_nat (page_status p)
                           +:+ " " +:+ errorText)
                ∧ console w' = (console w ++ [Info; Error; Error])%list
            | Throw e => r = Throw e ∧ console w' = (console w ++ [Info; Error])%list
            end
      end.
Proof.
  intros Hsrc.
  unfold fetchKarakeepBookmarks, try_catch, fetchPage, pageAnswer, logInfo, logError,
    modify, lift, throw, mbind, M_bind, mret, M_ret.
  cbn [source record_call record_line set_source]. rewrite Hsrc. cbn [tail].
  destruct answer as [p|e]; [destruct (page_ok p); cbn [negb];
                             [| destruct (page_text p) as [errorText|e]] |];
    eexists _, _; (split; [reflexivity |]); cbn; rewrite <- ?app_assoc; done.
Qed.

End Source.

(** The statement at an answer with the status 401. *)
Lemma fetchKarakeepBookmarks_outcomes_witness :
  (fetchKarakeepBookmarks None unauthorizedWorld).1
  = Throw "Karakeep API request failed: 401 Unauthorized".
Proof.
  destruct (fetchKarakeepBookmarks_outcomes None unauthorizedWorld _ [] eq_refl)
    as (r & w' & -> & _ & _ & _ & _ & H).
  simpl in H. by destruct H as [-> _].
Defined.

(** ** The asset pipeline: file names and credentials *)

Section AssetRequests.

Context `{RT : Runtime}.

Lemma all_chars_replace_class_of q0 q p r s :
  q r = true -> (∀ c, q0 c = true -> p c = false -> q c = true) ->
  all_chars q0 s = true ->
  all_chars q (replace_class p r s) = true.
Proof.
  intros Hr Hq. induction s as [|c s IH]; simpl; [done |].
  intros [Hc Hs]%andb_prop. rewrite (IH Hs), andb_true_r.
  destruct (p c) eqn:E; auto.
Qed.

Lemma includes_app_r a s u : includes a u = true -> includes a (s +:+ u) = true.
Proof.
  intros Hu. induction s as [|c s IH]; [done |].
  rewrite string_app_cons. simpl. by rewrite IH, orb_true_r.
Qed.

Lemma includes_app_l a s u : includes a s = true -> includes a (s +:+ u) = true.
Proof.
  induction s as [|c s IH]; [done |].
  rewrite string_app_cons. simpl. intros [-> | H]%orb_prop; [done |].
  by rewrite IH, orb_true_r.
Qed.

Lemma includes_replace_class a p r s :
  p a = false -> includes a s = true -> includes a (replace_class p r s) = true.
Proof.
  intros Ha. induction s as [|c s IH]; simpl; [done |].
  intros [Hc | Hs]%orb_prop.
  - apply Ascii.eqb_eq in Hc as <-. by rewrite Ha, Ascii.eqb_refl.
  - by rewrite (IH Hs), orb_true_r.
Qed.

(** The name under which an asset is uploaded is fit for a file: it has
    no backslash, slash, colon, star, question mark, double quote, angle
    bracket or bar and no white space, whatever the URL, the hints and
    the content type are; and it has an extension, that is a dot. *)
Theorem assetFileName_fit_for_a_file (assetUrl assetIdHint titleHint contentType : string) :
  all_chars file_char (assetFileName assetUrl assetIdHint titleHint contentType) = true
  ∧ includes "." (assetFileName assetUrl assetIdHint titleHint contentType) = true.
Proof.
  unfold assetFileName. split.
  - apply (all_chars_replace_class_of (fun c => negb (unsafe_file_char c))); [done | |].
    + intros c Hc Hs. unfold file_char. by rewrite Hc, Hs.
    + apply all_chars_replace_class; [done |]. by intros c ->.
  - do 2 (apply includes_replace_class; [done |]).
    case_match eqn:E.
    + do 3 apply includes_app_r. by apply includes_app_l.
    + apply orb_false_elim in E as [_ E]. by apply negb_false_iff in E.
Qed.

Lemma prefix_app p s : String.prefix p (p +:+ s) = true.
Proof.
  induction p as [|c p IH]; [by destruct s |].
  rewrite string_app_cons. simpl. by destruct (ascii_dec c c).
Qed.

Lemma downloadAndUploadAsset_calls settings assetUrl assetIdHint titleHint w :
  wp (downloadAndUploadAsset settings assetUrl assetIdHint titleHint) w
     (fun _ w' =>
        calls w'
        = (calls w ++ FetchAsset assetUrl (needsAuth settings assetUrl)
             :: uploadsAfter settings assetUrl assetIdHint titleHint (downloadAnswer w))%list).
Proof.
  unfold downloadAndUploadAsset, needsAuth, uploadsAfter. wp_step. wp_step. wp_step. wp_step.
  eapply wp_mono with
    (Q := fun r w' => r = Ok (needsAuth settings assetUrl)
                      ∧ calls w' = calls w ∧ web w' = web w).
  { unfold needsAuth. wp_auto; done. }
  intros r w1 (-> & Hc1 & Hweb). unfold needsAuth. wp_step. wp_step.
  assert (downloadAnswer w1 = downloadAnswer w) as -> by (unfold downloadAnswer; by rewrite Hweb).
  world_cbn. rewrite Hc1.
  destruct (downloadAnswer w) as [response|e]; [| by wp_auto].
  wp_step.
  { apply negb_true_iff in Heqb. rewrite Heqb. wp_auto; done. }
  apply negb_false_iff in Heqb. rewrite Heqb.
  wp_step. wp_step. destruct (body response) as [buffer|e]; [| by wp_auto].
  wp_step.
  eapply wp_mono with
    (Q := fun r w' => r = Ok tt
                      ∧ calls w' = (calls w ++ [FetchAsset assetUrl
                                    match URL_parse (apiEndpoint settings) with
                                    | Some u => startsWith (origin u) assetUrl
                                    | None => false
                                    end])%list).
  { wp_auto; done. }
  intros r w2 [-> Hc2].
  wp_step. wp_step. wp_step. wp_step. world_cbn. rewrite Hc2, <- app_assoc. simpl.
  destruct (Kernel.uploadAnswer _ _) as [answer|e]; wp_auto; done.
Qed.

(** The pipeline sends the download request, and after it one upload
    when the download was answered with an OK status and a body, nothing
    else.  The download carries the API key exactly when the asset URL
    starts with the characters of the origin of the API endpoint: so it
    does for every URL that extends the origin by any characters, be it
    a path on the host of the API or the rest of another host name. *)
Theorem downloadAndUploadAsset_requests
    (settings : KarakeepSyncSettings) (assetUrl assetIdHint titleHint : string) (w : World) :
  calls (downloadAndUploadAsset settings assetUrl assetIdHint titleHint w).2
  = (calls w ++ FetchAsset assetUrl (needsAuth settings assetUrl)
       :: uploadsAfter settings assetUrl assetIdHint titleHint (downloadAnswer w))%list
  ∧ (needsAuth settings assetUrl = true <->
     ∃ u, URL_parse (apiEndpoint settings) = Some u ∧ startsWith (origin u) assetUrl = true)
  ∧ (∀ u rest, URL_parse (apiEndpoint settings) = Some u ->
       needsAuth settings (origin u +:+ rest) = true).
Proof.
  split; [apply downloadAndUploadAsset_calls |]. unfold needsAuth. split.
  - destruct (URL_parse (apiEndpoint settings)) as [u|]; split; try done.
    + eauto.
    + by intros (? & [= <-] & ?).
    + by intros (? & [=] & _).
  - intros u rest ->. apply prefix_app.
Qed.

End AssetRequests.

(** The statement at an asset on a host whose name extends the name of
    the host of the API: the download carries the key. *)
Lemma downloadAndUploadAsset_requests_witness :
  calls (downloadAndUploadAsset (RT := Reference.runtime) (sampleSettings false [])
           lookalikeUrl "asset-1" "Cat" (downloadWorld (sampleSettings false []) 404)).2
  = [FetchAsset lookalikeUrl true].
Proof.
  destruct (downloadAndUploadAsset_requests (RT := Reference.runtime) (sampleSettings false [])
              lookalikeUrl "asset-1" "Cat" (downloadWorld (sampleSettings false []) 404))
    as (-> & _ & _).
  vm_compute. reflexivity.
Defined.

(** The statement at an asset without a name served as JPEG, and served
    with the content type [constructor], for which the table gives the
    function it inherits. *)
Lemma assetFileName_fit_for_a_file_witness :
  includes "." (assetFileName (RT := Reference.runtime) "https://example.com/a b" "asset-123456"
                  "My cat: Tom" "image/jpeg") = true
  ∧ assetFileName (RT := Reference.runtime) "https://example.com/a b" "asset-123456"
      "My cat: Tom" "constructor"
    = "asset-12-My-cat--Tom.function_Object()_{_[native_code]_}"
  ∧ all_chars file_char
      (assetFileName (RT := Reference.runtime) "https://example.com/a b" "asset-123456"
         "My cat: Tom" "constructor") = true.
Proof.
  split; [exact (proj2 (assetFileName_fit_for_a_file (RT := Reference.runtime) _ _ _ _)) |].
  split; [vm_compute; reflexivity |].
  exact (proj1 (assetFileName_fit_for_a_file (RT := Reference.runtime) _ _ _ _)).
Defined.

(** ** Titles of text records *)

Section TextTitles.

Context `{RT : Runtime}.

(** A text record without a title of its own is named after the first
    line of its text, trimmed, and cut to 97 characters and an ellipsis
    when it has more than 100: the title never has more than 100
    characters.  It may be empty, when the text starts with a blank
    line; the path of the document is then made of the date alone. *)
Theorem getBookmarkTitle_text (bookmark : KarakeepBookmark) (s : string) :
  trimmed (title bookmark) = None ->
  Content.type (content bookmark) = text ->
  Content.text (content bookmark) = Some s -> s ≠ "" ->
  let firstLine := trim (before (ascii_of_nat 10) s) in
  ∃ t,
    getBookmarkTitle bookmark = Ok t
    ∧ (String.length t <= 100)%nat
    ∧ ((String.length firstLine <= 100)%nat -> t = firstLine)
    ∧ ((100 < String.length firstLine)%nat -> t = prefix 97 firstLine +:+ "...")
    ∧ (firstLine = "" ->
       ∀ t0, getTime (createdAt bookmark) = Time t0 ->
         sanitizeSiYuanPath t (createdAt bookmark)
         = Ok (isoDay t0 +:+ "-" +:+ "bookmark-" +:+ isoDay t0)).
Proof.
  intros Htitle Htype Htext Hs firstLine.
  unfold getBookmarkTitle. rewrite Htitle, Htype, Htext.
  destruct s as [|c s]; [done |]. cbn [truthy nonempty or_else]. fold firstLine.
  destruct (String.length firstLine <=? 100)%nat eqn:E.
  - apply Nat.leb_le in E. exists firstLine. split; [done |]. split; [done |].
    split; [done |]. split; [lia |].
    intros Hblank t0 Ht0. rewrite Hblank. unfold sanitizeSiYuanPath.
    rewrite (isoDate_of_time _ _ Ht0).
    reflexivity.
  - apply Nat.leb_gt in E. eexists. split; [done |].
    split; [| split; [lia | split; [done |]]].
    + rewrite string_length_app. pose proof (prefix_length 97 firstLine).
      change (String.length "...") with 3%nat. lia.
    + intros Hblank. rewrite Hblank in E. simpl in E. lia.
Qed.

End TextTitles.

(** The statement at a text that starts with an empty line. *)
Lemma getBookmarkTitle_text_witness :
  getBookmarkTitle (RT := Reference.runtime) blankLineBookmark = Ok ""
  ∧ sanitizeSiYuanPath (RT := Reference.runtime) "" (createdAt blankLineBookmark)
    = Ok "2024-03-01-bookmark-2024-03-01".
Proof.
  destruct (getBookmarkTitle_text (RT := Reference.runtime) blankLineBookmark
              (nl +:+ "Shopping list")) as (t & Ht & _ & Hshort & _ & Hblank);
    [reflexivity | reflexivity | reflexivity | discriminate |].
  assert (t = "") as -> by (apply Hshort; vm_compute; lia).
  split; [exact Ht |].
  rewrite (Hblank eq_refl 1709251200000); [reflexivity | vm_compute; reflexivity].
Defined.

(** ** The tag filter *)

Section TagFilter.

Context `{RT : Runtime}.

Lemma hasExcludedTag_spec excluded bookmark :
  hasExcludedTag excluded bookmark = true
  <-> ∃ t tag, t ∈ excluded ∧ tag ∈ tags bookmark
        ∧ trim (toLowerCase t) ≠ ""
        ∧ trim (toLowerCase t) = toLowerCase (name tag).
Proof.
  unfold hasExcludedTag. rewrite existsb_exists. split.
  - intros (x & Hin & Hx). apply filter_In in Hin as [Hin Hne].
    apply list_elem_of_In, list_elem_of_fmap in Hin as (t & -> & Ht).
    apply bool_decide_eq_true, list_elem_of_fmap in Hx as (tag & Htag & Hin).
    exists t, tag. repeat split; try done. intros E. by rewrite E in Hne.
  - intros (t & tag & Ht & Htag & Hne & E).
    exists (trim (toLowerCase t)). split.
    + apply filter_In. split.
      * apply list_elem_of_In, list_elem_of_fmap. eauto.
      * by destruct (trim (toLowerCase t)).
    + apply bool_decide_eq_true, list_elem_of_fmap. eauto.
Qed.

(** The tag filter drops a record that is not favourited exactly when
    one of its tag names, in lower case, is an excluded tag in lower
    case and trimmed, the excluded tags that are blank being ignored.
    The names of the tags of the record are not trimmed.  A record that
    is dropped leaves no trace; one that passes the other two filters
    and has no such tag is not filtered at all. *)
Theorem processBookmark_excluded_tag
    (bookmark : KarakeepBookmark) (notebookId : string) (w : World) :
  favourited bookmark = false ->
  (excludeArchived (settings w) && archived bookmark) = false ->
  onlyFavorites (settings w) = false ->
  ((∃ t tag, t ∈ excludedTags (settings w) ∧ tag ∈ tags bookmark
       ∧ trim (toLowerCase t) ≠ ""
       ∧ trim (toLowerCase t) = toLowerCase (name tag)) ->
   processBookmark bookmark notebookId w = (Ok (result skipped_filtered "Excluded tag"), w))
  ∧ (¬ (∃ t tag, t ∈ excludedTags (settings w) ∧ tag ∈ tags bookmark
          ∧ trim (toLowerCase t) ≠ ""
          ∧ trim (toLowerCase t) = toLowerCase (name tag)) ->
     passesFilters (settings w) bookmark = true
     ∧ ∀ pr w', processBookmark bookmark notebookId w = (Ok pr, w') ->
         status pr ≠ skipped_filtered).
Proof.
  intros Hfav Harch Honly. split.
  - intros H. pose proof H as (t & _ & Ht & _). apply hasExcludedTag_spec in H.
    unfold processBookmark. rewrite run_get, Harch, Honly, Hfav, H. cbn [negb andb].
    assert ((0 <? length (excludedTags (settings w)))%nat = true) as ->; [| done].
    apply Nat.ltb_lt. destruct (excludedTags (settings w)); [| simpl; lia].
    by apply elem_of_nil in Ht.
  - intros H.
    assert (hasExcludedTag (excludedTags (settings w)) bookmark = false) as Hno.
    { destruct (hasExcludedTag _ _) eqn:E; [| done]. by apply hasExcludedTag_spec in E. }
    assert (passesFilters (settings w) bookmark = true) as Hpass.
    { unfold passesFilters. by rewrite Harch, Honly, Hno, !andb_false_r. }
    split; [done |]. intros pr w' Hrun Hs.
    pose proof (wp_eq _ _ _ (processBookmark_filtered bookmark notebookId w) _ _ Hrun pr
                  eq_refl Hs) as [(_ & He & Ha) | [(_ & Ho & _) | (_ & _ & Ht)]].
    + by rewrite He, Ha in Harch.
    + congruence.
    + congruence.
Qed.

End TagFilter.

(** The statement at a record tagged [Reading] where the tag
    [reading] is excluded. *)
Lemma processBookmark_excluded_tag_witness :
  processBookmark (RT := Reference.runtime) readingBookmark "notebook-1" taggedWorld
  = (Ok (result skipped_filtered "Excluded tag"), taggedWorld).
Proof.
  apply (processBookmark_excluded_tag (RT := Reference.runtime) readingBookmark "notebook-1"
           taggedWorld); try reflexivity.
  exists "reading", {| tag_id := "Reading"; name := "Reading"; attachedBy := human |}.
  split; [set_solver |]. split; [set_solver |]. split; [vm_compute; discriminate |].
  vm_compute. reflexivity.
Defined.

(** ** The path of a document *)

Section FlatPath.

Context `{RT : Runtime}.

Lemma pad_digits w n : all_chars day_char (pad w n) = true.
Proof.
  revert n. induction w as [|w IH]; intros n; simpl; [done |].
  rewrite all_chars_app, IH. cbn [all_chars andb]. rewrite andb_true_r.
  assert (0 <= n mod 10 < 10) as Hd by (apply Z.mod_pos_bound; lia).
  unfold day_char, code_unit. rewrite nat_ascii_embedding by lia.
  apply orb_true_intro. left. apply orb_true_intro. left.
  apply andb_true_intro. split; apply Nat.leb_le; lia.
Qed.

Lemma year_string_chars y : all_chars day_char (year_string y) = true.
Proof.
  unfold year_string. destruct (_ && _); [apply pad_digits |].
  rewrite all_chars_app, pad_digits, andb_true_r. by destruct (y <? 0).
Qed.

Lemma before_app a s r : includes a s = false -> before a (s +:+ String a r) = s.
Proof.
  unfold before. induction s as [|c s IH].
  - intros _. rewrite string_app_nil_l. simpl. by rewrite Ascii.eqb_refl.
  - intros [Hc Hs]%orb_false_elim. rewrite string_app_cons. cbn [split]. rewrite Hc.
    specialize (IH Hs). destruct (split a (s +:+ String a r)); simpl in *; by subst.
Qed.

Lemma all_chars_excludes q a s : q a = false -> all_chars q s = true -> includes a s = false.
Proof.
  intros Ha. induction s as [|c s IH]; simpl; [done |].
  intros [Hc Hs]%andb_prop. rewrite (IH Hs), orb_false_r.
  destruct (Ascii.eqb_spec a c) as [<- | ?]; [congruence | done].
Qed.

(** The day [toISOString] prints is made of digits, hyphens and at most
    a sign. *)
Lemma isoDay_chars t : all_chars day_char (isoDay t) = true.
Proof.
  unfold isoDay, iso_of_time. destruct (civil_from_days (t / msPerDay)) as [[y m] d].
  assert (all_chars day_char (year_string y +:+ "-" +:+ pad 2 m +:+ "-" +:+ pad 2 d) = true)
    as Hday.
  { rewrite !all_chars_app, year_string_chars, !pad_digits. done. }
  set (rest := pad 2 (t mod msPerDay / 3600000) +:+ _).
  replace (year_string y +:+ "-" +:+ pad 2 m +:+ "-" +:+ pad 2 d +:+ "T" +:+ rest)
    with ((year_string y +:+ "-" +:+ pad 2 m +:+ "-" +:+ pad 2 d) +:+ String "T" rest).
  - rewrite before_app; [done |]. by apply (all_chars_excludes day_char).
  - generalize (year_string y), (pad 2 m), (pad 2 d). intros s1 s2 s3.
    by rewrite !string_app_assoc.
Qed.

Lemma strip_leading_none p s : all_chars (fun c => negb (p c)) s = true -> strip_leading p s = s.
Proof. destruct s as [|c s]; simpl; [done |]. by intros [->%negb_true_iff _]%andb_prop. Qed.

Lemma singleLeadingSlash_slash s :
  singleLeadingSlash ("/" +:+ s) = "/" +:+ strip_leading (is_char "/") s.
Proof. reflexivity. Qed.

(** The path of a document has one slash, the one at its start: the
    sanitized name has none, whatever the title and the date are, so the
    replacement that collapses leading slashes changes nothing and every
    document is created at the root of the notebook. *)
Theorem safeDocPath_has_one_slash (title createdAt sanitized : string) :
  sanitizeSiYuanPath title createdAt = Ok sanitized ->
  all_chars not_slash sanitized = true
  ∧ includes "/" sanitized = false
  ∧ singleLeadingSlash ("/" +:+ sanitized) = "/" +:+ sanitized.
Proof.
  unfold sanitizeSiYuanPath.
  destruct (getTime createdAt) as [|t] eqn:Ht;
    [by rewrite (isoDate_invalid _ Ht) | rewrite (isoDate_of_time _ _ Ht)].
  intros [= <-].
  assert (all_chars not_slash (isoDay t) = true) as Hday.
  { eapply all_chars_impl; [| apply isoDay_chars].
    intros c. unfold day_char, not_slash, is_char, code_unit.
    destruct (Ascii.eqb_spec "/" c) as [<- | ?]; done. }
  assert (all_chars not_slash
            (isoDay t +:+ "-" +:+
             (if nonempty (capTitle (sanitizeTitle title)) then capTitle (sanitizeTitle title)
              else "bookmark-" +:+ isoDay t)) = true) as Hall.
  { rewrite !all_chars_app, Hday. simpl. case_match.
    - eapply all_chars_impl; [| apply capTitle_clean, sanitizeTitle_clean].
      intros c [Hu _]%andb_prop. unfold not_slash, is_char.
      destruct (Ascii.eqb_spec "/" c) as [<- | ?]; done.
    - by rewrite all_chars_app, Hday. }
  split; [exact Hall |]. split; [by apply (all_chars_excludes not_slash) |].
  rewrite singleLeadingSlash_slash. by rewrite (strip_leading_none _ _ Hall).
Qed.

End FlatPath.

(** The statement at a title made of slashes. *)
Lemma safeDocPath_has_one_slash_witness :
  sanitizeSiYuanPath (RT := Reference.runtime) "a/b/c" "2024-03-01T00:00:00Z"
  = Ok "2024-03-01-a-b-c"
  ∧ singleLeadingSlash "/2024-03-01-a-b-c" = "/2024-03-01-a-b-c".
Proof.
  assert (sanitizeSiYuanPath (RT := Reference.runtime) "a/b/c" "2024-03-01T00:00:00Z"
          = Ok "2024-03-01-a-b-c") as H by (vm_compute; reflexivity).
  split; [exact H |].
  by destruct (safeDocPath_has_one_slash (RT := Reference.runtime) _ _ _ H) as (_ & _ & ?).
Defined.

(** ** The document made of a record *)

#[global] Instance quiet_preorder : PreOrder quiet.
Proof.
  split.
  - intros w. by repeat split.
  - intros w1 w2 w3 (? & ? & ? & ? & ? & ? & ? & ? & ? & ?) (? & ? & ? & ? & ? & ? & ? & ? & ? & ?).
    repeat split; congruence.
Qed.
#[global] Instance quiet_lines : KeepsLines quiet.
Proof. intros l w. by repeat split. Qed.

#[global] Instance aside_preorder : PreOrder aside.
Proof.
  split.
  - intros w. by repeat split.
  - intros w1 w2 w3 (? & ? & ? & ? & ?) (? & ? & ? & ? & ?). repeat split; congruence.
Qed.
#[global] Instance aside_lines : KeepsLines aside.
Proof. intros l w. by repeat split. Qed.
#[global] Instance aside_calls : KeepsCalls aside.
Proof. intros c w. by repeat split. Qed.
#[global] Instance aside_web : KeepsWeb aside.
Proof. intros l w. by repeat split. Qed.
#[global] Instance aside_uploads : KeepsUploads aside.
Proof. intros l w. by repeat split. Qed.

Section Document.

Context `{RT : Runtime}.

Lemma extends_refl h : extends h h.
Proof. exists "". by rewrite string_app_nil_r. Qed.

Lemma extends_app h s u : extends h s -> extends h (s +:+ u).
Proof. intros [r ->]. exists (r +:+ u). apply string_app_assoc. Qed.

Lemma extends_if h (b : bool) s u : extends h s -> extends h u -> extends h (if b then s else u).
Proof. by destruct b. Qed.

Lemma wp_returns_keeps R {A} (m : M A) w :
  Returns m -> Keeps R m -> wp m w (fun r w' => (∃ a, r = Ok a) ∧ R w w').
Proof.
  intros Hr Hk. destruct (Hr w) as (a & w' & E). specialize (Hk w).
  unfold wp. rewrite E in *. eauto.
Qed.

Lemma formatBookmarkAsMarkdown_shape bookmark title w :
  wp (formatBookmarkAsMarkdown bookmark title) w
     (fun r w' =>
        ∃ body,
          r = Ok ("# " +:+ title +:+ nl +:+ nl +:+ body +:+ "----" +:+ nl +:+ linkBack w bookmark)
          ∧ (downloadAssets (settings w) = false -> quiet w w')).
Proof.
  assert (∀ X footer, extends ("# " +:+ title +:+ nl +:+ nl) X ->
            ∃ body, X +:+ "----" +:+ nl +:+ footer
                    = "# " +:+ title +:+ nl +:+ nl +:+ body +:+ "----" +:+ nl +:+ footer)
    as Hclose.
  { intros X footer [body ->]. exists body. by rewrite !string_app_assoc. }
  unfold formatBookmarkAsMarkdown. wp_step. wp_step. wp_step.
  eapply wp_mono;
    [apply (wp_returns_keeps quiet), (chooseAsset_keeps quiet); apply chooseAsset_returns |].
  intros r w1 [[[[u i] d] ->] H1].
  wp_step.
  eapply wp_mono with
    (Q := fun r w2 => ∃ assetMarkdown, r = Ok assetMarkdown ∧ i18n w2 = i18n w
                      ∧ settings w2 = settings w
                      ∧ (downloadAssets (settings w) = false -> quiet w w2)).
  { pose proof H1 as (Hs1 & Hi1 & _).
    destruct (truthy u); [| wp_step; by eexists].
    destruct (downloadAssets (settings w)) eqn:Hda; [| wp_step; by eexists].
    wp_step.
    eapply wp_mono;
      [apply (wp_returns_keeps sameEnv), (downloadAndUploadAsset_keeps sameEnv);
       apply downloadAndUploadAsset_returns |].
    intros r w2 [[p ->] (Hs2 & Hi2 & _)].
    wp_auto; eexists; (split; [reflexivity |]); world_cbn;
      (split; [congruence |]); (split; [congruence | done]). }
  intros r w2 (assetMarkdown & -> & Hi2 & Hs2 & Hq2).
  assert (∀ l, quiet w w2 -> quiet w (record_line l w2)) as Hline.
  { intros l H. etrans; [exact H | apply keeps_lines]. }
  assert (linkBack w2 bookmark = linkBack w bookmark) as Hlink.
  { unfold linkBack. by rewrite Hs2, Hi2. }
  wp_auto; world_cbn.
  all: unfold linkBack in *; rewrite ?Hs2, ?Hi2 in *.
  all: try match goal with
           | H : URL_parse _ = _ |- _ => rewrite H
           end.
  all: match goal with
       | |- ∃ body, Ok (?X +:+ "----" +:+ nl +:+ ?footer) = _ ∧ _ =>
           destruct (Hclose X footer) as [body Hbody];
           [| exists body; split; [by rewrite Hbody |];
              let Hda := fresh in
              intros Hda; destruct (Hq2 Hda) as (? & ? & ? & ? & ? & ? & ? & ? & ? & ?);
              by repeat split]
       end.
  all: repeat first [ apply extends_refl
                    | apply extends_app
                    | apply extends_if
                    | match goal with
                      | |- extends _ (match ?l with [] => _ | _ :: _ => _ end) => destruct l
                      end ].
Qed.

(** The document of a record is always made: formatting does not throw,
    whatever the record holds and whatever happens to its asset.  The
    document starts with the title as a heading and ends with a rule and
    the link back to Karakeep, or the id of the record when the endpoint
    is not a URL.  Formatting leaves the settings and the kernel as they
    are; and when assets are not downloaded it sends no request at all:
    only the console changes. *)
Theorem formatBookmarkAsMarkdown_document
    (bookmark : KarakeepBookmark) (title : string) (w : World) :
  ∃ body w',
    formatBookmarkAsMarkdown bookmark title w
    = (Ok ("# " +:+ title +:+ nl +:+ nl +:+ body +:+ "----" +:+ nl +:+ linkBack w bookmark), w')
    ∧ aside w w'
    ∧ (downloadAssets (settings w) = false -> quiet w w').
Proof.
  destruct (formatBookmarkAsMarkdown bookmark title w) as [r w'] eqn:E.
  destruct (wp_eq _ _ _ (formatBookmarkAsMarkdown_shape bookmark title w) _ _ E)
    as (body & -> & Hq).
  exists body, w'. split; [done |]. split; [| done].
  pose proof (formatBookmarkAsMarkdown_keeps aside bookmark title w) as H.
  by rewrite E in H.
Qed.

End Document.

(** The statement at a record with a picture, assets being linked. *)
Lemma formatBookmarkAsMarkdown_document_witness :
  ∃ md w',
    formatBookmarkAsMarkdown (RT := Reference.runtime) pictureBookmark "March"
      (worldOf linkingSettings [] [])
    = (Ok md, w')
    ∧ calls w' = [].
Proof.
  destruct (formatBookmarkAsMarkdown_document (RT := Reference.runtime) pictureBookmark
              "March" (worldOf linkingSettings [] [])) as (body & w' & Hrun & _ & Hq).
  eexists _, w'. split; [exact Hrun |].
  by destruct (Hq eq_refl) as (_ & _ & _ & _ & _ & _ & _ & _ & _ & ->).
Defined.

(** ** Loading and saving the settings *)

Section Settings.

Lemma settingKeys_NoDup : NoDup settingKeys.
Proof. apply (bool_decide_unpack (NoDup settingKeys)). vm_compute. exact I. Qed.

Lemma settingFields_keys s : (settingFields s).*1 = settingKeys.
Proof. reflexivity. Qed.

Lemma toObject_lookup s k : is_Some (toObject s !! k) <-> k ∈ settingKeys.
Proof.
  unfold toObject. rewrite <- elem_of_dom, dom_list_to_map_L, elem_of_list_to_set.
  by rewrite settingFields_keys.
Qed.

Lemma hasOwnProperty_plain expr (source : gmap string Json) key :
  ¬ shadowed source ->
  hasOwnProperty expr source key = Ok (bool_decide (is_Some (source !! key))).
Proof.
  unfold shadowed, hasOwnProperty. intros H.
  destruct (source !! "hasOwnProperty"); [| done]. by destruct H.
Qed.

Lemma hasOwnProperty_shadowed expr (source : gmap string Json) key :
  shadowed source ->
  hasOwnProperty expr source key = Throw (expr +:+ ".hasOwnProperty is not a function").
Proof. unfold shadowed, hasOwnProperty. by intros [v ->]. Qed.

(** The loop over an object without a [hasOwnProperty] of its own.  *)
Lemma copyKnown_lookup expr (source : gmap string Json) keys (target : gmap string Json) :
  ¬ shadowed source ->
  ∃ m, copyKnown expr source keys target = Ok m
    ∧ ∀ k, m !! k
           = if bool_decide (k ∈ keys)
             then match source !! k with
                  | Some v => Some v
                  | None => target !! k
                  end
             else target !! k.
Proof.
  intros Hplain. revert target.
  induction keys as [|key keys IH]; intros target; cbn [copyKnown].
  - exists target. split; [done |]. intros k.
    rewrite bool_decide_eq_false_2; [done | apply not_elem_of_nil].
  - rewrite (hasOwnProperty_plain _ _ _ Hplain).
    destruct (source !! key) as [v|] eqn:E.
    + rewrite bool_decide_eq_true_2 by done.
      destruct (IH (<[key := v]> target)) as (m & -> & Hm).
      exists m. split; [done |]. intros k. rewrite Hm.
      destruct (decide (k = key)) as [-> | Hne].
      * rewrite E, lookup_insert_eq, (bool_decide_eq_true_2 (key ∈ key :: keys)) by set_solver.
        by case_bool_decide.
      * rewrite lookup_insert_ne by done.
        assert (bool_decide (k ∈ key :: keys) = bool_decide (k ∈ keys)) as ->; [| done].
        apply bool_decide_ext. set_solver.
    + rewrite bool_decide_eq_false_2 by (by intros [? ?]).
      destruct (IH target) as (m & -> & Hm).
      exists m. split; [done |]. intros k. rewrite Hm.
      destruct (decide (k = key)) as [-> | Hne].
      * rewrite E, (bool_decide_eq_true_2 (key ∈ key :: keys)) by set_solver.
        by case_bool_decide.
      * assert (bool_decide (k ∈ key :: keys) = bool_decide (k ∈ keys)) as ->; [| done].
        apply bool_decide_ext. set_solver.
Qed.

Lemma copyKnown_settings expr (source : gmap string Json) :
  ¬ shadowed source ->
  ∃ m, copyKnown expr source settingKeys ∅ = Ok m
    ∧ ∀ k, m !! k = if bool_decide (k ∈ settingKeys) then source !! k else None.
Proof.
  intros Hplain. destruct (copyKnown_lookup expr source settingKeys ∅ Hplain) as (m & Hm & Hk).
  exists m. split; [done |]. intros k. rewrite Hk, lookup_empty.
  case_bool_decide; [by destruct (source !! k) | done].
Qed.

Lemma copyKnown_shadowed expr (source : gmap string Json) :
  shadowed source ->
  copyKnown expr source settingKeys ∅ = Throw (expr +:+ ".hasOwnProperty is not a function").
Proof.
  intros Hs. change settingKeys with ("apiKey" :: tail settingKeys).
  cbn [copyKnown]. by rewrite (hasOwnProperty_shadowed _ _ _ Hs).
Qed.

Lemma toObject_plain s : ¬ shadowed (toObject s).
Proof.
  unfold shadowed. rewrite toObject_lookup.
  intros H. by apply (bool_decide_pack _) in H.
Qed.

Lemma loadSettings_lookup (data : gmap string Json) :
  ¬ shadowed data ->
  ∃ s, loadSettings (Some data) = Ok s
    ∧ ∀ k, s !! k
           = if bool_decide (k ∈ settingKeys)
             then match data !! k with
                  | Some v => Some v
                  | None => toObject DEFAULT_SETTINGS !! k
                  end
             else None.
Proof.
  intros Hplain. unfold loadSettings.
  destruct (copyKnown_settings "loadedData" data Hplain) as (m & -> & Hm).
  eexists. split; [reflexivity |]. intros k. rewrite lookup_union, Hm.
  case_bool_decide as Hk.
  - destruct (data !! k); [| by rewrite (left_id_L None _)].
    by destruct (toObject DEFAULT_SETTINGS !! k).
  - rewrite (left_id_L None _). apply eq_None_not_Some. by rewrite toObject_lookup.
Qed.

Lemma loadSettings_nothing : loadSettings None = Ok (toObject DEFAULT_SETTINGS).
Proof. unfold loadSettings. by rewrite (left_id_L ∅ (∪)). Qed.

(** The settings loaded have the ten keys of the defaults and no other,
    whatever is stored in an object without a property [hasOwnProperty]
    of its own: a key that is stored wins with its value as it is, of
    whatever type; a key that is not stored gets its default; a stored
    key that is not a key of the defaults is dropped.  With nothing
    stored the settings are the defaults.  When the stored object has a
    property [hasOwnProperty] of its own, loading throws, and the
    settings stay unset. *)
Theorem loadSettings_keys_and_values (loadedData : option (gmap string Json)) :
  ((∀ data, loadedData = Some data -> ¬ shadowed data) ->
   ∃ s, loadSettings loadedData = Ok s
     ∧ dom s = list_to_set settingKeys
     ∧ (∀ k, k ∈ settingKeys ->
          s !! k
          = match loadedData ≫= (.!! k) with
            | Some v => Some v
            | None => toObject DEFAULT_SETTINGS !! k
            end)
     ∧ (∀ k, k ∉ settingKeys -> s !! k = None))
  ∧ (∀ data, loadedData = Some data -> shadowed data ->
       ∃ e, loadSettings loadedData = Throw e)
  ∧ loadSettings None = Ok (toObject DEFAULT_SETTINGS)
  ∧ loadSettings (Some ∅) = Ok (toObject DEFAULT_SETTINGS).
Proof.
  assert (∀ s : gmap string Json,
            (∀ k, s !! k
                  = if bool_decide (k ∈ settingKeys)
                    then match loadedData ≫= (.!! k) with
                         | Some v => Some v
                         | None => toObject DEFAULT_SETTINGS !! k
                         end
                    else None) ->
            dom s = list_to_set settingKeys
            ∧ (∀ k, k ∈ settingKeys ->
                 s !! k
                 = match loadedData ≫= (.!! k) with
                   | Some v => Some v
                   | None => toObject DEFAULT_SETTINGS !! k
                   end)
            ∧ (∀ k, k ∉ settingKeys -> s !! k = None)) as Hshape.
  { intros s Hs. split; [| split].
    - apply set_eq. intros k. rewrite elem_of_dom, elem_of_list_to_set, Hs.
      case_bool_decide as Hk; [| split; [by intros [? ?] | done]].
      split; [done |]. intros _.
      destruct (loadedData ≫= (.!! k)); [done |]. by apply toObject_lookup.
    - intros k Hk. by rewrite Hs, bool_decide_eq_true_2.
    - intros k Hk. by rewrite Hs, bool_decide_eq_false_2. }
  split; [| split; [| split]].
  - intros Hplain. destruct loadedData as [data|].
    + destruct (loadSettings_lookup data (Hplain data eq_refl)) as (s & Hs & Hk).
      exists s. split; [done |]. by apply Hshape.
    + exists (toObject DEFAULT_SETTINGS). split; [apply loadSettings_nothing |].
      apply Hshape. intros k. simpl. case_bool_decide as Hk; [done |].
      apply eq_None_not_Some. by rewrite toObject_lookup.
  - intros data -> Hs. unfold loadSettings. rewrite (copyKnown_shadowed _ _ Hs). by eexists.
  - apply loadSettings_nothing.
  - destruct (loadSettings_lookup ∅) as (s & -> & Hk).
    { unfold shadowed. rewrite lookup_empty. by intros [? ?]. }
    f_equal. apply map_eq. intros k. rewrite Hk, lookup_empty.
    case_bool_decide as Hin; [done |]. symmetry. apply eq_None_not_Some.
    by rewrite toObject_lookup.
Qed.

(** Settings that are saved and loaded come back as they were: saving
    hands every property of the settings to [saveData], and loading
    them gives the settings again, not the defaults.  More generally,
    for an object with properties of any kind but [hasOwnProperty], to
    save and load is to load: the properties that are not settings are
    dropped on the way.  For an object with a property [hasOwnProperty]
    of its own both saving and loading throw. *)
Theorem saveSettings_loadSettings (s : KarakeepSyncSettings) (object : gmap string Json) :
  settingsToSave (toObject s) = Ok (toObject s)
  ∧ loadSettings (Some (toObject s)) = Ok (toObject s)
  ∧ (¬ shadowed object ->
     ∃ saved, settingsToSave object = Ok saved
       ∧ loadSettings (Some saved) = loadSettings (Some object))
  ∧ (shadowed object ->
     (∃ e, settingsToSave object = Throw e) ∧ ∃ e, loadSettings (Some object) = Throw e).
Proof.
  split; [| split; [| split]].
  - unfold settingsToSave.
    destruct (copyKnown_settings "plugin.settings" _ (toObject_plain s)) as (m & -> & Hm).
    f_equal. apply map_eq. intros k. rewrite Hm.
    case_bool_decide as Hk; [done |]. symmetry. apply eq_None_not_Some.
    by rewrite toObject_lookup.
  - destruct (loadSettings_lookup _ (toObject_plain s)) as (m & -> & Hm).
    f_equal. apply map_eq. intros k. rewrite Hm.
    case_bool_decide as Hk.
    + destruct (proj2 (toObject_lookup s k) Hk) as [v Hv]. by rewrite Hv.
    + symmetry. apply eq_None_not_Some. by rewrite toObject_lookup.
  - intros Hplain. unfold settingsToSave.
    destruct (copyKnown_settings "plugin.settings" _ Hplain) as (saved & -> & Hsaved).
    exists saved. split; [done |].
    assert (¬ shadowed saved) as Hplain'.
    { unfold shadowed. rewrite Hsaved. intros [v Hv]. apply Hplain.
      case_bool_decide; [by exists v | done]. }
    destruct (loadSettings_lookup _ Hplain') as (m & -> & Hm).
    destruct (loadSettings_lookup _ Hplain) as (m' & -> & Hm').
    f_equal. apply map_eq. intros k. rewrite Hm, Hm', Hsaved. by case_bool_decide.
  - intros Hs. unfold settingsToSave, loadSettings.
    rewrite !(copyKnown_shadowed _ _ Hs). split; by eexists.
Qed.

End Settings.

(** The statements at stored data with a key, a property that is not a
    setting and nothing else, and at data that shadow [hasOwnProperty]. *)
Lemma loadSettings_keys_and_values_witness :
  (∃ s, loadSettings (Some {[ "apiKey" := JStr "secret"; "theme" := JStr "dark" ]}) = Ok s
     ∧ s !! "apiKey" = Some (JStr "secret")
     ∧ s !! "syncIntervalMinutes" = Some (JNum 60)
     ∧ s !! "theme" = None)
  ∧ ∃ e, loadSettings (Some {[ "hasOwnProperty" := JNum 1 ]}) = Throw e.
Proof.
  split.
  - destruct (loadSettings_keys_and_values
                (Some {[ "apiKey" := JStr "secret"; "theme" := JStr "dark" ]}))
      as [H _].
    destruct H as (s & Hs & _ & Hknown & Hother).
    { intros data [= <-]. unfold shadowed. intros [v Hv]. revert Hv. vm_compute. done. }
    exists s. split; [exact Hs |]. split; [| split].
    + rewrite Hknown; [reflexivity | by vm_compute; set_solver].
    + rewrite Hknown; [reflexivity | by vm_compute; set_solver].
    + apply Hother. vm_compute. set_solver.
  - destruct (loadSettings_keys_and_values (Some {[ "hasOwnProperty" := JNum 1 ]}))
      as (_ & H & _).
    apply (H _ eq_refl). unfold shadowed. by eexists.
Defined.

Lemma saveSettings_loadSettings_witness :
  ∃ saved,
    settingsToSave {[ "apiKey" := JStr "secret"; "theme" := JStr "dark" ]} = Ok saved
    ∧ loadSettings (Some saved)
      = loadSettings (Some {[ "apiKey" := JStr "secret"; "theme" := JStr "dark" ]}).
Proof.
  destruct (saveSettings_loadSettings DEFAULT_SETTINGS
              {[ "apiKey" := JStr "secret"; "theme" := JStr "dark" ]}) as (_ & _ & H & _).
  apply H. unfold shadowed. intros [v Hv]. revert Hv. vm_compute. done.
Defined.

(** ** The excluded tags in the settings dialog *)

Section TagList.

Implicit Types (p : ascii -> bool) (s u : string) (a c : ascii).

Lemma headless_strip_leading p s : headless p (strip_leading p s).
Proof. induction s as [|c s IH]; simpl; [done |]. by destruct (p c) eqn:E. Qed.

Lemma headless_strip_trailing p s : headless p s -> headless p (strip_trailing p s).
Proof.
  destruct s as [|c s]; simpl; [done |]. intros Hc.
  destruct (strip_trailing p s); [by rewrite Hc | done].
Qed.

Lemma strip_leading_headless p s : headless p s -> strip_leading p s = s.
Proof. destruct s as [|c s]; simpl; [done |]. by intros ->. Qed.

Lemma trim_idem s : trim (trim s) = trim s.
Proof.
  unfold trim, strip_both.
  rewrite (strip_leading_headless is_space (strip_trailing _ _)).
  - apply strip_trailing_idem.
  - apply headless_strip_trailing, headless_strip_leading.
Qed.

Lemma includes_strip_leading a p s :
  includes a s = false -> includes a (strip_leading p s) = false.
Proof.
  induction s as [|c s IH]; simpl; [done |].
  intros [Hc Hs]%orb_false_elim. destruct (p c); [by apply IH |]. simpl. by rewrite Hc, Hs.
Qed.

Lemma includes_strip_trailing a p s :
  includes a s = false -> includes a (strip_trailing p s) = false.
Proof.
  induction s as [|c s IH]; simpl; [done |].
  intros [Hc Hs]%orb_false_elim. specialize (IH Hs).
  destruct (strip_trailing p s).
  - destruct (p c); simpl; [done |]. by rewrite Hc.
  - simpl in *. by rewrite Hc, IH.
Qed.

Lemma includes_trim a s : includes a s = false -> includes a (trim s) = false.
Proof. intros H. by apply includes_strip_trailing, includes_strip_leading. Qed.

Lemma split_pieces a s : Forall (fun t => includes a t = false) (split a s).
Proof.
  induction s as [|c s IH]; simpl; [by repeat constructor |].
  destruct (Ascii.eqb a c) eqn:E; [by constructor |].
  destruct (split a s) as [|h t]; [by repeat constructor; simpl; rewrite E |].
  apply Forall_cons in IH as [Hh Ht]. constructor; [| done]. simpl. by rewrite E, Hh.
Qed.

Lemma split_none a s : includes a s = false -> split a s = [s].
Proof.
  induction s as [|c s IH]; simpl; [done |].
  intros [Hc Hs]%orb_false_elim. by rewrite Hc, (IH Hs).
Qed.

Lemma split_app a s r :
  includes a s = false -> split a (s +:+ String a r) = s :: split a r.
Proof.
  induction s as [|c s IH].
  - intros _. rewrite string_app_nil_l. simpl. by rewrite Ascii.eqb_refl.
  - intros [Hc Hs]%orb_false_elim. rewrite string_app_cons. cbn [split].
    by rewrite Hc, (IH Hs).
Qed.

Lemma concat_cons (sep x y : string) (l : list string) :
  String.concat sep (x :: y :: l) = x +:+ sep +:+ String.concat sep (y :: l).
Proof. done. Qed.

Lemma split_nonempty a s : split a s ≠ [].
Proof.
  destruct s as [|c s]; simpl; [done |].
  destruct (Ascii.eqb a c); [done |]. by destruct (split a s).
Qed.

(** A blank after the comma is trimmed away. *)
Lemma trim_split_blank s :
  trim <$> split "," (" " +:+ s) = trim <$> split "," s.
Proof.
  rewrite string_app_cons, string_app_nil_l. cbn [split].
  change (Ascii.eqb "," " ") with false. cbn iota.
  pose proof (split_nonempty "," s) as Hne.
  by destruct (split "," s) as [|h t].
Qed.

(** Every tag the text area delivers is plain. *)
Lemma parseTags_plain value : Forall plainTag (parseTags value).
Proof.
  unfold parseTags. apply Forall_forall. intros t Ht.
  apply list_elem_of_In, filter_In in Ht as [Ht Hne].
  apply list_elem_of_In, list_elem_of_fmap in Ht as (piece & -> & Hpiece).
  split; [by intros E; rewrite E in Hne |]. split; [apply trim_idem |].
  apply includes_trim.
  pose proof (split_pieces "," value) as H. rewrite Forall_forall in H. by apply H.
Qed.

Lemma parseTags_showTags_plain tags : Forall plainTag tags -> parseTags (showTags tags) = tags.
Proof.
  unfold parseTags, showTags.
  induction tags as [|t [|t' ts] IH]; intros Htags.
  - done.
  - apply Forall_cons in Htags as [(Hne & Htrim & Hcomma) _]. cbn [String.concat].
    rewrite (split_none _ _ Hcomma). simpl. rewrite Htrim. by destruct t.
  - apply Forall_cons in Htags as [(Hne & Htrim & Hcomma) Hrest]. specialize (IH Hrest).
    rewrite concat_cons, (string_app_cons "," " ").
    rewrite (split_app _ _ _ Hcomma), fmap_cons, trim_split_blank. cbn [List.filter].
    rewrite Htrim. destruct t; [done |]. cbn [nonempty]. by rewrite IH.
Qed.

(** The list of excluded tags survives the dialog.  What the text area
    shows for a list of tags that are not empty, trimmed and free of
    commas is parsed back to the same list; the tags it delivers are
    always of that kind, whatever is typed, so showing and parsing again
    what was parsed changes nothing. *)
Theorem parseTags_showTags (tags : list string) (value : string) :
  (Forall plainTag tags -> parseTags (showTags tags) = tags)
  ∧ Forall plainTag (parseTags value)
  ∧ parseTags (showTags (parseTags value)) = parseTags value.
Proof.
  split; [apply parseTags_showTags_plain |]. split; [apply parseTags_plain |].
  apply parseTags_showTags_plain, parseTags_plain.
Qed.

End TagList.

(** The statement at what is typed with blanks and empty pieces. *)
Lemma parseTags_showTags_witness :
  parseTags " read-later ,, temp," = ["read-later"; "temp"]
  ∧ showTags ["read-later"; "temp"] = "read-later, temp"
  ∧ parseTags "read-later, temp" = ["read-later"; "temp"].
Proof.
  split; [vm_compute; reflexivity |]. split; [reflexivity |].
  apply (parseTags_showTags ["read-later"; "temp"] "").
  repeat constructor; vm_compute; congruence.
Defined.

